(** * Real-time messaging and presence engine of the chat backend

    A shallow embedding of the Socket.IO handlers ([messageHandlers],
    [presenceHandlers], [socketManager]) and of the HTTP controllers
    ([sendMessage], [markAsRead], [leaveGroup]) over an explicit model of
    the MongoDB collections and of the Socket.IO room table.

    Conventions.
    - Object ids, socket ids and room names are strings.
    - A Mongoose [Map] of numbers ([unreadCount]) is a [gmap string nat];
      reading a missing key with [get(k) || 0] is [default 0 (m !! k)].
    - The in-memory [userSockets] map of sets is a [gmap string (gset string)].
    - What the code cannot decide alone (ids generated by the store, the
      clock, a write being rejected) is read from an environment [Env].
    - Handlers run in a state-and-exception monad: what was written before
      a [throw] stays written, as in the source (no transaction). *)

From stdpp Require Import gmap strings list fin_maps pretty.

Open Scope string_scope.
Open Scope list_scope.
Open Scope nat_scope.

(** ** Documents *)

Inductive RoomRef :=
| InConversation (conversationId : string)
| InGroup (groupId : string).

Record Attachment := {
  att_type : string;
  att_url : string;
  att_filename : string;
  att_size : nat
}.

(** models/Message.js *)
Record Message := {
  sender : string;
  content : string;
  conversation : option string;
  group : option string;
  readBy : list string;
  attachments : list Attachment;
  isDeleted : bool;
  createdAt : nat
}.

(** models/Conversation.js *)
Record Conversation := {
  participants : list string;
  c_lastMessage : option string;
  c_unreadCount : gmap string nat;
  c_isActive : bool
}.

(** models/Group.js *)
Record Group := {
  name : string;
  creator : string;
  members : list string;
  admins : list string;
  lastMessage : option string;
  unreadCount : gmap string nat;
  isActive : bool
}.

(** models/User.js, the fields the engine reads or writes *)
Record User := {
  username : string;
  avatar : string;
  status : string;
  lastSeen : nat;
  friends : list string
}.

(** models/Notification.js *)
Record Notification := {
  recipient : string;
  n_sender : string;
  n_type : string;
  n_title : string;
  n_content : string;
  relatedTo : string * string
}.

(** The durable store: one finite map per collection. *)
Record Store := {
  users : gmap string User;
  conversations : gmap string Conversation;
  groups : gmap string Group;
  messages : gmap string Message;
  notifications : gmap string Notification
}.

Definition set_users (f : gmap string User → gmap string User) (st : Store) : Store :=
  {| users := f (users st); conversations := conversations st; groups := groups st;
     messages := messages st; notifications := notifications st |}.
Definition set_conversations (f : gmap string Conversation → gmap string Conversation)
    (st : Store) : Store :=
  {| users := users st; conversations := f (conversations st); groups := groups st;
     messages := messages st; notifications := notifications st |}.
Definition set_groups (f : gmap string Group → gmap string Group) (st : Store) : Store :=
  {| users := users st; conversations := conversations st; groups := f (groups st);
     messages := messages st; notifications := notifications st |}.
Definition set_messages (f : gmap string Message → gmap string Message) (st : Store) : Store :=
  {| users := users st; conversations := conversations st; groups := groups st;
     messages := f (messages st); notifications := notifications st |}.
Definition set_notifications (f : gmap string Notification → gmap string Notification)
    (st : Store) : Store :=
  {| users := users st; conversations := conversations st; groups := groups st;
     messages := messages st; notifications := f (notifications st) |}.

(** ** Environment

    Values the handlers obtain from outside: the clock ([new Date()]), the
    ids MongoDB gives to new documents, and whether each of the three
    writes of a send is rejected (schema validator or store failure).
    Queries and atomic updates are taken to succeed. *)
Record Env := {
  now : nat;
  new_message_id : string;
  new_notification_id : string → string;
  message_save_rejects : bool;
  room_save_rejects : bool;
  notification_save_rejects : string → bool
}.

(** ** Socket.IO *)

(** [socket.id] and the [socket.user] object attached at the handshake. *)
Record Socket := {
  socket_id : string;
  user_id : string;
  user_username : string;
  user_avatar : string
}.

Record NotificationView := {
  nv_id : string;
  nv_type : string;
  nv_title : string;
  nv_content : string;
  nv_sender : string * string * string;
  nv_createdAt : nat
}.

(** Server-to-client events with their payloads. *)
Inductive Event :=
| EvError (message : string)
| EvMessageNew (id : string) (m : Message) (populated_sender : option (string * string))
    (room : RoomRef)
| EvNotificationNew (n : NotificationView)
| EvTypingUpdate (userId username : string) (isTyping : bool) (room : RoomRef)
| EvMessageRead (reader : string) (messageIds : list string) (room : RoomRef)
| EvUserStatus (userId status : string) (lastSeen : nat)
| EvStatusUpdated (status : string)
| EvStatusList (statusMap : gmap string (string * nat))
| EvPresenceHistory (userId status : string) (lastSeen : nat).

(** The three ways the handlers emit:
    [socket.emit], [io.to(room).emit] and [socket.to(room).emit]. *)
Inductive Emit :=
| SocketEmit (sid : string) (e : Event)
| IoTo (room : string) (e : Event)
| SocketTo (sid : string) (room : string) (e : Event).

Definition emitted_event (a : Emit) : Event :=
  match a with
  | SocketEmit _ e | IoTo _ e | SocketTo _ _ e => e
  end.

(** The process state a handler can touch. [rooms] is the adapter's table
    (room name to the socket ids that joined it), [closures] holds, per
    connected socket id, what its disconnect handler closes over: the
    [socket] and the [user] document loaded by the connection handler (its
    populated friends, or [None] for [null]), [outbox] the emits in program
    order, [console] the [console.error] lines. *)
Record World := {
  store : Store;
  rooms : gmap string (gset string);
  userSockets : gmap string (gset string);
  closures : gmap string (Socket * option (list string));
  outbox : list Emit;
  console : list string
}.

Definition set_store (f : Store → Store) (w : World) : World :=
  {| store := f (store w); rooms := rooms w; userSockets := userSockets w;
     closures := closures w; outbox := outbox w; console := console w |}.
Definition set_rooms (f : gmap string (gset string) → gmap string (gset string))
    (w : World) : World :=
  {| store := store w; rooms := f (rooms w); userSockets := userSockets w;
     closures := closures w; outbox := outbox w; console := console w |}.
Definition set_userSockets (f : gmap string (gset string) → gmap string (gset string))
    (w : World) : World :=
  {| store := store w; rooms := rooms w; userSockets := f (userSockets w);
     closures := closures w; outbox := outbox w; console := console w |}.
Definition set_closures
    (f : gmap string (Socket * option (list string)) →
         gmap string (Socket * option (list string)))
    (w : World) : World :=
  {| store := store w; rooms := rooms w; userSockets := userSockets w;
     closures := f (closures w); outbox := outbox w; console := console w |}.
Definition push_outbox (a : Emit) (w : World) : World :=
  {| store := store w; rooms := rooms w; userSockets := userSockets w;
     closures := closures w; outbox := outbox w ++ [a]; console := console w |}.
Definition push_console (l : string) (w : World) : World :=
  {| store := store w; rooms := rooms w; userSockets := userSockets w;
     closures := closures w; outbox := outbox w; console := console w ++ [l] |}.

(** Sockets in a room. *)
Definition room_sockets (rs : gmap string (gset string)) (room : string) : gset string :=
  default ∅ (rs !! room).

(** Who receives an emit: [io.to(room)] reaches every socket of the room,
    [socket.to(room)] every socket of the room but the emitting one. *)
Definition receivers (rs : gmap string (gset string)) (a : Emit) : gset string :=
  match a with
  | SocketEmit sid _ => {[ sid ]}
  | IoTo room _ => room_sockets rs room
  | SocketTo sid room _ => room_sockets rs room ∖ {[ sid ]}
  end.

Definition conversation_room (id : string) : string := "conversation:" +:+ id.
Definition group_room (id : string) : string := "group:" +:+ id.

Definition room_name (r : RoomRef) : string :=
  match r with
  | InConversation id => conversation_room id
  | InGroup id => group_room id
  end.

(** ** State and exception monad *)

Inductive Exn :=
| ApiError (message : string) (statusCode : nat)
| OtherError (message : string).

Inductive Res (A : Type) :=
| Ok (a : A)
| Throw (e : Exn).
Arguments Ok {A} a.
Arguments Throw {A} e.

Definition M (S A : Type) : Type := S → Res A * S.

Definition ret {S A} (a : A) : M S A := λ s, (Ok a, s).
Definition throw {S A} (e : Exn) : M S A := λ s, (Throw e, s).
Definition bind {S A B} (m : M S A) (k : A → M S B) : M S B :=
  λ s, match m s with
       | (Ok a, s') => k a s'
       | (Throw e, s') => (Throw e, s')
       end.
Definition try_catch {S A} (m : M S A) (h : Exn → M S A) : M S A :=
  λ s, match m s with
       | (Ok a, s') => (Ok a, s')
       | (Throw e, s') => h e s'
       end.
Definition gets {S A} (f : S → A) : M S A := λ s, (Ok (f s), s).
Definition modify {S} (f : S → S) : M S unit := λ s, (Ok tt, f s).

Notation "x ⇐ m ;; k" := (bind m (λ x, k))
  (at level 100, m at next level, right associativity, only parsing).
Notation "m ;;; k" := (bind m (λ _, k))
  (at level 100, right associativity, only parsing).

(** [for (const x of l) { await f(x) }] *)
Fixpoint for_of {S A} (l : list A) (f : A → M S unit) : M S unit :=
  match l with
  | [] => ret tt
  | x :: l' => f x ;;; for_of l' f
  end.

(** ** JavaScript values of the payloads *)

(** [!x] for a field that is a string or absent. *)
Definition falsy (x : option string) : bool :=
  match x with
  | None => true
  | Some s => bool_decide (s = "")
  end.

(** The string a truthy field holds. *)
Definition str (x : option string) : string := default "" x.

(** [arr.includes(id)] on a Mongoose array of ids. *)
Definition includes (arr : list string) (id : string) : bool := bool_decide (id ∈ arr).

(** [recipients.forEach(r => { const c = m.get(r) || 0; m.set(r, c + 1) })] *)
Definition bump (m : gmap string nat) (r : string) : gmap string nat :=
  <[ r := default 0 (m !! r) + 1 ]> m.
Definition bump_all (m : gmap string nat) (recipients : list string) : gmap string nat :=
  foldl bump m recipients.

(** [get(id) || 0], as the controllers read a counter. *)
Definition unread (m : gmap string nat) (id : string) : nat := default 0 (m !! id).

(** ** Store operations (Mongoose calls) *)

(** Run a store operation from a socket handler. *)
Definition db {A} (m : M Store A) : M World A :=
  λ w, match m (store w) with
       | (r, st') => (r, set_store (λ _, st') w)
       end.

Definition Conversation_findById (id : string) : M Store (option Conversation) :=
  gets (λ st, conversations st !! id).
Definition Group_findById (id : string) : M Store (option Group) :=
  gets (λ st, groups st !! id).
Definition User_findById (id : string) : M Store (option User) :=
  gets (λ st, users st !! id).

(** [MessageSchema.pre('save')]: a message belongs to a conversation or to
    a group, never to both or to neither. *)
Definition message_hook_ok (m : Message) : bool :=
  match conversation m, group m with
  | Some _, None | None, Some _ => true
  | _, _ => false
  end.

(** [message.save()] and [Message.create(...)] of a new document. The
    [required] validator on an empty content is written out; the other
    validators (trimmed length) and store failures are the environment's. *)
Definition Message_save (env : Env) (m : Message) : M Store unit :=
  if bool_decide (content m = "") then throw (OtherError "Message content is required")
  else if message_save_rejects env then throw (OtherError "Message validation failed")
  else if negb (message_hook_ok m) then
    throw (OtherError
      "Message must belong to either a conversation or a group, but not both")
  else modify (set_messages (insert (new_message_id env) m)).

(** [conversation.save()] of a loaded document. *)
Definition Conversation_save (env : Env) (id : string) (c : Conversation) : M Store unit :=
  if room_save_rejects env then throw (OtherError "Conversation save failed")
  else modify (set_conversations (insert id c)).

(** [group.save()] of a loaded document, with the schema's
    "Ensure at least one admin exists" hook. *)
Definition Group_save (env : Env) (id : string) (g : Group) : M Store unit :=
  if bool_decide (length (admins g) = 0) then
    throw (OtherError "Group must have at least one admin")
  else if room_save_rejects env then throw (OtherError "Group save failed")
  else modify (set_groups (insert id g)).

(** [notification.save()] and [Notification.create(...)]. *)
Definition Notification_save (env : Env) (n : Notification) : M Store unit :=
  if notification_save_rejects env (recipient n) then
    throw (OtherError "Notification save failed")
  else modify (set_notifications (insert (new_notification_id env (recipient n)) n)).

(** [$addToSet: { readBy: reader }] on one document. *)
Definition addToSet (x : string) (l : list string) : list string :=
  if bool_decide (x ∈ l) then l else l ++ [x].

Definition mark_read_by (reader : string) (m : Message) : Message :=
  {| sender := sender m; content := content m; conversation := conversation m;
     group := group m; readBy := addToSet reader (readBy m);
     attachments := attachments m; isDeleted := isDeleted m;
     createdAt := createdAt m |}.

(** [Message.updateMany({ _id: { $in: ids }, readBy: { $ne: reader } },
                        { $addToSet: { readBy: reader } })] *)
Definition Message_markRead (ids : list string) (reader : string) : M Store unit :=
  modify (set_messages (λ ms,
    map_imap (λ id m,
      Some (if bool_decide (id ∈ ids) && negb (includes (readBy m) reader)
            then mark_read_by reader m else m)) ms)).

Definition conversation_reset_unread (uid : string) (c : Conversation) : Conversation :=
  {| participants := participants c; c_lastMessage := c_lastMessage c;
     c_unreadCount := <[ uid := 0 ]> (c_unreadCount c); c_isActive := c_isActive c |}.
Definition group_reset_unread (uid : string) (g : Group) : Group :=
  {| name := name g; creator := creator g; members := members g; admins := admins g;
     lastMessage := lastMessage g; unreadCount := <[ uid := 0 ]> (unreadCount g);
     isActive := isActive g |}.

(** [findByIdAndUpdate(id, { $set: { ['unreadCount.' + uid]: 0 } })];
    nothing happens when the id matches no document. *)
Definition Conversation_resetUnread (id uid : string) : M Store unit :=
  modify (set_conversations (alter (conversation_reset_unread uid) id)).
Definition Group_resetUnread (id uid : string) : M Store unit :=
  modify (set_groups (alter (group_reset_unread uid) id)).

Definition user_set_status (s : string) (t : nat) (u : User) : User :=
  {| username := username u; avatar := avatar u; status := s; lastSeen := t;
     friends := friends u |}.
Definition user_set_lastSeen (t : nat) (u : User) : User :=
  {| username := username u; avatar := avatar u; status := status u; lastSeen := t;
     friends := friends u |}.

(** [User.findByIdAndUpdate(id, { status, lastSeen })] *)
Definition User_updateStatus (id s : string) (t : nat) : M Store unit :=
  modify (set_users (alter (user_set_status s t) id)).
(** [User.findByIdAndUpdate(id, { lastSeen })] *)
Definition User_updateLastSeen (id : string) (t : nat) : M Store unit :=
  modify (set_users (alter (user_set_lastSeen t) id)).

(** ** Emitting *)

Definition socket_emit (socket : Socket) (e : Event) : M World unit :=
  modify (push_outbox (SocketEmit (socket_id socket) e)).
Definition io_to_emit (room : string) (e : Event) : M World unit :=
  modify (push_outbox (IoTo room e)).
Definition socket_to_emit (socket : Socket) (room : string) (e : Event) : M World unit :=
  modify (push_outbox (SocketTo (socket_id socket) room e)).
Definition console_error (l : string) : M World unit :=
  modify (push_console l).

(** ** sockets/messageHandlers.js *)

(** The [data] object of an inbound event: every field may be absent. *)
Record Payload := {
  p_conversationId : option string;
  p_groupId : option string;
  p_content : option string;
  p_attachments : option (list Attachment);
  p_messageIds : option (list string);
  p_status : option string;
  p_userIds : option (list string);
  p_userId : option string
}.

(** [new Message({ sender, content, conversation | group, attachments:
    attachments || [], readBy: [sender] })]; the content is kept as given
    (the schema's [trim] setter is not modelled). *)
Definition new_message (env : Env) (from : string) (text : string) (room : RoomRef)
    (atts : option (list Attachment)) : Message :=
  {| sender := from; content := text;
     conversation := match room with InConversation id => Some id | _ => None end;
     group := match room with InGroup id => Some id | _ => None end;
     readBy := [from]; attachments := default [] atts; isDeleted := false;
     createdAt := now env |}.

(** [ids.filter(id => id.toString() !== me)] *)
Definition recipients_of (ids : list string) (me : string) : list string :=
  filter (λ r, r ≠ me) ids.

(** The loaded room document after [lastMessage = message._id] and the
    [forEach] over the recipients. *)
Definition conversation_after_send (c : Conversation) (mid : string)
    (recipients : list string) : Conversation :=
  {| participants := participants c; c_lastMessage := Some mid;
     c_unreadCount := bump_all (c_unreadCount c) recipients;
     c_isActive := c_isActive c |}.

Definition group_after_send (g : Group) (mid : string) (recipients : list string) : Group :=
  {| name := name g; creator := creator g; members := members g; admins := admins g;
     lastMessage := Some mid; unreadCount := bump_all (unreadCount g) recipients;
     isActive := isActive g |}.

(** [new Notification({ recipient, sender, type: 'message', title, content,
    relatedTo: { model: 'Message', id } })] *)
Definition message_notification (from to_ title text mid : string) : Notification :=
  {| recipient := to_; n_sender := from; n_type := "message"; n_title := title;
     n_content := text; relatedTo := ("Message", mid) |}.

(** The payload of [notification:new]. *)
Definition notification_view (env : Env) (socket : Socket) (n : Notification)
    : NotificationView :=
  {| nv_id := new_notification_id env (recipient n); nv_type := n_type n;
     nv_title := n_title n; nv_content := n_content n;
     nv_sender := (user_id socket, user_username socket, user_avatar socket);
     nv_createdAt := now env |}.

(** [message.populate({ path: 'sender', select: 'username avatar' })] *)
Definition populate_sender (id : string) : M Store (option (string * string)) :=
  gets (λ st, (λ u, (username u, avatar u)) <$> users st !! id).

(** The notification loop shared in shape by both send handlers. *)
Definition notify_recipients (env : Env) (socket : Socket) (recipients : list string)
    (title text : string) : M World unit :=
  for_of recipients (λ recipient,
    let notification :=
      message_notification (user_id socket) recipient title text (new_message_id env) in
    db (Notification_save env notification) ;;;
    io_to_emit recipient (EvNotificationNew (notification_view env socket notification))).

(** [socket.on('message:private', ...)] *)
Definition message_private (env : Env) (socket : Socket) (data : Payload) : M World unit :=
  try_catch
    (if falsy (p_conversationId data) || falsy (p_content data) then
       socket_emit socket (EvError "Conversation ID and content are required")
     else
       let conversationId := str (p_conversationId data) in
       conversation ⇐ db (Conversation_findById conversationId) ;;
       match conversation with
       | None => socket_emit socket (EvError "Conversation not found")
       | Some conversation =>
         if negb (includes (participants conversation) (user_id socket)) then
           socket_emit socket
             (EvError "Not authorized to send messages to this conversation")
         else
           let message :=
             new_message env (user_id socket) (str (p_content data))
               (InConversation conversationId) (p_attachments data) in
           db (Message_save env message) ;;;
           let recipients := recipients_of (participants conversation) (user_id socket) in
           db (Conversation_save env conversationId
                 (conversation_after_send conversation (new_message_id env) recipients)) ;;;
           populated ⇐ db (populate_sender (sender message)) ;;
           io_to_emit (conversation_room conversationId)
             (EvMessageNew (new_message_id env) message populated
                (InConversation conversationId)) ;;;
           notify_recipients env socket recipients "New Message"
             (user_username socket +:+ " sent you a message")
       end)
    (λ error,
       console_error "Error handling private message:" ;;;
       socket_emit socket (EvError "Failed to send message")).

(** [socket.on('message:group', ...)] *)
Definition message_group (env : Env) (socket : Socket) (data : Payload) : M World unit :=
  try_catch
    (if falsy (p_groupId data) || falsy (p_content data) then
       socket_emit socket (EvError "Group ID and content are required")
     else
       let groupId := str (p_groupId data) in
       group ⇐ db (Group_findById groupId) ;;
       match group with
       | None => socket_emit socket (EvError "Group not found")
       | Some group =>
         if negb (includes (members group) (user_id socket)) then
           socket_emit socket (EvError "Not authorized to send messages to this group")
         else
           let message :=
             new_message env (user_id socket) (str (p_content data))
               (InGroup groupId) (p_attachments data) in
           db (Message_save env message) ;;;
           let recipients := recipients_of (members group) (user_id socket) in
           db (Group_save env groupId
                 (group_after_send group (new_message_id env) recipients)) ;;;
           populated ⇐ db (populate_sender (sender message)) ;;
           io_to_emit (group_room groupId)
             (EvMessageNew (new_message_id env) message populated (InGroup groupId)) ;;;
           notify_recipients env socket recipients ("New Message in " +:+ name group)
             (user_username socket +:+ " sent a message in " +:+ name group)
       end)
    (λ error,
       console_error "Error handling group message:" ;;;
       socket_emit socket (EvError "Failed to send message")).

(** [socket.on('typing:start', ...)] and [socket.on('typing:stop', ...)]:
    the two handlers differ in the [isTyping] flag only. *)
Definition typing (isTyping : bool) (socket : Socket) (data : Payload) : M World unit :=
  try_catch
    (if negb (falsy (p_conversationId data)) then
       let conversationId := str (p_conversationId data) in
       socket_to_emit socket (conversation_room conversationId)
         (EvTypingUpdate (user_id socket) (user_username socket) isTyping
            (InConversation conversationId))
     else if negb (falsy (p_groupId data)) then
       let groupId := str (p_groupId data) in
       socket_to_emit socket (group_room groupId)
         (EvTypingUpdate (user_id socket) (user_username socket) isTyping (InGroup groupId))
     else ret tt)
    (λ error,
       console_error (if isTyping then "Error handling typing indicator:"
                      else "Error handling typing stop:")).

Definition typing_start : Socket → Payload → M World unit := typing true.
Definition typing_stop : Socket → Payload → M World unit := typing false.

(** [!messageIds || !Array.isArray(messageIds) || messageIds.length === 0];
    [None] stands for an absent field or a value that is not an array. *)
Definition no_message_ids (x : option (list string)) : bool :=
  match x with
  | None => true
  | Some ids => bool_decide (length ids = 0)
  end.

(** [socket.on('message:read', ...)] *)
Definition message_read (socket : Socket) (data : Payload) : M World unit :=
  try_catch
    (if no_message_ids (p_messageIds data) then ret tt
     else
       let messageIds := default [] (p_messageIds data) in
       db (Message_markRead messageIds (user_id socket)) ;;;
       if negb (falsy (p_conversationId data)) then
         let conversationId := str (p_conversationId data) in
         db (Conversation_resetUnread conversationId (user_id socket)) ;;;
         io_to_emit (conversation_room conversationId)
           (EvMessageRead (user_id socket) messageIds (InConversation conversationId))
       else if negb (falsy (p_groupId data)) then
         let groupId := str (p_groupId data) in
         db (Group_resetUnread groupId (user_id socket)) ;;;
         io_to_emit (group_room groupId)
           (EvMessageRead (user_id socket) messageIds (InGroup groupId))
       else ret tt)
    (λ error, console_error "Error handling message read:").

(** ** sockets/presenceHandlers.js *)

(** [User.findById(id).populate('friends', '_id')]: the friends that still
    exist, or [None] when the user does not. *)
Definition populate_friends (id : string) : M Store (option (list string)) :=
  gets (λ st,
    (λ u, filter (λ f, is_Some (users st !! f)) (friends u)) <$> users st !! id).

(** [user.friends.forEach(friend => io.to(friend._id.toString()).emit('user:status', ...))] *)
Definition notify_friends (env : Env) (uid : string) (user : option (list string))
    (s : string) : M World unit :=
  match user with
  | None => ret tt
  | Some friends =>
    for_of friends (λ friend, io_to_emit friend (EvUserStatus uid s (now env)))
  end.

Definition valid_statuses : list string := ["online"; "offline"; "away"; "busy"].

(** [socket.on('status:change', ...)] *)
Definition status_change (env : Env) (socket : Socket) (data : Payload) : M World unit :=
  try_catch
    (match p_status data with
     | Some status =>
       if negb (includes valid_statuses status) then
         socket_emit socket (EvError "Invalid status")
       else
         db (User_updateStatus (user_id socket) status (now env)) ;;;
         user ⇐ db (populate_friends (user_id socket)) ;;
         notify_friends env (user_id socket) user status ;;;
         socket_emit socket (EvStatusUpdated status)
     | None => socket_emit socket (EvError "Invalid status")
     end)
    (λ error,
       console_error "Error handling status change:" ;;;
       socket_emit socket (EvError "Failed to update status")).

(** [User.find({ _id: { $in: userIds } }, 'status lastSeen')] folded into
    the [statusMap] object. *)
Definition status_map (st : Store) (userIds : list string) : gmap string (string * nat) :=
  (λ u, (status u, lastSeen u)) <$> filter (λ kv, kv.1 ∈ userIds) (users st).

(** [socket.on('status:get', ...)]; [None] stands for an absent field or a
    value that is not an array. *)
Definition status_get (socket : Socket) (data : Payload) : M World unit :=
  try_catch
    (match p_userIds data with
     | None => socket_emit socket (EvError "Invalid user IDs")
     | Some userIds =>
       statusMap ⇐ db (gets (λ st, status_map st userIds)) ;;
       socket_emit socket (EvStatusList statusMap)
     end)
    (λ error,
       console_error "Error fetching user statuses:" ;;;
       socket_emit socket (EvError "Failed to fetch user statuses")).

(** [socket.on('presence:ping', ...)] *)
Definition presence_ping (env : Env) (socket : Socket) : M World unit :=
  try_catch
    (db (User_updateLastSeen (user_id socket) (now env)))
    (λ error, console_error "Error updating presence ping:").

(** [socket.on('presence:history', ...)] *)
Definition presence_history (socket : Socket) (data : Payload) : M World unit :=
  try_catch
    (if falsy (p_userId data) then socket_emit socket (EvError "User ID is required")
     else
       let userId := str (p_userId data) in
       user ⇐ db (User_findById userId) ;;
       match user with
       | None => socket_emit socket (EvError "User not found")
       | Some user =>
         socket_emit socket (EvPresenceHistory userId (status user) (lastSeen user))
       end)
    (λ error,
       console_error "Error fetching presence history:" ;;;
       socket_emit socket (EvError "Failed to fetch presence history")).

(** ** sockets/socketManager.js *)

(** [socket.join(room)] *)
Definition socket_join (sid room : string) (rs : gmap string (gset string))
    : gmap string (gset string) :=
  <[ room := {[ sid ]} ∪ room_sockets rs room ]> rs.

(** Socket.IO takes a closed socket out of every room. *)
Definition leave_all (sid : string) (rs : gmap string (gset string))
    : gmap string (gset string) :=
  (λ sids, sids ∖ {[ sid ]}) <$> rs.

(** [Conversation.find({ participants: uid, isActive: true })], as ids *)
Definition active_conversations_of (st : Store) (uid : string) : gset string :=
  dom (filter (λ kv, uid ∈ participants kv.2 ∧ c_isActive kv.2 = true) (conversations st)).
(** [Group.find({ members: uid, isActive: true })], as ids *)
Definition active_groups_of (st : Store) (uid : string) : gset string :=
  dom (filter (λ kv, uid ∈ members kv.2 ∧ isActive kv.2 = true) (groups st)).

Definition join_each (sid : string) (mk_room : string → string) (ids : gset string)
    (rs : gmap string (gset string)) : gmap string (gset string) :=
  set_fold (λ id acc, socket_join sid (mk_room id) acc) rs ids.

(** The [userSockets] bookkeeping of the connection handler:
    [if (!userSockets.has(uid)) userSockets.set(uid, new Set());
     userSockets.get(uid).add(sid)] *)
Definition userSockets_add (uid sid : string) (m : gmap string (gset string))
    : gmap string (gset string) :=
  let m1 := match m !! uid with
            | None => <[ uid := ∅ ]> m
            | Some _ => m
            end in
  alter (λ sids, sids ∪ {[ sid ]}) uid m1.

(** [io.on('connection', ...)] up to the registration of the handlers. *)
Definition connection (env : Env) (socket : Socket) : M World unit :=
  let uid := user_id socket in
  let sid := socket_id socket in
  modify (set_rooms (socket_join sid uid)) ;;;
  modify (set_userSockets (userSockets_add uid sid)) ;;;
  db (User_updateStatus uid "online" (now env)) ;;;
  user ⇐ db (populate_friends uid) ;;
  notify_friends env uid user "online" ;;;
  cs ⇐ db (gets (λ st, active_conversations_of st uid)) ;;
  modify (set_rooms (join_each sid conversation_room cs)) ;;;
  gs ⇐ db (gets (λ st, active_groups_of st uid)) ;;
  modify (set_rooms (join_each sid group_room gs)) ;;;
  modify (set_closures (insert sid (socket, user))).

(** [socket.on('disconnect', ...)], with [user] the document captured by
    the connection handler. The handler has no [try]: nothing in it throws
    in this model. *)
Definition disconnect_handler (env : Env) (socket : Socket) (user : option (list string))
    : M World unit :=
  let uid := user_id socket in
  let sid := socket_id socket in
  sockets ⇐ gets (λ w, userSockets w !! uid) ;;
  match sockets with
  | None => ret tt
  | Some sids =>
    let sids' := sids ∖ {[ sid ]} in
    modify (set_userSockets (insert uid sids')) ;;;
    if bool_decide (size sids' = 0) then
      modify (set_userSockets (delete uid)) ;;;
      db (User_updateStatus uid "offline" (now env)) ;;;
      notify_friends env uid user "offline"
    else ret tt
  end.

(** The socket with id [sid] closes: Socket.IO empties its rooms, then
    runs the disconnect handler registered for it, if there is one. *)
Definition disconnect (env : Env) (sid : string) : M World unit :=
  modify (set_rooms (leave_all sid)) ;;;
  closure ⇐ gets (λ w, closures w !! sid) ;;
  match closure with
  | None => ret tt
  | Some (socket, user) =>
    modify (set_closures (delete sid)) ;;;
    disconnect_handler env socket user
  end.

(** Inbound traffic of one socket. *)
Inductive Inbound :=
| MessagePrivate (data : Payload)
| MessageGroup (data : Payload)
| TypingStart (data : Payload)
| TypingStop (data : Payload)
| MessageRead (data : Payload)
| StatusChange (data : Payload)
| StatusGet (data : Payload)
| PresencePing
| PresenceHistory (data : Payload).

Definition on (env : Env) (socket : Socket) (ev : Inbound) : M World unit :=
  match ev with
  | MessagePrivate data => message_private env socket data
  | MessageGroup data => message_group env socket data
  | TypingStart data => typing_start socket data
  | TypingStop data => typing_stop socket data
  | MessageRead data => message_read socket data
  | StatusChange data => status_change env socket data
  | StatusGet data => status_get socket data
  | PresencePing => presence_ping env socket
  | PresenceHistory data => presence_history socket data
  end.

(** What happens at the server, one step at a time. *)
Inductive Step :=
| Connection (socket : Socket)
| Disconnect (sid : string)
| On (socket : Socket) (ev : Inbound).

Definition step (env : Env) (s : Step) : M World unit :=
  match s with
  | Connection socket => connection env socket
  | Disconnect sid => disconnect env sid
  | On socket ev => on env socket ev
  end.

(** Run a handler to its end; an exception leaving a handler is dropped by
    the event loop. *)
Definition exec {A} (m : M World A) (w : World) : World := (m w).2.

(** A run of the server: each step has its own environment. *)
Definition run (trace : list (Env * Step)) (w : World) : World :=
  foldl (λ w es, exec (step es.1 es.2) w) w trace.

(** The server right after [socketManager(io)]: nobody is connected. *)
Definition boot (st : Store) : World :=
  {| store := st; rooms := ∅; userSockets := ∅; closures := ∅; outbox := [];
     console := [] |}.

(** ** HTTP layer (middlewares/errorHandler.js) *)

Inductive Body :=
| BodyMessage (id : string) (m : Message) (populated_sender : option (string * string))
| BodyText (message : string)
| BodyError (message : string).

Record Response := {
  res_status : nat;
  res_success : bool;
  res_body : Body
}.

(** [req.user], [req.params.id] and [req.body]. *)
Record Request := {
  req_user : string;
  req_params_id : string;
  req_body : Payload
}.

(** [errorHandler]: [err.statusCode || 500], [err.message || 'Internal Server Error'] *)
Definition errorHandler (e : Exn) : Response :=
  let '(message, statusCode) :=
    match e with
    | ApiError m c => (m, if bool_decide (c = 0) then 500 else c)
    | OtherError m => (m, 500)
    end in
  {| res_status := statusCode; res_success := false;
     res_body := BodyError (if bool_decide (message = "") then "Internal Server Error"
                            else message) |}.

(** [asyncHandler(fn)]: a rejection goes to [errorHandler]. *)
Definition asyncHandler (fn : Request → M Store Response) (req : Request) (st : Store)
    : Response * Store :=
  match fn req st with
  | (Ok res, st') => (res, st')
  | (Throw e, st') => (errorHandler e, st')
  end.

(** ** controllers/messageController.js *)

(** Reading [sender.username] of a [null] document inside the loop. *)
Definition username_of (sender : option User) : M Store string :=
  match sender with
  | Some u => ret (username u)
  | None => throw (OtherError "Cannot read properties of null (reading 'username')")
  end.

(** The notification loop shared in shape by the two branches of
    [sendMessage]: [sender.username] is read in each round. *)
Definition create_notifications (env : Env) (me : string) (sender : option User)
    (recipients : list string) (title : string) (text : string → string) : M Store unit :=
  for_of recipients (λ recipient,
    who ⇐ username_of sender ;;
    Notification_save env
      (message_notification me recipient title (text who) (new_message_id env))).

Definition sendMessage_fn (env : Env) (req : Request) : M Store Response :=
  let body := req_body req in
  let conversationId := p_conversationId body in
  let groupId := p_groupId body in
  if (negb (falsy conversationId) && negb (falsy groupId))
     || (falsy conversationId && falsy groupId) then
    throw (ApiError "Please provide either a conversation ID or a group ID" 400)
  else
    target ⇐
      (if negb (falsy conversationId) then
         conversation ⇐ Conversation_findById (str conversationId) ;;
         match conversation with
         | None => throw (ApiError "Conversation not found" 404)
         | Some conversation =>
           if negb (includes (participants conversation) (req_user req)) then
             throw (ApiError "You are not part of this conversation" 403)
           else ret (InConversation (str conversationId),
                     recipients_of (participants conversation) (req_user req))
         end
       else
         group ⇐ Group_findById (str groupId) ;;
         match group with
         | None => throw (ApiError "Group not found" 404)
         | Some group =>
           if negb (includes (members group) (req_user req)) then
             throw (ApiError "You are not a member of this group" 403)
           else ret (InGroup (str groupId),
                     recipients_of (members group) (req_user req))
         end) ;;
    let '(room, recipients) := target in
    let message :=
      new_message env (req_user req) (str (p_content body)) room (p_attachments body) in
    Message_save env message ;;;
    populated ⇐ populate_sender (sender message) ;;
    (match room with
     | InConversation id =>
       conversation ⇐ Conversation_findById id ;;
       match conversation with
       | None =>
         throw (OtherError "Cannot set properties of null (setting 'lastMessage')")
       | Some conversation =>
         Conversation_save env id
           (conversation_after_send conversation (new_message_id env) recipients) ;;;
         sender ⇐ User_findById (req_user req) ;;
         create_notifications env (req_user req) sender recipients "New Message"
           (λ who, who +:+ " sent you a message")
       end
     | InGroup id =>
       group ⇐ Group_findById id ;;
       match group with
       | None =>
         throw (OtherError "Cannot set properties of null (setting 'lastMessage')")
       | Some group =>
         Group_save env id (group_after_send group (new_message_id env) recipients) ;;;
         sender ⇐ User_findById (req_user req) ;;
         create_notifications env (req_user req) sender recipients
           ("New Message in " +:+ name group)
           (λ who, who +:+ " sent a message in " +:+ name group)
       end
     end) ;;;
    ret {| res_status := 201; res_success := true;
           res_body := BodyMessage (new_message_id env) message populated |}.

Definition sendMessage (env : Env) : Request → Store → Response * Store :=
  asyncHandler (sendMessage_fn env).



(** ** controllers/groupController.js *)

Definition group_promote_owner (newAdminId : string) (g : Group) : Group :=
  {| name := name g; creator := newAdminId; members := members g;
     admins := admins g ++ [newAdminId]; lastMessage := lastMessage g;
     unreadCount := unreadCount g; isActive := isActive g |}.
Definition group_set_members (ms : list string) (g : Group) : Group :=
  {| name := name g; creator := creator g; members := ms; admins := admins g;
     lastMessage := lastMessage g; unreadCount := unreadCount g; isActive := isActive g |}.
Definition group_set_admins (ads : list string) (g : Group) : Group :=
  {| name := name g; creator := creator g; members := members g; admins := ads;
     lastMessage := lastMessage g; unreadCount := unreadCount g; isActive := isActive g |}.
Definition group_set_isActive (b : bool) (g : Group) : Group :=
  {| name := name g; creator := creator g; members := members g; admins := admins g;
     lastMessage := lastMessage g; unreadCount := unreadCount g; isActive := b |}.

(** [group.members.find(member => member.toString() !== me)] *)
Definition find_other (me : string) (ids : list string) : option string :=
  List.find (λ member, negb (bool_decide (member = me))) ids.

(** The in-memory edits of [leaveGroup] between the membership check and
    [group.save()]. [None] is the case where [find] returned [undefined]
    and was assigned to the required [creator] path, which [save] rejects. *)
Definition leave_edits (me : string) (group : Group) : option Group :=
  let isCreator := bool_decide (creator group = me) in
  let isOnlyAdmin :=
    bool_decide (length (admins group) = 1) && bool_decide (admins group !! 0 = Some me) in
  g1 ← (if isCreator && (isOnlyAdmin && bool_decide (1 < length (members group))) then
          (λ newAdminId, group_promote_owner newAdminId group)
            <$> find_other me (members group)
        else Some group);
  let g2 := group_set_members (filter (λ member, member ≠ me) (members g1)) g1 in
  let g3 := if includes (admins g2) me
            then group_set_admins (filter (λ admin, admin ≠ me) (admins g2)) g2
            else g2 in
  let g4 := if bool_decide (length (members g3) = 0) then group_set_isActive false g3
            else g3 in
  Some g4.

Definition leaveGroup_fn (env : Env) (req : Request) : M Store Response :=
  let id := req_params_id req in
  group ⇐ Group_findById id ;;
  match group with
  | None => throw (ApiError "Group not found" 404)
  | Some group =>
    if negb (includes (members group) (req_user req)) then
      throw (ApiError "You are not a member of this group" 400)
    else
      match leave_edits (req_user req) group with
      | None => throw (OtherError "Creator is required")
      | Some group' =>
        Group_save env id group' ;;;
        ret {| res_status := 200; res_success := true;
               res_body := BodyText "You have left the group successfully" |}
      end
  end.

Definition leaveGroup (env : Env) : Request → Store → Response * Store :=
  asyncHandler (leaveGroup_fn env).

(** ** Observations used by the statements *)

(** A state component [f] that a computation leaves as it found it,
    whether it returns or throws. *)
Definition keeps {S X A} (f : S → X) (m : M S A) : Prop :=
  ∀ s, f (m s).2 = f s.

(** The members (participants) of a room, when the room exists. *)
Definition room_members (st : Store) (room : RoomRef) : option (list string) :=
  match room with
  | InConversation id => participants <$> conversations st !! id
  | InGroup id => members <$> groups st !! id
  end.

(** The [lastMessage] reference of a room, if the room has one. *)
Definition room_lastMessage (st : Store) (room : RoomRef) : option string :=
  match room with
  | InConversation id => conversations st !! id ≫= c_lastMessage
  | InGroup id => groups st !! id ≫= lastMessage
  end.

(** [unreadCount.get(uid) || 0] of a room, [0] for a room that is absent. *)
Definition room_unread (st : Store) (room : RoomRef) (uid : string) : nat :=
  match room with
  | InConversation id =>
    from_option (λ c, unread (c_unreadCount c) uid) 0 (conversations st !! id)
  | InGroup id =>
    from_option (λ g, unread (unreadCount g) uid) 0 (groups st !! id)
  end.

(** The schema's admin hook lets this room be saved. *)
Definition room_saves (st : Store) (room : RoomRef) : Prop :=
  match room with
  | InConversation _ => True
  | InGroup id => ∀ g, groups st !! id = Some g → admins g ≠ []
  end.

(** The payload names this room, by a non-empty id. *)
Definition names_room (data : Payload) (room : RoomRef) : Prop :=
  match room with
  | InConversation id => p_conversationId data = Some id ∧ id ≠ ""
  | InGroup id => p_groupId data = Some id ∧ id ≠ ""
  end.

(** The payload names this room and no room of the other kind, as
    [sendMessage] requires. *)
Definition names_only (data : Payload) (room : RoomRef) : Prop :=
  names_room data room ∧
  match room with
  | InConversation _ => falsy (p_groupId data) = true
  | InGroup _ => falsy (p_conversationId data) = true
  end.

(** The socket event that sends into a room of this kind. *)
Definition send_event (room : RoomRef) (data : Payload) : Inbound :=
  match room with
  | InConversation _ => MessagePrivate data
  | InGroup _ => MessageGroup data
  end.

(** What a send leaves in the room: as last message the id of the new
    message, which is stored with [me] as sender, one more unread message
    for every other member, the sender's counter as it was. *)
Definition room_updated (env : Env) (room : RoomRef) (me : string) (ids : list string)
    (before after : Store) : Prop :=
  room_lastMessage after room = Some (new_message_id env) ∧
  sender <$> messages after !! new_message_id env = Some me ∧
  (∀ r, r ∈ ids → r ≠ me → room_unread after room r = room_unread before room r + 1) ∧
  room_unread after room me = room_unread before room me.

(** The [catch] blocks of the two send handlers. *)
Definition send_catch (socket : Socket) (line : string) (error : Exn) : M World unit :=
  console_error line ;;; socket_emit socket (EvError "Failed to send message").

(** The line the [catch] of a send handler logs. *)
Definition send_log (room : RoomRef) : string :=
  match room with
  | InConversation _ => "Error handling private message:"
  | InGroup _ => "Error handling group message:"
  end.

(** The store once the new message and the edited room document are saved. *)
Definition conversation_sent (env : Env) (id : string) (conv : Conversation)
    (message : Message) (me : string) (st : Store) : Store :=
  set_conversations
    (insert id (conversation_after_send conv (new_message_id env)
                  (recipients_of (participants conv) me)))
    (set_messages (insert (new_message_id env) message) st).
Definition group_sent (env : Env) (id : string) (g : Group) (message : Message)
    (me : string) (st : Store) : Store :=
  set_groups
    (insert id (group_after_send g (new_message_id env) (recipients_of (members g) me)))
    (set_messages (insert (new_message_id env) message) st).

(** The [message:new] emit of a send. *)
Definition message_new (env : Env) (room : RoomRef) (message : Message) (st : Store)
    : Emit :=
  IoTo (room_name room)
    (EvMessageNew (new_message_id env) message
       ((λ u, (username u, avatar u)) <$> users st !! sender message) room).

(** The world of a socket send right before its notification loop. *)
Definition delivered (st' : Store) (a : Emit) (w : World) : World :=
  push_outbox a (set_store (λ _, st') w).

(** The room a [typing:*] or [message:read] payload refers to: the
    conversation when [conversationId] is set, else the group. *)
Definition named_room (data : Payload) : option RoomRef :=
  if negb (falsy (p_conversationId data)) then
    Some (InConversation (str (p_conversationId data)))
  else if negb (falsy (p_groupId data)) then Some (InGroup (str (p_groupId data)))
  else None.

(** The live sockets of a user, as [userSockets] has them. *)
Definition sockets_of (w : World) (uid : string) : gset string :=
  default ∅ (userSockets w !! uid).

(** The emits a computation adds to the outbox. *)
Definition emitted {A} (m : M World A) (w : World) : list Emit :=
  drop (length (outbox w)) (outbox (exec m w)).

(** ** Error events *)

Definition is_error (a : Emit) : bool :=
  match emitted_event a with
  | EvError _ => true
  | _ => false
  end.

(** How many [error] events a list of emits holds. *)
Definition errors (l : list Emit) : nat := length (filter (λ a, is_error a = true) l).

(** An inbound event fails validation, authorization or lookup: the guards
    of its handler, in the handler's order. For [typing:*] the only
    malformed payload is one that names no room, and [message:read]
    has the one guard on [messageIds]. *)
Definition rejected (st : Store) (socket : Socket) (ev : Inbound) : bool :=
  match ev with
  | MessagePrivate data =>
    falsy (p_conversationId data) || falsy (p_content data) ||
    match conversations st !! str (p_conversationId data) with
    | None => true
    | Some c => negb (includes (participants c) (user_id socket))
    end
  | MessageGroup data =>
    falsy (p_groupId data) || falsy (p_content data) ||
    match groups st !! str (p_groupId data) with
    | None => true
    | Some g => negb (includes (members g) (user_id socket))
    end
  | TypingStart data | TypingStop data =>
    falsy (p_conversationId data) && falsy (p_groupId data)
  | MessageRead data => no_message_ids (p_messageIds data)
  | StatusChange data =>
    match p_status data with
    | None => true
    | Some s => negb (includes valid_statuses s)
    end
  | StatusGet data =>
    match p_userIds data with
    | None => true
    | Some _ => false
    end
  | PresencePing => false
  | PresenceHistory data =>
    falsy (p_userId data) ||
    match users st !! str (p_userId data) with
    | None => true
    | Some _ => false
    end
  end.

(** The events whose handlers answer a failure with an [error] event; the
    handlers of the others only log. *)
Definition reports_errors (ev : Inbound) : bool :=
  match ev with
  | MessagePrivate _ | MessageGroup _ | StatusChange _ | StatusGet _
  | PresenceHistory _ => true
  | TypingStart _ | TypingStop _ | MessageRead _ | PresencePing => false
  end.

(** [m] only adds emits, none of them an [error]. *)
Definition quiet {A} (m : M World A) : Prop :=
  ∀ w, ∃ new, outbox (m w).2 = outbox w ++ new ∧ errors new = 0.

(** [m] only adds emits; an [error] among them is the last thing [m] does:
    one [socket.emit('error')] on [sid], after which [m] returns. *)
Definition reports {A} (sid : string) (m : M World A) : Prop :=
  ∀ w, ∃ new, outbox (m w).2 = outbox w ++ new ∧
    (errors new = 0 ∨
     ∃ pre msg a, new = pre ++ [SocketEmit sid (EvError msg)] ∧ errors pre = 0 ∧
                  (m w).1 = Ok a).

(** [m] only adds emits, with at most one [error] among them, and that
    one sent with [socket.emit] on [sid]. *)
Definition tidy {A} (sid : string) (m : M World A) : Prop :=
  ∀ w, ∃ new, outbox (m w).2 = outbox w ++ new ∧ errors new ≤ 1 ∧
    ∀ a, a ∈ new → is_error a = true → ∃ msg, a = SocketEmit sid (EvError msg).

(** ** Live connections *)







(** The [user:status] emits of one pass over the friends of [user]. *)
Definition status_broadcast (env : Env) (uid : string) (user : option (list string))
    (s : string) : list Emit :=
  (λ friend, IoTo friend (EvUserStatus uid s (now env))) <$> default [] user.

(** The world after these emits, in order. *)
Definition push_all (l : list Emit) (w : World) : World :=
  foldl (λ w a, push_outbox a w) w l.

(** ** A small scenario

    Two users, alice ("a") and bob ("b"), friends of each other, sharing
    the conversation "c1" and the group "g1" that alice created. *)

Definition env0 : Env :=
  {| now := 7; new_message_id := "m1"; new_notification_id := λ r, "n-" +:+ r;
     message_save_rejects := false; room_save_rejects := false;
     notification_save_rejects := λ _, false |}.

Definition a_user (n : string) (fs : list string) : User :=
  {| username := n; avatar := ""; status := "offline"; lastSeen := 0; friends := fs |}.

Definition conv_ab : Conversation :=
  {| participants := ["a"; "b"]; c_lastMessage := None; c_unreadCount := ∅;
     c_isActive := true |}.

Definition group_ab : Group :=
  {| name := "team"; creator := "a"; members := ["a"; "b"]; admins := ["a"];
     lastMessage := None; unreadCount := ∅; isActive := true |}.

(** A group that everybody but alice has left. *)
Definition group_solo : Group :=
  {| name := "solo"; creator := "a"; members := ["a"]; admins := ["a"];
     lastMessage := None; unreadCount := ∅; isActive := true |}.

Definition st0 : Store :=
  {| users := {[ "a" := a_user "alice" ["b"]; "b" := a_user "bob" ["a"] ]};
     conversations := {[ "c1" := conv_ab ]};
     groups := {[ "g1" := group_ab; "g2" := group_solo ]};
     messages := ∅; notifications := ∅ |}.

Definition socket_a1 : Socket :=
  {| socket_id := "s1"; user_id := "a"; user_username := "alice"; user_avatar := "" |}.
Definition socket_a2 : Socket :=
  {| socket_id := "s2"; user_id := "a"; user_username := "alice"; user_avatar := "" |}.
Definition socket_b1 : Socket :=
  {| socket_id := "s3"; user_id := "b"; user_username := "bob"; user_avatar := "" |}.

Definition no_data : Payload :=
  {| p_conversationId := None; p_groupId := None; p_content := None;
     p_attachments := None; p_messageIds := None; p_status := None;
     p_userIds := None; p_userId := None |}.

Definition hi_c1 : Payload :=
  {| p_conversationId := Some "c1"; p_groupId := None; p_content := Some "hi";
     p_attachments := None; p_messageIds := None; p_status := None;
     p_userIds := None; p_userId := None |}.

Definition hi_g1 : Payload :=
  {| p_conversationId := None; p_groupId := Some "g1"; p_content := Some "hi";
     p_attachments := None; p_messageIds := None; p_status := None;
     p_userIds := None; p_userId := None |}.

Definition request (uid id : string) (body : Payload) : Request :=
  {| req_user := uid; req_params_id := id; req_body := body |}.


Definition in_c1 : Payload :=
  {| p_conversationId := Some "c1"; p_groupId := None; p_content := None;
     p_attachments := None; p_messageIds := None; p_status := None;
     p_userIds := None; p_userId := None |}.

(** Alice on two devices and bob on one, all connected. *)
Definition w_online : World :=
  run [(env0, Connection socket_a1); (env0, Connection socket_a2);
       (env0, Connection socket_b1)] (boot st0).

Definition hi_g2 : Payload :=
  {| p_conversationId := None; p_groupId := Some "g2"; p_content := Some "hi";
     p_attachments := None; p_messageIds := None; p_status := None;
     p_userIds := None; p_userId := None |}.

(** An environment in which no notification can be saved. *)
Definition env_no_notifications : Env :=
  {| now := 7; new_message_id := "m1"; new_notification_id := λ r, "n-" +:+ r;
     message_save_rejects := false; room_save_rejects := false;
     notification_save_rejects := λ _, true |}.

(** A group created by "x", with alice promoted to admin next to "x". *)
Definition group_team : Group :=
  {| name := "crew"; creator := "x"; members := ["x"; "a"; "b"]; admins := ["x"; "a"];
     lastMessage := None; unreadCount := ∅; isActive := true |}.

Definition st_team : Store :=
  {| users := {[ "a" := a_user "alice" []; "b" := a_user "bob" [];
                 "x" := a_user "xena" [] ]};
     conversations := ∅; groups := {[ "g3" := group_team ]};
     messages := ∅; notifications := ∅ |}.

(** The same store once "x" has left the group through [leaveGroup]. *)
Definition st_team_without_x : Store :=
  (leaveGroup env0 (request "x" "g3" no_data) st_team).2.


(** A request on a group or a message, with nothing in its body. *)
Definition on_id (uid id : string) : Request := request uid id no_data.

(** A message of alice in the conversation, read by her only, and the
    store that holds it. *)
Definition hello_c1 : Message :=
  {| sender := "a"; content := "hello"; conversation := Some "c1"; group := None;
     readBy := ["a"]; attachments := []; isDeleted := false; createdAt := 5 |}.

Definition st_hello : Store := set_messages (insert "m1" hello_c1) st0.


(** Payloads of the presence events. *)
Definition set_status (s : string) : Payload :=
  {| p_conversationId := None; p_groupId := None; p_content := None;
     p_attachments := None; p_messageIds := None; p_status := Some s;
     p_userIds := None; p_userId := None |}.
Definition ask_user (uid : string) : Payload :=
  {| p_conversationId := None; p_groupId := None; p_content := None;
     p_attachments := None; p_messageIds := None; p_status := None;
     p_userIds := None; p_userId := Some uid |}.
Definition ask_users (ids : list string) : Payload :=
  {| p_conversationId := None; p_groupId := None; p_content := None;
     p_attachments := None; p_messageIds := None; p_status := None;
     p_userIds := Some ids; p_userId := None |}.

(** The store before alice and bob have talked. *)
Definition st_strangers : Store := set_conversations (λ _, ∅) st0.

(** The conversation alice opens with bob. *)
Definition conv_new_ab : Conversation :=
  {| participants := ["a"; "b"]; c_lastMessage := None; c_unreadCount := {[ "b" := 0 ]};
     c_isActive := true |}.

(** ** controllers/groupController.js, the membership operations

    [req.params.userId], [req.user.username] and the fields of [req.body]
    that [Payload] does not have are explicit arguments. *)

Definition ok_text (message : string) : Response :=
  {| res_status := 200; res_success := true; res_body := BodyText message |}.

(** [removeMember]: [userId] is [req.params.userId]. *)
Definition removeMember_fn (env : Env) (userId : string) (req : Request)
    : M Store Response :=
  let id := req_params_id req in
  group ⇐ Group_findById id ;;
  match group with
  | None => throw (ApiError "Group not found" 404)
  | Some group =>
    if negb (includes (members group) userId) then
      throw (ApiError "User is not a member of this group" 400)
    else
      let isAdmin := includes (admins group) (req_user req) in
      let isSelf := bool_decide (req_user req = userId) in
      if negb isAdmin && negb isSelf then
        throw (ApiError "You do not have permission to remove this member" 403)
      else
        let isCreator := bool_decide (creator group = userId) in
        if isCreator && negb isSelf then
          throw (ApiError "The group creator cannot be removed" 403)
        else
          let isLastAdmin :=
            isAdmin && bool_decide (length (admins group) = 1)
            && bool_decide (admins group !! 0 = Some userId) in
          if isLastAdmin && bool_decide (1 < length (members group)) then
            throw (ApiError "Cannot remove the last admin. Assign a new admin first" 400)
          else
            let g1 :=
              group_set_members (filter (λ member, member ≠ userId) (members group))
                group in
            let g2 := if includes (admins g1) userId
                      then group_set_admins
                             (filter (λ admin, admin ≠ userId) (admins g1)) g1
                      else g1 in
            let g3 := if bool_decide (length (members g2) = 0)
                      then group_set_isActive false g2 else g2 in
            Group_save env id g3 ;;;
            ret (ok_text "Member removed successfully")
  end.

Definition removeMember (env : Env) (userId : string)
    : Request → Store → Response * Store :=
  asyncHandler (removeMember_fn env userId).

(** [makeAdmin] *)
Definition makeAdmin_fn (env : Env) (userId : string) (req : Request)
    : M Store Response :=
  let id := req_params_id req in
  group ⇐ Group_findById id ;;
  match group with
  | None => throw (ApiError "Group not found" 404)
  | Some group =>
    if includes (admins group) userId then
      throw (ApiError "User is already an admin" 400)
    else if negb (includes (admins group) (req_user req)) then
      throw (ApiError "Only admins can promote members to admin" 403)
    else if negb (includes (members group) userId) then
      throw (ApiError "User is not a member of this group" 400)
    else
      Group_save env id (group_set_admins (admins group ++ [userId]) group) ;;;
      ret (ok_text "User promoted to admin successfully")
  end.

Definition makeAdmin (env : Env) (userId : string)
    : Request → Store → Response * Store :=
  asyncHandler (makeAdmin_fn env userId).

(** [removeAdmin] *)
Definition removeAdmin_fn (env : Env) (userId : string) (req : Request)
    : M Store Response :=
  let id := req_params_id req in
  group ⇐ Group_findById id ;;
  match group with
  | None => throw (ApiError "Group not found" 404)
  | Some group =>
    if negb (includes (admins group) (req_user req)) then
      throw (ApiError "Only admins can demote other admins" 403)
    else if bool_decide (creator group = userId) then
      throw (ApiError "The group creator cannot be demoted" 403)
    else if negb (includes (admins group) userId) then
      throw (ApiError "User is not an admin" 400)
    else if bool_decide (req_user req = userId) then
      throw (ApiError "You cannot demote yourself" 400)
    else
      Group_save env id
        (group_set_admins (filter (λ admin, admin ≠ userId) (admins group)) group) ;;;
      ret (ok_text "Admin status removed successfully")
  end.

Definition removeAdmin (env : Env) (userId : string)
    : Request → Store → Response * Store :=
  asyncHandler (removeAdmin_fn env userId).

(** [deleteGroup]: a soft delete. *)
Definition deleteGroup_fn (env : Env) (req : Request) : M Store Response :=
  let id := req_params_id req in
  group ⇐ Group_findById id ;;
  match group with
  | None => throw (ApiError "Group not found" 404)
  | Some group =>
    if negb (bool_decide (creator group = req_user req)) then
      throw (ApiError "Only the group creator can delete the group" 403)
    else
      Group_save env id (group_set_isActive false group) ;;;
      ret (ok_text "Group deleted successfully")
  end.

Definition deleteGroup (env : Env) : Request → Store → Response * Store :=
  asyncHandler (deleteGroup_fn env).

(** [User.countDocuments({ _id: { $in: ids } })] and the length of
    [User.find({ _id: { $in: ids } })]: the users whose id is listed. *)
Definition count_users (st : Store) (ids : list string) : nat :=
  size (dom (users st) ∩ list_to_set ids : gset string).

(** The double quote character of the notification texts. *)
Definition dquote : string := String (Ascii.ascii_of_nat 34) EmptyString.

(** [new Notification({ ..., type: 'group_invitation', title: 'New Group
    Invitation', content: `${username} added you to the group "${name}"`,
    relatedTo: { model: 'Group', id } })] *)
Definition invitation (from to_ from_name group_name gid : string) : Notification :=
  {| recipient := to_; n_sender := from; n_type := "group_invitation";
     n_title := "New Group Invitation";
     n_content := from_name +:+ " added you to the group " +:+ dquote +:+ group_name
                  +:+ dquote;
     relatedTo := ("Group", gid) |}.

(** [for (const memberId of ids) await Notification.create(...)] *)
Definition invite_all (env : Env) (me username : string) (ids : list string)
    (group_name gid : string) : M Store unit :=
  for_of ids (λ memberId,
    Notification_save env (invitation me memberId username group_name gid)).

(** A group document with [creator], [members] and [admins] populated:
    the documents that exist, with the selected fields. *)
Record GroupView := {
  gv_id : string;
  gv_group : Group;
  gv_creator : option (string * string);
  gv_members : list (string * (string * string * string));
  gv_admins : list (string * (string * string))
}.

(** The ids of [ids] whose user exists, each with the selected fields. *)
Definition populate_ids {A} (select : User → A) (st : Store) (ids : list string)
    : list (string * A) :=
  omap (λ id, (λ u, (id, select u)) <$> users st !! id) ids.

Definition populate_group (gid : string) (g : Group) : M Store GroupView :=
  gets (λ st,
    {| gv_id := gid; gv_group := g;
       gv_creator := (λ u, (username u, avatar u)) <$> users st !! creator g;
       gv_members := populate_ids (λ u, (username u, avatar u, status u)) st (members g);
       gv_admins := populate_ids (λ u, (username u, avatar u)) st (admins g) |}).

(** [members.filter(member => !group.members.includes(member))] *)
Definition not_yet_members (group : Group) (ids : list string) : list string :=
  filter (λ member, negb (includes (members group) member) = true) ids.

(** [addMembers] after [group.save()]: the invitations, the populated
    group and the answer. *)
Definition addMembers_tail (env : Env) (me username id : string) (group' : Group)
    (newMembers : list string) : M Store (nat * GroupView) :=
  invite_all env me username newMembers (name group') id ;;;
  view ⇐ populate_group id group' ;;
  ret (length newMembers, view).

(** [addMembers]: [username] is [req.user.username], [new_members] is
    [req.body.members] ([None] for an absent field or a value that is not
    an array). It answers with the number of members added and the
    populated group. *)
Definition addMembers_fn (env : Env) (username : string)
    (new_members : option (list string)) (req : Request) : M Store (nat * GroupView) :=
  match new_members with
  | None => throw (ApiError "Please provide an array of member IDs" 400)
  | Some ids =>
    if bool_decide (length ids = 0) then
      throw (ApiError "Please provide an array of member IDs" 400)
    else
      let id := req_params_id req in
      group ⇐ Group_findById id ;;
      match group with
      | None => throw (ApiError "Group not found" 404)
      | Some group =>
        if negb (includes (admins group) (req_user req)) then
          throw (ApiError "Only group admins can add members" 403)
        else
          found ⇐ gets (λ st, count_users st ids) ;;
          if negb (bool_decide (found = length ids)) then
            throw (ApiError "One or more users are invalid" 400)
          else
            let newMembers := not_yet_members group ids in
            if bool_decide (length newMembers = 0) then
              throw (ApiError "All specified users are already members of this group" 400)
            else
              let group' := group_set_members (members group ++ newMembers) group in
              Group_save env id group' ;;;
              addMembers_tail env (req_user req) username id group' newMembers
      end
  end.

(** An asynchronous handler that answers with data: the error response of
    [errorHandler], or the data of a success. *)
Definition asyncHandlerOf {A} (fn : Request → M Store A) (req : Request) (st : Store)
    : (Response + A) * Store :=
  match fn req st with
  | (Ok a, st') => (inr a, st')
  | (Throw e, st') => (inl (errorHandler e), st')
  end.

Definition addMembers (env : Env) (username : string) (new_members : option (list string))
    : Request → Store → (Response + nat * GroupView) * Store :=
  asyncHandlerOf (addMembers_fn env username new_members).

(** [[...new Set(ids)]]: the first occurrence of each id, in order. *)
Fixpoint unique_from (seen : list string) (ids : list string) : list string :=
  match ids with
  | [] => []
  | id :: ids' =>
    if bool_decide (id ∈ seen) then unique_from seen ids'
    else id :: unique_from (id :: seen) ids'
  end.
Definition unique (ids : list string) : list string := unique_from [] ids.

(** [members ? [...new Set([me, ...members])] : [me]] *)
Definition first_members (me : string) (new_members : option (list string))
    : list string :=
  match new_members with
  | Some ids => unique (me :: ids)
  | None => [me]
  end.

(** The two [isNew] hooks of the group schema: the creator is an admin and
    a member. *)
Definition group_new_hooks (g : Group) : Group :=
  let g1 := if includes (admins g) (creator g) then g
            else group_set_admins (admins g ++ [creator g]) g in
  if includes (members g1) (creator g1) then g1
  else group_set_members (members g1 ++ [creator g1]) g1.

(** [Group.create(doc)], [gid] being the id MongoDB gives the document. *)
Definition Group_create (env : Env) (gid : string) (g : Group) : M Store Group :=
  let g' := group_new_hooks g in
  Group_save env gid g' ;;; ret g'.

(** [createGroup] after [Group.create]: the populated group, the
    invitations to the populated members other than the creator, and the
    answer. *)
Definition createGroup_tail (env : Env) (me username gid : string) (group : Group)
    : M Store GroupView :=
  view ⇐ populate_group gid group ;;
  let membersToNotify := filter (λ member, member ≠ me) (gv_members view).*1 in
  invite_all env me username membersToNotify (name group) gid ;;;
  ret view.

(** [createGroup]: [group_name] and [new_members] are [req.body.name] and
    [req.body.members] ([None] when absent), [username] is
    [req.user.username]. *)
Definition createGroup_fn (env : Env) (gid username group_name : string)
    (new_members : option (list string)) (req : Request) : M Store GroupView :=
  let me := req_user req in
  (match new_members with
   | Some ids =>
     if bool_decide (0 < length ids) then
       memberCount ⇐ gets (λ st, count_users st ids) ;;
       if negb (bool_decide (memberCount = length ids)) then
         throw (ApiError "One or more members are invalid" 400)
       else ret tt
     else ret tt
   | None => ret tt
   end) ;;;
  group ⇐ Group_create env gid
    {| name := group_name; creator := me;
       members := first_members me new_members;
       admins := [me]; lastMessage := None; unreadCount := ∅; isActive := true |} ;;
  createGroup_tail env me username gid group.

Definition createGroup (env : Env) (gid username group_name : string)
    (new_members : option (list string))
    : Request → Store → (Response + GroupView) * Store :=
  asyncHandlerOf (createGroup_fn env gid username group_name new_members).

(** ** controllers/messageController.js, [deleteMessage] *)

(** [message.save()] of a loaded message. *)
Definition Message_update (env : Env) (id : string) (m : Message) : M Store unit :=
  if bool_decide (content m = "") then throw (OtherError "Message content is required")
  else if message_save_rejects env then throw (OtherError "Message validation failed")
  else if negb (message_hook_ok m) then
    throw (OtherError
      "Message must belong to either a conversation or a group, but not both")
  else modify (set_messages (insert id m)).

Definition message_soft_delete (m : Message) : Message :=
  {| sender := sender m; content := "This message has been deleted";
     conversation := conversation m; group := group m; readBy := readBy m;
     attachments := []; isDeleted := true; createdAt := createdAt m |}.

Definition deleteMessage_fn (env : Env) (req : Request) : M Store Response :=
  let id := req_params_id req in
  message ⇐ gets (λ st, messages st !! id) ;;
  match message with
  | None => throw (ApiError "Message not found" 404)
  | Some message =>
    if negb (bool_decide (sender message = req_user req)) then
      throw (ApiError "Not authorized to delete this message" 403)
    else
      Message_update env id (message_soft_delete message) ;;;
      ret (ok_text "Message deleted successfully")
  end.

Definition deleteMessage (env : Env) : Request → Store → Response * Store :=
  asyncHandler (deleteMessage_fn env).

(** ** controllers/messageController.js, [getMessages] *)

(** The message is in this room: the [{ [type]: id }] part of the
    queries. *)
Definition in_room (room : RoomRef) (m : Message) : bool :=
  match room with
  | InConversation id => bool_decide (conversation m = Some id)
  | InGroup id => bool_decide (group m = Some id)
  end.


(** [Message.updateMany({ [type]: id, sender: { $ne: reader },
                         readBy: { $ne: reader } },
                       { $addToSet: { readBy: reader } })] *)
Definition Message_markRoomRead (room : RoomRef) (reader : string) : M Store unit :=
  modify (set_messages (fmap (λ m,
    if in_room room m && negb (bool_decide (sender m = reader))
       && negb (includes (readBy m) reader)
    then mark_read_by reader m else m))).




(** ** controllers/conversationController.js *)

(** The filter of [createConversation]'s lookup:
    [{ participants: { $all: [a, b], $size: 2 }, isActive: true }]. *)
Definition between (a b : string) (c : Conversation) : Prop :=
  a ∈ participants c ∧ b ∈ participants c ∧ length (participants c) = 2 ∧
  c_isActive c = true.

(** [Conversation.findOne(filter)]: the first match, in the order the
    store lists its documents. *)
Definition Conversation_findOne_between (st : Store) (a b : string)
    : option (string * Conversation) :=
  head (map_to_list (filter (λ kv, between a b kv.2) (conversations st))).

(** [Conversation.create(doc)], [cid] being the id MongoDB gives the
    document, with the schema's hook on new documents. *)
Definition Conversation_create (env : Env) (cid : string) (c : Conversation)
    : M Store unit :=
  if negb (bool_decide (length (participants c) = 2)) then
    throw (OtherError "A conversation must have exactly 2 participants")
  else Conversation_save env cid c.

(** [createConversation]: [participantId] is [req.body.participantId].
    The answer is the status code with the conversation and its id; the
    populated participants of a new conversation are left out. *)
Definition createConversation_fn (env : Env) (cid participantId : string) (req : Request)
    : M Store (nat * string * Conversation) :=
  let me := req_user req in
  participant ⇐ User_findById participantId ;;
  match participant with
  | None => throw (ApiError "User not found" 404)
  | Some _ =>
    existingConversation ⇐ gets (λ st, Conversation_findOne_between st me participantId) ;;
    match existingConversation with
    | Some (id, existing) => ret (200, id, existing)
    | None =>
      let conversation :=
        {| participants := [me; participantId]; c_lastMessage := None;
           c_unreadCount := {[ participantId := 0 ]}; c_isActive := true |} in
      Conversation_create env cid conversation ;;;
      ret (201, cid, conversation)
    end
  end.

Definition createConversation (env : Env) (cid participantId : string)
    : Request → Store → (Response + nat * string * Conversation) * Store :=
  asyncHandlerOf (createConversation_fn env cid participantId).

Definition conversation_set_isActive (b : bool) (c : Conversation) : Conversation :=
  {| participants := participants c; c_lastMessage := c_lastMessage c;
     c_unreadCount := c_unreadCount c; c_isActive := b |}.

(** [deleteConversation]: a soft delete by any participant. *)
Definition deleteConversation_fn (env : Env) (req : Request) : M Store Response :=
  let id := req_params_id req in
  conversation ⇐ Conversation_findById id ;;
  match conversation with
  | None => throw (ApiError "Conversation not found" 404)
  | Some conversation =>
    if negb (includes (participants conversation) (req_user req)) then
      throw (ApiError "Not authorized to delete this conversation" 403)
    else
      Conversation_save env id (conversation_set_isActive false conversation) ;;;
      ret (ok_text "Conversation deleted successfully")
  end.

Definition deleteConversation (env : Env) : Request → Store → Response * Store :=
  asyncHandler (deleteConversation_fn env).

(** ** controllers/userController.js, [removeFriend] and [updateStatus] *)




(** [updateStatus]: [new_status] is [req.body.status]; the answer is the
    [status] of the updated document. *)
Definition updateStatus_fn (env : Env) (new_status : option string) (req : Request)
    : M Store string :=
  match new_status with
  | Some s =>
    if negb (includes valid_statuses s) then throw (ApiError "Invalid status" 400)
    else
      User_updateStatus (req_user req) s (now env) ;;;
      user ⇐ User_findById (req_user req) ;;
      match user with
      | Some user => ret (status user)
      | None => throw (OtherError "Cannot read properties of null (reading 'status')")
      end
  | None => throw (ApiError "Invalid status" 400)
  end.

Definition updateStatus (env : Env) (new_status : option string)
    : Request → Store → (Response + string) * Store :=
  asyncHandlerOf (updateStatus_fn env new_status).

(** ** utils/helpers.js *)

(** The character a one-character literal holds. *)
Definition chr (s : string) : Ascii.ascii :=
  match s with
  | String c _ => c
  | EmptyString => Ascii.zero
  end.

(** [text.replace(/c/g, by)] for a single character [c]. *)
Fixpoint replace_all (c : Ascii.ascii) (by_ : string) (text : string) : string :=
  match text with
  | EmptyString => EmptyString
  | String x rest =>
    if bool_decide (x = c) then by_ +:+ replace_all c by_ rest
    else String x (replace_all c by_ rest)
  end.

(** [sanitizeText] *)
Definition sanitizeText (text : string) : string :=
  replace_all (chr "'") "&#039;"
    (replace_all (chr dquote) "&quot;"
       (replace_all (chr ">") "&gt;"
          (replace_all (chr "<") "&lt;"
             (replace_all (chr "&") "&amp;" text)))).

(** [truncateText(text, maxLength)], for a [maxLength] that is a
    natural number. *)
Definition truncateText (text : string) (maxLength : nat) : string :=
  if bool_decide (String.length text ≤ maxLength) then text
  else String.substring 0 maxLength text +:+ "...".

(** [timeAgo], from [seconds], the value of
    [Math.floor((new Date() - new Date(date)) / 1000)]. *)
Definition timeAgo_of (seconds : Z) : string :=
  let interval := (seconds / 31536000)%Z in
  if bool_decide (1 < interval)%Z then pretty interval +:+ " years ago"
  else if bool_decide (interval = 1%Z) then "1 year ago"
  else
    let interval := (seconds / 2592000)%Z in
    if bool_decide (1 < interval)%Z then pretty interval +:+ " months ago"
    else if bool_decide (interval = 1%Z) then "1 month ago"
    else
      let interval := (seconds / 86400)%Z in
      if bool_decide (1 < interval)%Z then pretty interval +:+ " days ago"
      else if bool_decide (interval = 1%Z) then "1 day ago"
      else
        let interval := (seconds / 3600)%Z in
        if bool_decide (1 < interval)%Z then pretty interval +:+ " hours ago"
        else if bool_decide (interval = 1%Z) then "1 hour ago"
        else
          let interval := (seconds / 60)%Z in
          if bool_decide (1 < interval)%Z then pretty interval +:+ " minutes ago"
          else if bool_decide (interval = 1%Z) then "1 minute ago"
          else if bool_decide (seconds < 10)%Z then "just now"
          else pretty seconds +:+ " seconds ago".

(** [timeAgo(date)] at the time [now], both in milliseconds. *)
Definition timeAgo (now date : Z) : string := timeAgo_of ((now - date) / 1000)%Z.

(** ** Well-formed groups *)

(** A group as the controllers build it: no member and no admin listed
    twice, every admin a member, at least one admin. *)
Definition group_ok (g : Group) : Prop :=
  NoDup (members g) ∧ NoDup (admins g) ∧ admins g ⊆ members g ∧ admins g ≠ [].

Definition groups_ok (st : Store) : Prop :=
  ∀ id g, groups st !! id = Some g → group_ok g.

(** The answer [errorHandler] gives for an error with this status code
    and message. *)
Definition api_error (code : nat) (message : string) : Response :=
  {| res_status := code; res_success := false; res_body := BodyError message |}.



(** The [unreadCount] map of a room, when the room exists. *)
Definition room_unreadCount (st : Store) (room : RoomRef) : option (gmap string nat) :=
  match room with
  | InConversation id => c_unreadCount <$> conversations st !! id
  | InGroup id => unreadCount <$> groups st !! id
  end.

(** The friends of a user whose documents exist, in the order of the
    user's [friends]; none for a user that does not exist. *)
Definition existing_friends (st : Store) (uid : string) : list string :=
  default [] ((λ u, filter (λ f, is_Some (users st !! f)) (friends u)) <$> users st !! uid).

(** Everything a handler can touch besides the store and the outbox. *)
Definition tables (w : World)
    : gmap string (gset string) * gmap string (gset string)
      * gmap string (Socket * option (list string)) * list string :=
  (rooms w, userSockets w, closures w, console w).

(** No two active conversations have the same two participants. *)
Definition one_conversation_per_pair (st : Store) : Prop :=
  ∀ id1 id2 c1 c2,
    conversations st !! id1 = Some c1 → conversations st !! id2 = Some c2 →
    c_isActive c1 = true → c_isActive c2 = true →
    length (participants c1) = 2 → participants c1 ≡ₚ participants c2 →
    id1 = id2.


(** What [sanitizeText] makes of one character. *)
Definition escape (x : Ascii.ascii) : string :=
  if bool_decide (x = chr "&") then "&amp;"
  else if bool_decide (x = chr "<") then "&lt;"
  else if bool_decide (x = chr ">") then "&gt;"
  else if bool_decide (x = chr dquote) then "&quot;"
  else if bool_decide (x = chr "'") then "&#039;"
  else String x EmptyString.

Fixpoint escape_each (text : string) : string :=
  match text with
  | EmptyString => EmptyString
  | String x rest => escape x +:+ escape_each rest
  end.

(** The character occurs in the text. *)
Fixpoint occurs (c : Ascii.ascii) (text : string) : bool :=
  match text with
  | EmptyString => false
  | String x rest => bool_decide (x = c) || occurs c rest
  end.

(** What a [timeAgo] label says: nothing, or a count of a unit. *)
Inductive Elapsed :=
| JustNow
| Ago (n : Z) (unit : string).

Definition render (l : Elapsed) : string :=
  match l with
  | JustNow => "just now"
  | Ago n unit =>
    if bool_decide (n = 1%Z) then "1 " +:+ unit +:+ " ago"
    else pretty n +:+ " " +:+ unit +:+ "s ago"
  end.

(** The units of [timeAgo], largest first, with their length in seconds:
    a year of 365 days and a month of 30. *)
Definition units : list (string * Z) :=
  [("year", 31536000%Z); ("month", 2592000%Z); ("day", 86400%Z); ("hour", 3600%Z);
   ("minute", 60%Z); ("second", 1%Z)].

(** ** [getGroup] and [getConversation] *)

(** The ids of [ids] whose user exists: what is left of an array of
    references once it is populated. *)
Definition populated (st : Store) (ids : list string) : list string :=
  filter (λ id, is_Some (users st !! id)) ids.

(** [getGroup]: the document is populated, then saved with the caller's
    counter reset, so the membership check and the admin hook see the
    populated arrays. The answer is the saved document; its populated
    fields are left out. *)
Definition getGroup_fn (env : Env) (req : Request) : M Store Group :=
  let id := req_params_id req in
  let me := req_user req in
  group ⇐ Group_findById id ;;
  match group with
  | None => throw (ApiError "Group not found" 404)
  | Some group =>
    members' ⇐ gets (λ st, populated st (members group)) ;;
    admins' ⇐ gets (λ st, populated st (admins group)) ;;
    if negb (includes members' me) then
      throw (ApiError "You are not a member of this group" 403)
    else if bool_decide (length admins' = 0) then
      throw (OtherError "Group must have at least one admin")
    else
      let group' := group_reset_unread me group in
      Group_save env id group' ;;; ret group'
  end.

Definition getGroup (env : Env) : Request → Store → (Response + Group) * Store :=
  asyncHandlerOf (getGroup_fn env).

(** [getConversation], in the same way. *)
Definition getConversation_fn (env : Env) (req : Request) : M Store Conversation :=
  let id := req_params_id req in
  let me := req_user req in
  conversation ⇐ Conversation_findById id ;;
  match conversation with
  | None => throw (ApiError "Conversation not found" 404)
  | Some conversation =>
    participants' ⇐ gets (λ st, populated st (participants conversation)) ;;
    if negb (includes participants' me) then
      throw (ApiError "Not authorized to view this conversation" 403)
    else
      let conversation' := conversation_reset_unread me conversation in
      Conversation_save env id conversation' ;;; ret conversation'
  end.

Definition getConversation (env : Env)
    : Request → Store → (Response + Conversation) * Store :=
  asyncHandlerOf (getConversation_fn env).

(** * Properties *)

(** ** The monad *)

Section monad_facts.
Context {S : Type}.

Context {X : Type} (f : S → X).

Lemma keeps_ret {A} (a : A) : keeps f (ret a).
Proof. done. Qed.

Lemma keeps_throw {A} e : keeps f (@throw S A e).
Proof. done. Qed.

Lemma keeps_gets {A} (g : S → A) : keeps f (gets g).
Proof. done. Qed.

Lemma keeps_modify (g : S → S) : (∀ s, f (g s) = f s) → keeps f (modify g).
Proof. intros Hg s. apply Hg. Qed.

Lemma keeps_bind {A B} (m : M S A) (k : A → M S B) :
  keeps f m → (∀ a, keeps f (k a)) → keeps f (bind m k).
Proof.
  intros Hm Hk s. unfold bind. specialize (Hm s).
  destruct (m s) as [[a|e] s']; simpl in *; [|done].
  by rewrite Hk.
Qed.


Lemma keeps_for_of {A} (l : list A) (body : A → M S unit) :
  (∀ x, keeps f (body x)) → keeps f (for_of l body).
Proof.
  intros Hbody. induction l as [|x l IH]; simpl.
  - apply keeps_ret.
  - apply keeps_bind; auto.
Qed.

End monad_facts.

(** A handler that only cleans up in its [catch] leaves in [f] what the
    body left there. *)
Lemma try_catch_keeps {S X A} (f : S → X) (m : M S A) (h : Exn → M S A) s :
  (∀ e, keeps f (h e)) → f (try_catch m h s).2 = f (m s).2.
Proof.
  intros Hh. unfold try_catch.
  destruct (m s) as [[a|e] s']; simpl; [done|]. apply Hh.
Qed.


(** The store after a store operation run from a socket handler. *)
Lemma db_store {A} (m : M Store A) w :
  store (db m w).2 = (m (store w)).2.
Proof. unfold db. by destruct (m (store w)). Qed.

(** ** Unread counters *)

Lemma unread_bump m r x :
  unread (bump m r) x = if decide (r = x) then unread m r + 1 else unread m x.
Proof.
  unfold unread, bump. rewrite lookup_insert. by case_decide; subst.
Qed.

Lemma bump_all_other rs : ∀ m x, x ∉ rs → bump_all m rs !! x = m !! x.
Proof.
  induction rs as [|r rs IH]; intros m x Hx; simpl; [done|].
  apply not_elem_of_cons in Hx as [Hne Hx].
  rewrite IH by done. unfold bump. by rewrite lookup_insert_ne.
Qed.

Lemma bump_all_once rs : ∀ m x,
  NoDup rs → x ∈ rs → unread (bump_all m rs) x = unread m x + 1.
Proof.
  induction rs as [|r rs IH]; intros m x Hnd Hx; simpl.
  - by apply elem_of_nil in Hx.
  - apply NoDup_cons in Hnd as [Hr Hnd].
    apply elem_of_cons in Hx as [->|Hx].
    + unfold unread at 1. rewrite bump_all_other by done.
      fold (unread (bump m r) r). rewrite unread_bump. by rewrite decide_True.
    + rewrite IH by done. rewrite unread_bump.
      rewrite decide_False; [done|]. by intros ->.
Qed.

Lemma recipients_of_spec ids me r : r ∈ recipients_of ids me ↔ r ∈ ids ∧ r ≠ me.
Proof. unfold recipients_of. rewrite list_elem_of_filter. tauto. Qed.

Lemma recipients_of_NoDup ids me : NoDup ids → NoDup (recipients_of ids me).
Proof. apply NoDup_filter. Qed.

Lemma recipients_of_not_me ids me : me ∉ recipients_of ids me.
Proof. rewrite recipients_of_spec. tauto. Qed.

(** ** Sending *)

Lemma truthy_content (data : Payload) :
  p_content data ≠ None → p_content data ≠ Some "" →
  falsy (p_content data) = false ∧ str (p_content data) ≠ "".
Proof.
  destruct (p_content data) as [c|]; [|done]. intros _ Hc. simpl.
  split; [apply bool_decide_eq_false_2|]; congruence.
Qed.

Lemma has_admin_length (g : Group) :
  admins g ≠ [] → bool_decide (length (admins g) = 0) = false.
Proof. intros Had. apply bool_decide_eq_false_2. by destruct (admins g). Qed.

(** A valid private send, run up to its notification loop. *)
Lemma message_private_run env socket data w id conv :
  names_room data (InConversation id) →
  p_content data ≠ None → p_content data ≠ Some "" →
  conversations (store w) !! id = Some conv →
  user_id socket ∈ participants conv →
  message_save_rejects env = false → room_save_rejects env = false →
  let message := new_message env (user_id socket) (str (p_content data))
                   (InConversation id) (p_attachments data) in
  message_private env socket data w =
    try_catch
      (notify_recipients env socket (recipients_of (participants conv) (user_id socket))
         "New Message" (user_username socket +:+ " sent you a message"))
      (send_catch socket "Error handling private message:")
      (delivered (conversation_sent env id conv message (user_id socket) (store w))
         (message_new env (InConversation id) message (store w)) w).
Proof.
  intros [Hid Hne] Hc1 Hc2 Hconv Hin Hm Hr message.
  destruct (truthy_content data) as [Hc Hc']; [done..|].
  unfold message_private, try_catch.
  rewrite Hid, Hc. simpl. rewrite (bool_decide_eq_false_2 (id = "")) by done. simpl.
  unfold bind at 1. unfold db at 1, Conversation_findById, gets. simpl.
  rewrite Hconv. unfold includes. rewrite bool_decide_eq_true_2 by done. simpl.
  unfold bind at 1. unfold db at 1, Message_save. simpl.
  rewrite (bool_decide_eq_false_2 _ Hc'), Hm. simpl.
  unfold bind at 1. unfold db at 1, Conversation_save. rewrite Hr. simpl.
  unfold bind at 1. simpl.
  unfold bind at 1. simpl.
  reflexivity.
Qed.

(** A valid group send, run up to its notification loop. *)
Lemma message_group_run env socket data w id g :
  names_room data (InGroup id) →
  p_content data ≠ None → p_content data ≠ Some "" →
  groups (store w) !! id = Some g →
  user_id socket ∈ members g → admins g ≠ [] →
  message_save_rejects env = false → room_save_rejects env = false →
  let message := new_message env (user_id socket) (str (p_content data))
                   (InGroup id) (p_attachments data) in
  message_group env socket data w =
    try_catch
      (notify_recipients env socket (recipients_of (members g) (user_id socket))
         ("New Message in " +:+ name g)
         (user_username socket +:+ " sent a message in " +:+ name g))
      (send_catch socket "Error handling group message:")
      (delivered (group_sent env id g message (user_id socket) (store w))
         (message_new env (InGroup id) message (store w)) w).
Proof.
  intros [Hid Hne] Hc1 Hc2 Hg Hin Had Hm Hr message.
  destruct (truthy_content data) as [Hc Hc']; [done..|].
  unfold message_group, try_catch.
  rewrite Hid, Hc. simpl. rewrite (bool_decide_eq_false_2 (id = "")) by done. simpl.
  unfold bind at 1. unfold db at 1, Group_findById, gets. simpl.
  rewrite Hg. unfold includes. rewrite bool_decide_eq_true_2 by done. simpl.
  unfold bind at 1. unfold db at 1, Message_save. simpl.
  rewrite (bool_decide_eq_false_2 _ Hc'), Hm. simpl.
  unfold bind at 1. unfold db at 1, Group_save. simpl.
  rewrite has_admin_length, Hr by done. simpl.
  unfold bind at 1. simpl.
  unfold bind at 1. simpl.
  reflexivity.
Qed.

Lemma Notification_save_keeps {X} (f : Store → X) env n :
  (∀ st g, f (set_notifications g st) = f st) → keeps f (Notification_save env n).
Proof.
  intros Hf st. unfold Notification_save.
  destruct (notification_save_rejects _ _); simpl; [done|apply Hf].
Qed.

Lemma notify_recipients_keeps {X} (f : Store → X) env socket rs title text :
  (∀ st g, f (set_notifications g st) = f st) →
  keeps (λ w, f (store w)) (notify_recipients env socket rs title text).
Proof.
  intros Hf. apply keeps_for_of. intros r. apply keeps_bind.
  - intros w. rewrite db_store. by apply Notification_save_keeps.
  - intros _. by apply keeps_modify.
Qed.

(** Whatever the notification loop does, a socket send leaves in the rooms
    and messages what it saved before the loop. *)
Lemma socket_send_keeps {X} (f : Store → X) env socket rs title text line w :
  (∀ st g, f (set_notifications g st) = f st) →
  f (store (try_catch (notify_recipients env socket rs title text)
              (send_catch socket line) w).2) = f (store w).
Proof.
  intros Hf.
  rewrite (try_catch_keeps (λ w, f (store w))) by done.
  by apply (notify_recipients_keeps f).
Qed.

Lemma create_notifications_keeps {X} (f : Store → X) env me sender rs title text :
  (∀ st g, f (set_notifications g st) = f st) →
  keeps f (create_notifications env me sender rs title text).
Proof.
  intros Hf. apply keeps_for_of. intros r. apply keeps_bind.
  - by destruct sender.
  - intros who. by apply Notification_save_keeps.
Qed.

Lemma asyncHandler_store fn req st : (asyncHandler fn req st).2 = (fn req st).2.
Proof. unfold asyncHandler. by destruct (fn req st) as [[?|?] ?]. Qed.

Lemma bind_keeps_tail {S X A B} (f : S → X) (m : M S A) (k : A → M S B) s :
  (∀ a, keeps f (k a)) → f (bind m k s).2 = f (m s).2.
Proof.
  intros Hk. unfold bind. destruct (m s) as [[a|e] s']; simpl; [apply Hk|done].
Qed.

(** A valid [POST /api/messages] into a conversation, run up to its
    notification loop. *)
Lemma sendMessage_conversation_run env req st id conv :
  names_only (req_body req) (InConversation id) →
  p_content (req_body req) ≠ None → p_content (req_body req) ≠ Some "" →
  conversations st !! id = Some conv →
  req_user req ∈ participants conv →
  message_save_rejects env = false → room_save_rejects env = false →
  let message := new_message env (req_user req) (str (p_content (req_body req)))
                   (InConversation id) (p_attachments (req_body req)) in
  sendMessage_fn env req st =
    (create_notifications env (req_user req) (users st !! req_user req)
       (recipients_of (participants conv) (req_user req)) "New Message"
       (λ who, who +:+ " sent you a message") ;;;
     ret {| res_status := 201; res_success := true;
            res_body := BodyMessage (new_message_id env) message
                          ((λ u, (username u, avatar u)) <$> users st !! req_user req) |})
      (conversation_sent env id conv message (req_user req) st).
Proof.
  intros [[Hid Hne] Hg] Hc1 Hc2 Hconv Hin Hm Hr message.
  destruct (truthy_content (req_body req)) as [Hc Hc']; [done..|].
  unfold sendMessage_fn.
  simpl in Hg. rewrite Hg, Hid. simpl.
  rewrite (bool_decide_eq_false_2 (id = "")) by done. simpl.
  unfold bind at 1. unfold bind at 1. unfold Conversation_findById at 1, gets. simpl.
  rewrite Hconv. unfold includes. rewrite bool_decide_eq_true_2 by done. simpl.
  unfold bind at 1. unfold Message_save. simpl.
  rewrite (bool_decide_eq_false_2 _ Hc'), Hm. simpl.
  unfold bind at 1. simpl.
  unfold bind at 1. unfold bind at 1. simpl. rewrite Hconv.
  unfold bind at 1. unfold Conversation_save. rewrite Hr. simpl.
  unfold bind at 1. simpl.
  reflexivity.
Qed.

(** A valid [POST /api/messages] into a group, run up to its notification
    loop. *)
Lemma sendMessage_group_run env req st id g :
  names_only (req_body req) (InGroup id) →
  p_content (req_body req) ≠ None → p_content (req_body req) ≠ Some "" →
  groups st !! id = Some g →
  req_user req ∈ members g → admins g ≠ [] →
  message_save_rejects env = false → room_save_rejects env = false →
  let message := new_message env (req_user req) (str (p_content (req_body req)))
                   (InGroup id) (p_attachments (req_body req)) in
  sendMessage_fn env req st =
    (create_notifications env (req_user req) (users st !! req_user req)
       (recipients_of (members g) (req_user req)) ("New Message in " +:+ name g)
       (λ who, who +:+ " sent a message in " +:+ name g) ;;;
     ret {| res_status := 201; res_success := true;
            res_body := BodyMessage (new_message_id env) message
                          ((λ u, (username u, avatar u)) <$> users st !! req_user req) |})
      (group_sent env id g message (req_user req) st).
Proof.
  intros [[Hid Hne] Hcv] Hc1 Hc2 Hg Hin Had Hm Hr message.
  destruct (truthy_content (req_body req)) as [Hc Hc']; [done..|].
  unfold sendMessage_fn.
  simpl in Hcv. rewrite Hcv, Hid. simpl.
  rewrite (bool_decide_eq_false_2 (id = "")) by done. simpl.
  unfold bind at 1. unfold bind at 1. unfold Group_findById at 1, gets. simpl.
  rewrite Hg. unfold includes. rewrite bool_decide_eq_true_2 by done. simpl.
  unfold bind at 1. unfold Message_save. simpl.
  rewrite (bool_decide_eq_false_2 _ Hc'), Hm. simpl.
  unfold bind at 1. simpl.
  unfold bind at 1. unfold bind at 1. simpl. rewrite Hg.
  unfold bind at 1. unfold Group_save. simpl.
  rewrite has_admin_length, Hr by done. simpl.
  unfold bind at 1. simpl.
  reflexivity.
Qed.

(** What [conversation_after_send] and [group_after_send] mean for the
    observations. *)
Lemma after_send_updated env room me ids (before after : Store) :
  room_members before room = Some ids → NoDup ids →
  sender <$> messages after !! new_message_id env = Some me →
  match room with
  | InConversation id => ∃ conv, conversations before !! id = Some conv ∧
      conversations after !! id =
        Some (conversation_after_send conv (new_message_id env)
                (recipients_of (participants conv) me))
  | InGroup id => ∃ g, groups before !! id = Some g ∧
      groups after !! id =
        Some (group_after_send g (new_message_id env) (recipients_of (members g) me))
  end →
  room_updated env room me ids before after.
Proof.
  intros Hms Hnd Hmsg Hafter. unfold room_updated.
  destruct room as [id|id]; simpl in *; destruct Hafter as (d & Hd & Hd');
    rewrite Hd, Hd'; rewrite Hd in Hms; simplify_eq/=.
  all: split_and!; [done..| |].
  all: try (intros r Hr Hne; apply bump_all_once;
            [by apply recipients_of_NoDup|by apply recipients_of_spec]).
  all: unfold unread; by rewrite bump_all_other by apply recipients_of_not_me.
Qed.

(** C1. A send by a member of a room (a conversation or a group, whose
    member list holds no id twice), through the socket event or through
    [POST /api/messages], once the message and the room are saved: the
    room's [lastMessage] is the id of the new message, which is stored,
    [unreadCount] is one higher for every member other than the sender,
    and the sender's own counter is as it was. *)
Theorem send_updates_room (env : Env) (room : RoomRef) (me : string)
    (ids : list string) (st : Store) (data : Payload) :
  room_members st room = Some ids → me ∈ ids → NoDup ids → room_saves st room →
  p_content data ≠ None → p_content data ≠ Some "" →
  message_save_rejects env = false → room_save_rejects env = false →
  (∀ socket w, user_id socket = me → store w = st → names_room data room →
     room_updated env room me ids st
       (store (exec (on env socket (send_event room data)) w))) ∧
  (∀ req, req_user req = me → req_body req = data → names_only data room →
     room_updated env room me ids st (sendMessage env req st).2).
Proof.
  intros Hms Hme Hnd Hsave Hc1 Hc2 Hm Hr. split.
  - intros socket w <- <- Hnames.
    destruct room as [id|id]; simpl in *; unfold exec.
    + destruct (conversations (store w) !! id) as [conv|] eqn:Hconv; simplify_eq/=.
      rewrite (message_private_run _ _ _ _ id conv) by done.
      apply after_send_updated; simpl; [by rewrite Hconv|done| |].
      * rewrite (socket_send_keeps messages) by done. simpl.
        by rewrite lookup_insert_eq.
      * exists conv. split; [done|].
        rewrite (socket_send_keeps conversations) by done.
        apply lookup_insert_eq.
    + destruct (groups (store w) !! id) as [g|] eqn:Hg; simplify_eq/=.
      rewrite (message_group_run _ _ _ _ id g) by eauto.
      apply after_send_updated; simpl; [by rewrite Hg|done| |].
      * rewrite (socket_send_keeps messages) by done. simpl.
        by rewrite lookup_insert_eq.
      * exists g. split; [done|].
        rewrite (socket_send_keeps groups) by done.
        apply lookup_insert_eq.
  - intros req <- <- Hnames.
    unfold sendMessage. rewrite asyncHandler_store.
    destruct room as [id|id]; simpl in *.
    + destruct (conversations st !! id) as [conv|] eqn:Hconv; simplify_eq/=.
      rewrite (sendMessage_conversation_run _ _ _ id conv) by done.
      apply after_send_updated; simpl; [by rewrite Hconv|done| |].
      * rewrite (bind_keeps_tail messages) by done.
        rewrite (create_notifications_keeps messages) by done. simpl.
        by rewrite lookup_insert_eq.
      * exists conv. split; [done|].
        rewrite (bind_keeps_tail conversations) by done.
        rewrite (create_notifications_keeps conversations) by done.
        apply lookup_insert_eq.
    + destruct (groups st !! id) as [g|] eqn:Hg; simplify_eq/=.
      rewrite (sendMessage_group_run _ _ _ id g) by eauto.
      apply after_send_updated; simpl; [by rewrite Hg|done| |].
      * rewrite (bind_keeps_tail messages) by done.
        rewrite (create_notifications_keeps messages) by done. simpl.
        by rewrite lookup_insert_eq.
      * exists g. split; [done|].
        rewrite (bind_keeps_tail groups) by done.
        rewrite (create_notifications_keeps groups) by done.
        apply lookup_insert_eq.
Qed.

Lemma send_updates_room_witness :
  room_updated env0 (InConversation "c1") "a" ["a"; "b"] st0
    (store (exec (on env0 socket_a1 (MessagePrivate hi_c1)) (boot st0))) ∧
  room_updated env0 (InConversation "c1") "a" ["a"; "b"] st0
    (sendMessage env0 (request "a" "" hi_c1) st0).2 ∧
  room_updated env0 (InGroup "g1") "b" ["a"; "b"] st0
    (store (exec (on env0 socket_b1 (MessageGroup hi_g1)) (boot st0))).
Proof.
  destruct (send_updates_room env0 (InConversation "c1") "a" ["a"; "b"] st0 hi_c1)
    as [Hsocket Hhttp];
    [reflexivity|compute_done|compute_done|exact I|discriminate|discriminate
    |reflexivity|reflexivity|].
  destruct (send_updates_room env0 (InGroup "g1") "b" ["a"; "b"] st0 hi_g1)
    as [Hgroup _];
    [reflexivity|compute_done|compute_done|by intros g [= <-]|discriminate|discriminate
    |reflexivity|reflexivity|].
  split_and!.
  - apply (Hsocket socket_a1 (boot st0)); [reflexivity|reflexivity|by split].
  - apply (Hhttp (request "a" "" hi_c1)); [reflexivity|reflexivity|by split].
  - apply (Hgroup socket_b1 (boot st0)); [reflexivity|reflexivity|by split].
Defined.

(** ** Read state *)











(** ** Read receipts and typing indicators *)

Lemma emitted_app {A} (m : M World A) w new :
  outbox (exec m w) = outbox w ++ new → emitted m w = new.
Proof. unfold emitted. intros ->. by rewrite drop_app_length. Qed.

Lemma named_room_cases data room :
  named_room data = Some room →
  (falsy (p_conversationId data) = false ∧
   room = InConversation (str (p_conversationId data))) ∨
  (falsy (p_conversationId data) = true ∧ falsy (p_groupId data) = false ∧
   room = InGroup (str (p_groupId data))).
Proof.
  unfold named_room. destruct (falsy (p_conversationId data)); simpl.
  - destruct (falsy (p_groupId data)); simpl; [done|]. intros [= <-]. by right.
  - intros [= <-]. by left.
Qed.





Lemma typing_run isTyping socket data w room :
  named_room data = Some room →
  typing isTyping socket data w =
    (Ok tt, push_outbox
              (SocketTo (socket_id socket) (room_name room)
                 (EvTypingUpdate (user_id socket) (user_username socket) isTyping room))
              w).
Proof.
  intros Hroom. unfold typing, try_catch.
  destruct (named_room_cases _ _ Hroom) as [[-> ->]|(-> & -> & ->)]; by simpl.
Qed.

(** C8, as the code has it. [typing:start] and [typing:stop] naming a
    room emit one [typing:update] with [socket.to(room)]: it reaches every
    socket subscribed to the room except the socket that sent the event,
    which never receives it; nothing is written to the store (no message,
    no notification). *)
Theorem typing_reaches_room_but_origin (env : Env) (isTyping : bool) (socket : Socket)
    (data : Payload) (w : World) (room : RoomRef) :
  named_room data = Some room →
  let ev := if isTyping then TypingStart data else TypingStop data in
  let w' := exec (on env socket ev) w in
  let update :=
    SocketTo (socket_id socket) (room_name room)
      (EvTypingUpdate (user_id socket) (user_username socket) isTyping room) in
  outbox w' = outbox w ++ [update] ∧
  receivers (rooms w') update =
    (room_sockets (rooms w) (room_name room) ∖ {[ socket_id socket ]}) ∧
  (socket_id socket ∉ receivers (rooms w') update) ∧
  store w' = store w.
Proof.
  intros Hroom. simpl.
  assert (on env socket (if isTyping then TypingStart data else TypingStop data) =
          typing isTyping socket data) as -> by by destruct isTyping.
  unfold exec. rewrite (typing_run _ _ _ _ room Hroom). simpl.
  split_and!; try done. apply not_elem_of_difference. right.
  by apply elem_of_singleton.
Qed.

Lemma typing_reaches_room_but_origin_witness :
  receivers (rooms (exec (on env0 socket_b1 (TypingStart in_c1)) w_online))
    (SocketTo (socket_id socket_b1) (room_name (InConversation "c1"))
       (EvTypingUpdate (user_id socket_b1) (user_username socket_b1) true
          (InConversation "c1")))
  = (room_sockets (rooms w_online) (room_name (InConversation "c1"))
       ∖ {[ socket_id socket_b1 ]}).
Proof.
  destruct (typing_reaches_room_but_origin env0 true socket_b1 in_c1 w_online
              (InConversation "c1")) as (_ & H & _); [reflexivity|exact H].
Defined.

(** C8, counterexample. Alice is connected on two devices, "s1" and "s2",
    both subscribed to the conversation. She starts typing on "s1": the
    update goes out with [socket.to], and "s2", a connection of her own,
    is among its receivers. *)
Lemma typing_reaches_senders_other_device :
  emitted (on env0 socket_a1 (TypingStart in_c1)) w_online =
    [SocketTo "s1" "conversation:c1"
       (EvTypingUpdate "a" "alice" true (InConversation "c1"))] ∧
  "s2" ∈ sockets_of w_online "a" ∧
  "s2" ∈ receivers (rooms (exec (on env0 socket_a1 (TypingStart in_c1)) w_online))
           (SocketTo "s1" "conversation:c1"
              (EvTypingUpdate "a" "alice" true (InConversation "c1"))).
Proof. split_and!; [by vm_compute|compute_done|compute_done]. Qed.

(** ** Error reporting *)

Lemma errors_app l1 l2 : errors (l1 ++ l2) = errors l1 + errors l2.
Proof. unfold errors. by rewrite filter_app, length_app. Qed.

Lemma errors_zero_elem l a : errors l = 0 → a ∈ l → is_error a = false.
Proof.
  unfold errors. intros Hl Ha. destruct (is_error a) eqn:He; [|done].
  assert (a ∈ filter (λ a, is_error a = true) l) as Hin
    by by apply list_elem_of_filter.
  destruct (filter _ l); [by apply elem_of_nil in Hin|done].
Qed.

Lemma errors_singleton a : errors [a] = if is_error a then 1 else 0.
Proof.
  unfold errors. rewrite filter_cons, filter_nil.
  destruct (is_error a); by case_decide.
Qed.

Section quiet.
Context (sid : string).

Lemma quiet_ret {A} (a : A) : quiet (ret a : M World A).
Proof. intros w. exists []. by rewrite app_nil_r. Qed.

Lemma quiet_throw {A} e : quiet (throw e : M World A).
Proof. intros w. exists []. by rewrite app_nil_r. Qed.

Lemma quiet_gets {A} (g : World → A) : quiet (gets g).
Proof. intros w. exists []. by rewrite app_nil_r. Qed.

Lemma quiet_db {A} (m : M Store A) : quiet (db m).
Proof.
  intros w. exists []. unfold db. destruct (m (store w)). by rewrite app_nil_r.
Qed.

Lemma quiet_console l : quiet (console_error l).
Proof. intros w. exists []. by rewrite app_nil_r. Qed.

Lemma quiet_modify (g : World → World) :
  (∀ w, outbox (g w) = outbox w) → quiet (modify g).
Proof. intros Hg w. exists []. simpl. by rewrite Hg, app_nil_r. Qed.

Lemma quiet_io_to room e :
  is_error (IoTo room e) = false → quiet (io_to_emit room e).
Proof.
  intros He w. exists [IoTo room e]. split; [done|].
  by rewrite errors_singleton, He.
Qed.

Lemma quiet_socket_to socket room e :
  is_error (SocketTo (socket_id socket) room e) = false →
  quiet (socket_to_emit socket room e).
Proof.
  intros He w. exists [SocketTo (socket_id socket) room e]. split; [done|].
  by rewrite errors_singleton, He.
Qed.

Lemma quiet_socket_emit socket e :
  is_error (SocketEmit (socket_id socket) e) = false → quiet (socket_emit socket e).
Proof.
  intros He w. exists [SocketEmit (socket_id socket) e]. split; [done|].
  by rewrite errors_singleton, He.
Qed.

Lemma quiet_bind {A B} (m : M World A) (k : A → M World B) :
  quiet m → (∀ a, quiet (k a)) → quiet (bind m k).
Proof.
  intros Hm Hk w. unfold bind. destruct (Hm w) as (n1 & H1 & E1).
  destruct (m w) as [[a|e] w1]; simpl in *; [|by exists n1].
  destruct (Hk a w1) as (n2 & H2 & E2). exists (n1 ++ n2).
  rewrite H2, H1, errors_app, E1, E2. by rewrite (assoc_L (++)).
Qed.

Lemma quiet_try_catch {A} (m : M World A) (h : Exn → M World A) :
  quiet m → (∀ e, quiet (h e)) → quiet (try_catch m h).
Proof.
  intros Hm Hh w. unfold try_catch. destruct (Hm w) as (n1 & H1 & E1).
  destruct (m w) as [[a|e] w1]; simpl in *; [by exists n1|].
  destruct (Hh e w1) as (n2 & H2 & E2). exists (n1 ++ n2).
  rewrite H2, H1, errors_app, E1, E2. by rewrite (assoc_L (++)).
Qed.

Lemma quiet_for_of {A} (l : list A) (body : A → M World unit) :
  (∀ x, quiet (body x)) → quiet (for_of l body).
Proof.
  intros Hbody. induction l as [|x l IH]; simpl; [apply quiet_ret|].
  apply quiet_bind; auto.
Qed.

Lemma reports_quiet {A} (m : M World A) : quiet m → reports sid m.
Proof. intros Hm w. destruct (Hm w) as (n & H & E). exists n. auto. Qed.

Lemma reports_error socket msg :
  socket_id socket = sid → reports sid (socket_emit socket (EvError msg)).
Proof.
  intros <- w. exists [SocketEmit (socket_id socket) (EvError msg)].
  split; [done|]. right. by exists [], msg, tt.
Qed.

Lemma reports_bind {A B} (m : M World A) (k : A → M World B) :
  quiet m → (∀ a, reports sid (k a)) → reports sid (bind m k).
Proof.
  intros Hm Hk w. unfold bind. destruct (Hm w) as (n1 & H1 & E1).
  destruct (m w) as [[a|e] w1]; simpl in *; [|exists n1; auto].
  destruct (Hk a w1) as (n2 & H2 & [E2|(pre & msg & b & -> & E2 & Hok)]).
  - exists (n1 ++ n2). rewrite H2, H1, errors_app, E1, E2, (assoc_L (++)). auto.
  - exists (n1 ++ pre ++ [SocketEmit sid (EvError msg)]).
    rewrite H2, H1, !(assoc_L (++)). split; [done|]. right.
    exists (n1 ++ pre), msg, b. by rewrite errors_app, E1, E2.
Qed.

(** A [try] block that reports, with a [catch] that logs and reports. *)
Lemma tidy_try_catch (m : M World unit) (socket : Socket) line msg :
  socket_id socket = sid → reports sid m →
  tidy sid (try_catch m (λ _, console_error line ;;; socket_emit socket (EvError msg))).
Proof.
  intros <- Hm w. unfold try_catch.
  destruct (Hm w) as (n1 & H1 & Hn1).
  destruct (m w) as [[a|e] w1]; simpl in *.
  - exists n1. split; [done|].
    destruct Hn1 as [E1|(pre & msg' & b & -> & E1 & _)].
    + split; [lia|]. intros a' Ha He.
      by rewrite (errors_zero_elem _ _ E1 Ha) in He.
    + split; [rewrite errors_app, E1; by vm_compute|].
      intros a' [Ha| ->%list_elem_of_singleton]%elem_of_app He; [|by eexists].
      by rewrite (errors_zero_elem _ _ E1 Ha) in He.
  - destruct Hn1 as [E1|(pre & msg' & b & _ & _ & [=])].
    exists (n1 ++ [SocketEmit (socket_id socket) (EvError msg)]).
    rewrite H1, (assoc_L (++)). split; [done|].
    split; [rewrite errors_app, E1; by vm_compute|].
    intros a' [Ha| ->%list_elem_of_singleton]%elem_of_app He; [|by eexists].
    by rewrite (errors_zero_elem _ _ E1 Ha) in He.
Qed.

Lemma tidy_quiet {A} (m : M World A) : quiet m → tidy sid m.
Proof.
  intros Hm w. destruct (Hm w) as (n & H & E). exists n.
  split_and!; [done|lia|]. intros a Ha He.
  by rewrite (errors_zero_elem _ _ E Ha) in He.
Qed.
End quiet.

Lemma quiet_notify_recipients env socket rs title text :
  quiet (notify_recipients env socket rs title text).
Proof.
  apply quiet_for_of. intros r. apply quiet_bind; [apply quiet_db|].
  intros _. by apply quiet_io_to.
Qed.

Lemma quiet_notify_friends env uid user s : quiet (notify_friends env uid user s).
Proof.
  destruct user as [fs|]; simpl; [|apply quiet_ret].
  apply quiet_for_of. intros f. by apply quiet_io_to.
Qed.

Lemma reports_message_private env socket data :
  reports (socket_id socket)
    (if falsy (p_conversationId data) || falsy (p_content data) then
       socket_emit socket (EvError "Conversation ID and content are required")
     else
       let conversationId := str (p_conversationId data) in
       conversation ⇐ db (Conversation_findById conversationId) ;;
       match conversation with
       | None => socket_emit socket (EvError "Conversation not found")
       | Some conversation =>
         if negb (includes (participants conversation) (user_id socket)) then
           socket_emit socket
             (EvError "Not authorized to send messages to this conversation")
         else
           let message :=
             new_message env (user_id socket) (str (p_content data))
               (InConversation conversationId) (p_attachments data) in
           db (Message_save env message) ;;;
           let recipients := recipients_of (participants conversation) (user_id socket) in
           db (Conversation_save env conversationId
                 (conversation_after_send conversation (new_message_id env) recipients)) ;;;
           populated ⇐ db (populate_sender (sender message)) ;;
           io_to_emit (conversation_room conversationId)
             (EvMessageNew (new_message_id env) message populated
                (InConversation conversationId)) ;;;
           notify_recipients env socket recipients "New Message"
             (user_username socket +:+ " sent you a message")
       end).
Proof.
  destruct (_ || _); [by apply reports_error|].
  apply reports_bind; [apply quiet_db|]. intros [conv|]; [|by apply reports_error].
  destruct (negb _); [by apply reports_error|].
  apply reports_quiet.
  repeat (apply quiet_bind; [first [apply quiet_db|by apply quiet_io_to]|intros ?]).
  apply quiet_notify_recipients.
Qed.

Lemma reports_message_group env socket data :
  reports (socket_id socket)
    (if falsy (p_groupId data) || falsy (p_content data) then
       socket_emit socket (EvError "Group ID and content are required")
     else
       let groupId := str (p_groupId data) in
       group ⇐ db (Group_findById groupId) ;;
       match group with
       | None => socket_emit socket (EvError "Group not found")
       | Some group =>
         if negb (includes (members group) (user_id socket)) then
           socket_emit socket (EvError "Not authorized to send messages to this group")
         else
           let message :=
             new_message env (user_id socket) (str (p_content data))
               (InGroup groupId) (p_attachments data) in
           db (Message_save env message) ;;;
           let recipients := recipients_of (members group) (user_id socket) in
           db (Group_save env groupId
                 (group_after_send group (new_message_id env) recipients)) ;;;
           populated ⇐ db (populate_sender (sender message)) ;;
           io_to_emit (group_room groupId)
             (EvMessageNew (new_message_id env) message populated (InGroup groupId)) ;;;
           notify_recipients env socket recipients ("New Message in " +:+ name group)
             (user_username socket +:+ " sent a message in " +:+ name group)
       end).
Proof.
  destruct (_ || _); [by apply reports_error|].
  apply reports_bind; [apply quiet_db|]. intros [g|]; [|by apply reports_error].
  destruct (negb _); [by apply reports_error|].
  apply reports_quiet.
  repeat (apply quiet_bind; [first [apply quiet_db|by apply quiet_io_to]|intros ?]).
  apply quiet_notify_recipients.
Qed.

(** Every handler keeps its [error] events to at most one, on its own
    socket. *)
Lemma on_tidy env socket ev : tidy (socket_id socket) (on env socket ev).
Proof.
  destruct ev as [data|data|data|data|data|data|data| |data]; simpl.
  - apply tidy_try_catch; [done|apply reports_message_private].
  - apply tidy_try_catch; [done|apply reports_message_group].
  - apply tidy_quiet, quiet_try_catch; [|intros; apply quiet_console].
    destruct (negb _); [by apply quiet_socket_to|].
    destruct (negb _); [by apply quiet_socket_to|apply quiet_ret].
  - apply tidy_quiet, quiet_try_catch; [|intros; apply quiet_console].
    destruct (negb _); [by apply quiet_socket_to|].
    destruct (negb _); [by apply quiet_socket_to|apply quiet_ret].
  - apply tidy_quiet, quiet_try_catch; [|intros; apply quiet_console].
    destruct (no_message_ids _); [apply quiet_ret|].
    apply quiet_bind; [apply quiet_db|intros _].
    destruct (negb _).
    { apply quiet_bind; [apply quiet_db|intros _]. by apply quiet_io_to. }
    destruct (negb _); [|apply quiet_ret].
    apply quiet_bind; [apply quiet_db|intros _]. by apply quiet_io_to.
  - apply tidy_try_catch; [done|].
    destruct (p_status data) as [s|]; [|by apply reports_error].
    destruct (negb _); [by apply reports_error|].
    apply reports_quiet.
    apply quiet_bind; [apply quiet_db|intros _].
    apply quiet_bind; [apply quiet_db|intros user].
    apply quiet_bind; [apply quiet_notify_friends|intros _].
    by apply quiet_socket_emit.
  - apply tidy_try_catch; [done|].
    destruct (p_userIds data) as [ids|]; [|by apply reports_error].
    apply reports_quiet. apply quiet_bind; [apply quiet_db|intros m].
    by apply quiet_socket_emit.
  - apply tidy_quiet, quiet_try_catch; [apply quiet_db|intros; apply quiet_console].
  - apply tidy_try_catch; [done|].
    destruct (falsy _); [by apply reports_error|].
    apply reports_bind; [apply quiet_db|]. intros [u|]; [|by apply reports_error].
    apply reports_quiet. by apply quiet_socket_emit.
Qed.

(** The handlers that only log add no [error] event. *)
Lemma on_quiet env socket ev : reports_errors ev = false → quiet (on env socket ev).
Proof.
  destruct ev as [data|data|data|data|data|data|data| |data]; simpl; try done; intros _.
  - apply quiet_try_catch; [|intros; apply quiet_console].
    destruct (negb _); [by apply quiet_socket_to|].
    destruct (negb _); [by apply quiet_socket_to|apply quiet_ret].
  - apply quiet_try_catch; [|intros; apply quiet_console].
    destruct (negb _); [by apply quiet_socket_to|].
    destruct (negb _); [by apply quiet_socket_to|apply quiet_ret].
  - apply quiet_try_catch; [|intros; apply quiet_console].
    destruct (no_message_ids _); [apply quiet_ret|].
    apply quiet_bind; [apply quiet_db|intros _].
    destruct (negb _).
    { apply quiet_bind; [apply quiet_db|intros _]. by apply quiet_io_to. }
    destruct (negb _); [|apply quiet_ret].
    apply quiet_bind; [apply quiet_db|intros _]. by apply quiet_io_to.
  - apply quiet_try_catch; [apply quiet_db|intros; apply quiet_console].
Qed.

(** The two shapes of a rejection: one [error] emit, or nothing. *)
Ltac one_error := split; [done|]; eexists; (split; [done|]); by eexists.
Ltac no_event := split; [done|]; exists []; by rewrite app_nil_r.

(** What a handler does with an event it rejects. *)
Lemma on_rejected env socket ev w :
  rejected (store w) socket ev = true →
  store (exec (on env socket ev) w) = store w ∧
  ∃ new, outbox (exec (on env socket ev) w) = outbox w ++ new ∧
    if reports_errors ev
    then ∃ msg, new = [SocketEmit (socket_id socket) (EvError msg)]
    else new = [].
Proof.
  unfold exec.
  destruct ev as [data|data|data|data|data|data|data| |data]; simpl; try done.
  - unfold message_private, try_catch, bind, db, Conversation_findById, gets.
    destruct (falsy (p_conversationId data) || falsy (p_content data)); simpl.
    { intros _. one_error. }
    destruct (conversations (store w) !! _) as [conv|]; simpl.
    + intros ->. simpl. one_error.
    + intros _. one_error.
  - unfold message_group, try_catch, bind, db, Group_findById, gets.
    destruct (falsy (p_groupId data) || falsy (p_content data)); simpl.
    { intros _. one_error. }
    destruct (groups (store w) !! _) as [g|]; simpl.
    + intros ->. simpl. one_error.
    + intros _. one_error.
  - unfold typing_start, typing, try_catch.
    intros [-> ->]%andb_true_iff. simpl. no_event.
  - unfold typing_stop, typing, try_catch.
    intros [-> ->]%andb_true_iff. simpl. no_event.
  - unfold message_read, try_catch. intros ->. simpl. no_event.
  - unfold status_change, try_catch.
    destruct (p_status data) as [s|]; simpl.
    + intros ->. simpl. one_error.
    + intros _. one_error.
  - unfold status_get, try_catch.
    destruct (p_userIds data) as [ids|]; simpl; [done|].
    intros _. one_error.
  - unfold presence_history, try_catch, bind, db, User_findById, gets.
    destruct (falsy (p_userId data)); simpl.
    { intros _. one_error. }
    destruct (users (store w) !! _) as [u|]; simpl; [done|].
    intros _. one_error.
Qed.

(** C4, as the code has it. Whatever the event, a handler adds at most
    one [error] event, and only with [socket.emit] on the originating
    socket. A rejected [message:private], [message:group], [status:change],
    [status:get] or [presence:history] is answered by exactly that one
    [error] event and nothing else; a rejected [typing:start],
    [typing:stop] or [message:read] is dropped with no event at all, and
    these handlers and [presence:ping] never emit an [error]. A rejected
    event leaves the store as it was. *)
Theorem rejected_event_report (env : Env) (socket : Socket) (ev : Inbound) (w : World) :
  let w' := exec (on env socket ev) w in
  let new := emitted (on env socket ev) w in
  outbox w' = outbox w ++ new ∧
  errors new ≤ 1 ∧
  (∀ a, a ∈ new → is_error a = true →
        ∃ msg, a = SocketEmit (socket_id socket) (EvError msg)) ∧
  (reports_errors ev = false → errors new = 0) ∧
  (rejected (store w) socket ev = true →
     store w' = store w ∧
     if reports_errors ev
     then errors new = 1 ∧ ∃ msg, new = [SocketEmit (socket_id socket) (EvError msg)]
     else new = []).
Proof.
  simpl. destruct (on_tidy env socket ev w) as (new & Hout & Hle & Hto).
  fold (exec (on env socket ev) w) in Hout.
  rewrite (emitted_app _ _ _ Hout). split_and!; [done..| |].
  - intros Hq. destruct (on_quiet env socket ev Hq w) as (new' & Hout' & Hz).
    fold (exec (on env socket ev) w) in Hout'.
    rewrite Hout in Hout'. by apply app_inv_head in Hout' as ->.
  - intros Hrej. destruct (on_rejected env socket ev w Hrej) as (Hst & new' & Hout' & Hnew).
    split; [done|]. rewrite Hout in Hout'. apply app_inv_head in Hout' as ->.
    destruct (reports_errors ev); [|done].
    destruct Hnew as [msg ->]. split; [by vm_compute|by eexists].
Qed.

Lemma rejected_event_report_witness :
  errors (emitted (on env0 socket_a1 (MessagePrivate no_data)) w_online) = 1 ∧
  emitted (on env0 socket_a1 (MessageRead no_data)) w_online = [].
Proof.
  split.
  - destruct (rejected_event_report env0 socket_a1 (MessagePrivate no_data) w_online)
      as (_ & _ & _ & _ & H).
    destruct H as (_ & H & _); [reflexivity|exact H].
  - destruct (rejected_event_report env0 socket_a1 (MessageRead no_data) w_online)
      as (_ & _ & _ & _ & H).
    destruct H as (_ & H); [reflexivity|exact H].
Defined.

(** C4, counterexample. A [message:read] without [messageIds] fails the
    handler's validation and is dropped: no event, hence no [error], goes
    back to the socket. *)
Lemma rejected_read_is_silent :
  rejected (store w_online) socket_a1 (MessageRead no_data) = true ∧
  emitted (on env0 socket_a1 (MessageRead no_data)) w_online = [] ∧
  errors (emitted (on env0 socket_a1 (MessageRead no_data)) w_online) = 0.
Proof. by vm_compute. Qed.

(** ** Notification failures *)

Lemma notify_recipients_throws env socket rs title text r :
  r ∈ rs → notification_save_rejects env r = true →
  ∀ w, ∃ e, (notify_recipients env socket rs title text w).1 = Throw e.
Proof.
  intros Hr Hrej. unfold notify_recipients.
  induction rs as [|x rs IH]; intros w; [by apply elem_of_nil in Hr|]. simpl.
  unfold bind at 1. unfold bind at 1. unfold db at 1, Notification_save. simpl.
  destruct (notification_save_rejects env x) eqn:Hx; simpl; [by eexists|].
  apply elem_of_cons in Hr as [->|Hr]; [congruence|]. by apply IH.
Qed.

Lemma create_notifications_throws env me sender rs title text r :
  r ∈ rs → notification_save_rejects env r = true →
  ∀ st, ∃ msg st',
    create_notifications env me sender rs title text st = (Throw (OtherError msg), st') ∧
    messages st' = messages st ∧ conversations st' = conversations st ∧
    groups st' = groups st.
Proof.
  intros Hr Hrej st.
  pose proof (create_notifications_keeps messages env me sender rs title text
                (λ _ _, eq_refl) st) as Hm.
  pose proof (create_notifications_keeps conversations env me sender rs title text
                (λ _ _, eq_refl) st) as Hc.
  pose proof (create_notifications_keeps groups env me sender rs title text
                (λ _ _, eq_refl) st) as Hg.
  assert (∃ msg, (create_notifications env me sender rs title text st).1
                 = Throw (OtherError msg)) as [msg Hmsg].
  { clear Hm Hc Hg. unfold create_notifications. revert st.
    induction rs as [|x rs IH]; intros st; [by apply elem_of_nil in Hr|]. simpl.
    unfold bind at 1. unfold bind at 1.
    destruct sender as [u|]; simpl; [|by eexists].
    unfold Notification_save at 1. simpl.
    destruct (notification_save_rejects env x) eqn:Hx; simpl; [by eexists|].
    apply elem_of_cons in Hr as [->|Hr]; [congruence|]. by apply IH. }
  destruct (create_notifications env me sender rs title text st) as [res st'].
  simpl in *. subst res. by exists msg, st'.
Qed.

(** A socket send whose notification loop throws ends in the [catch]. *)
Lemma socket_send_fails env socket rs title text line w r :
  r ∈ rs → notification_save_rejects env r = true →
  let w' := (try_catch (notify_recipients env socket rs title text)
               (send_catch socket line) w).2 in
  last (outbox w') = Some (SocketEmit (socket_id socket) (EvError "Failed to send message")) ∧
  last (console w') = Some line ∧
  ∃ new, outbox w' = outbox w ++ new ∧ errors new = 1.
Proof.
  intros Hr Hrej. simpl. unfold try_catch.
  destruct (notify_recipients_throws env socket rs title text r Hr Hrej w) as [e He].
  destruct (quiet_notify_recipients env socket rs title text w) as (new & Hout & Hz).
  destruct (notify_recipients env socket rs title text w) as [res w1].
  simpl in *. subst res. simpl. rewrite Hout. split_and!.
  - by rewrite last_snoc.
  - by rewrite last_snoc.
  - eexists. rewrite <-(assoc_L (++)). split; [done|].
    rewrite errors_app, Hz. by vm_compute.
Qed.

(** C5, as the code has it. When the notification of some recipient
    cannot be saved, the message and the room update that were saved
    before stay saved, and the failure is surfaced: the socket handler logs
    it and emits, as its last and only [error], "Failed to send message" to
    the sender; [POST /api/messages] answers with status 500. *)
Theorem notification_failure_is_surfaced (env : Env) (room : RoomRef) (me r : string)
    (ids : list string) (st : Store) (data : Payload) :
  room_members st room = Some ids → me ∈ ids → room_saves st room →
  p_content data ≠ None → p_content data ≠ Some "" →
  message_save_rejects env = false → room_save_rejects env = false →
  r ∈ ids → r ≠ me → notification_save_rejects env r = true →
  let message := new_message env me (str (p_content data)) room (p_attachments data) in
  (∀ socket w, user_id socket = me → store w = st → names_room data room →
     let w' := exec (on env socket (send_event room data)) w in
     messages (store w') !! new_message_id env = Some message ∧
     room_lastMessage (store w') room = Some (new_message_id env) ∧
     last (console w') = Some (send_log room) ∧
     last (outbox w') =
       Some (SocketEmit (socket_id socket) (EvError "Failed to send message")) ∧
     errors (emitted (on env socket (send_event room data)) w) = 1) ∧
  (∀ req, req_user req = me → req_body req = data → names_only data room →
     let res := sendMessage env req st in
     res_status res.1 = 500 ∧ res_success res.1 = false ∧
     messages res.2 !! new_message_id env = Some message ∧
     room_lastMessage res.2 room = Some (new_message_id env)).
Proof.
  intros Hms Hme Hsave Hc1 Hc2 Hm Hr Hin Hne Hrej. simpl.
  assert (r ∈ recipients_of ids me) as Hrec by by apply recipients_of_spec.
  split.
  - intros socket w <- <- Hnames.
    destruct room as [id|id]; simpl in *.
    + destruct (conversations (store w) !! id) as [conv|] eqn:Hconv; simplify_eq/=.
      unfold emitted, exec.
      rewrite (message_private_run _ _ _ _ id conv) by done.
      match goal with |- context [try_catch ?m ?h ?w0] =>
        destruct (socket_send_fails env socket _ "New Message"
                    (user_username socket +:+ " sent you a message")
                    "Error handling private message:" w0 r Hrec Hrej)
          as (Hlast & Hlog & new & Hout & Herr);
        pose proof (socket_send_keeps messages env socket
                      (recipients_of (participants conv) (user_id socket)) "New Message"
                      (user_username socket +:+ " sent you a message")
                      "Error handling private message:" w0 (λ _ _, eq_refl)) as Hmsgs;
        pose proof (socket_send_keeps conversations env socket
                      (recipients_of (participants conv) (user_id socket)) "New Message"
                      (user_username socket +:+ " sent you a message")
                      "Error handling private message:" w0 (λ _ _, eq_refl)) as Hconvs
      end.
      simpl in *. rewrite Hmsgs, Hconvs, Hlast, Hlog, Hout. simpl.
      rewrite !lookup_insert_eq. simpl. split_and!; [done..|].
      rewrite <-(assoc_L (++)), drop_app_length, errors_app, Herr. by vm_compute.
    + destruct (groups (store w) !! id) as [g|] eqn:Hg; simplify_eq/=.
      unfold emitted, exec.
      rewrite (message_group_run _ _ _ _ id g) by eauto.
      match goal with |- context [try_catch ?m ?h ?w0] =>
        destruct (socket_send_fails env socket _ ("New Message in " +:+ name g)
                    (user_username socket +:+ " sent a message in " +:+ name g)
                    "Error handling group message:" w0 r Hrec Hrej)
          as (Hlast & Hlog & new & Hout & Herr);
        pose proof (socket_send_keeps messages env socket
                      (recipients_of (members g) (user_id socket))
                      ("New Message in " +:+ name g)
                      (user_username socket +:+ " sent a message in " +:+ name g)
                      "Error handling group message:" w0 (λ _ _, eq_refl)) as Hmsgs;
        pose proof (socket_send_keeps groups env socket
                      (recipients_of (members g) (user_id socket))
                      ("New Message in " +:+ name g)
                      (user_username socket +:+ " sent a message in " +:+ name g)
                      "Error handling group message:" w0 (λ _ _, eq_refl)) as Hgs
      end.
      simpl in *. rewrite Hmsgs, Hgs, Hlast, Hlog, Hout. simpl.
      rewrite !lookup_insert_eq. simpl. split_and!; [done..|].
      rewrite <-(assoc_L (++)), drop_app_length, errors_app, Herr. by vm_compute.
  - intros req <- <- Hnames.
    assert (∃ msg st', sendMessage env req st = (errorHandler (OtherError msg), st') ∧
              messages st' !! new_message_id env =
                Some (new_message env (req_user req) (str (p_content (req_body req)))
                        room (p_attachments (req_body req))) ∧
              room_lastMessage st' room = Some (new_message_id env))
      as (msg & st' & -> & Hmsg & Hlast); [|done].
    unfold sendMessage, asyncHandler.
    destruct room as [id|id]; simpl in *.
    + destruct (conversations st !! id) as [conv|] eqn:Hconv; simplify_eq/=.
      rewrite (sendMessage_conversation_run _ _ _ id conv) by done.
      unfold bind at 1.
      match goal with |- context [create_notifications ?e ?u ?s ?rs ?t ?x ?st0] =>
        destruct (create_notifications_throws e u s rs t x r Hrec Hrej st0)
          as (msg & st' & -> & Hmsgs & Hconvs & _)
      end.
      exists msg, st'. rewrite Hmsgs, Hconvs. simpl. by rewrite !lookup_insert_eq.
    + destruct (groups st !! id) as [g|] eqn:Hg; simplify_eq/=.
      rewrite (sendMessage_group_run _ _ _ id g) by eauto.
      unfold bind at 1.
      match goal with |- context [create_notifications ?e ?u ?s ?rs ?t ?x ?st0] =>
        destruct (create_notifications_throws e u s rs t x r Hrec Hrej st0)
          as (msg & st' & -> & Hmsgs & _ & Hgs)
      end.
      exists msg, st'. rewrite Hmsgs, Hgs. simpl. by rewrite !lookup_insert_eq.
Qed.

Lemma notification_failure_is_surfaced_witness :
  last (outbox (exec (on env_no_notifications socket_a1
                        (send_event (InConversation "c1") hi_c1)) (boot st0))) =
    Some (SocketEmit (socket_id socket_a1) (EvError "Failed to send message")) ∧
  res_status (sendMessage env_no_notifications (request "a" "" hi_c1) st0).1 = 500.
Proof.
  destruct (notification_failure_is_surfaced env_no_notifications (InConversation "c1")
              "a" "b" ["a"; "b"] st0 hi_c1) as [Hsocket Hhttp];
    [reflexivity|compute_done|exact I|discriminate|discriminate|reflexivity|reflexivity
    |compute_done|discriminate|reflexivity|].
  split.
  - destruct (Hsocket socket_a1 (boot st0)) as (_ & _ & _ & H & _);
      [reflexivity|reflexivity|by split|exact H].
  - destruct (Hhttp (request "a" "" hi_c1)) as (H & _);
      [reflexivity|reflexivity|by split|exact H].
Defined.

(** C5, counterexample. No notification can be saved. Alice sends "hi"
    to the conversation: the message is saved, and then the socket handler
    ends by emitting "Failed to send message" to alice, and the HTTP
    controller answers 500 instead of 201. *)
Lemma notification_failure_fails_the_send :
  is_Some (messages (store (exec (on env_no_notifications socket_a1
                                    (MessagePrivate hi_c1)) w_online)) !! "m1") ∧
  last (emitted (on env_no_notifications socket_a1 (MessagePrivate hi_c1)) w_online) =
    Some (SocketEmit "s1" (EvError "Failed to send message")) ∧
  is_Some (messages (sendMessage env_no_notifications (request "a" "" hi_c1) st0).2
             !! "m1") ∧
  (sendMessage env_no_notifications (request "a" "" hi_c1) st0).1 =
    {| res_status := 500; res_success := false;
       res_body := BodyError "Notification save failed" |}.
Proof. split_and!; vm_compute; eauto. Qed.

(** ** A room with the sender alone *)

Lemma recipients_of_alone ids me : (∀ r, r ∈ ids → r = me) → recipients_of ids me = [].
Proof.
  intros Hall. unfold recipients_of.
  induction ids as [|x ids IH]; [done|]. rewrite filter_cons.
  rewrite decide_False by (intros Hx; apply Hx, Hall; by left).
  apply IH. intros r Hr. apply Hall. by right.
Qed.

(** C6, as the code has it. A send into a room whose members are all the
    sender: no unread counter changes and no notification is created or
    pushed, but the room's [lastMessage] becomes the new message and the
    socket handler still emits [message:new] to the room; the send
    succeeds: the message is saved, the socket handler emits no [error],
    and [POST /api/messages] answers 201 with the created message. *)
Theorem send_alone_in_room (env : Env) (room : RoomRef) (me : string)
    (ids : list string) (st : Store) (data : Payload) :
  room_members st room = Some ids → me ∈ ids → (∀ r, r ∈ ids → r = me) →
  room_saves st room →
  p_content data ≠ None → p_content data ≠ Some "" →
  message_save_rejects env = false → room_save_rejects env = false →
  let message := new_message env me (str (p_content data)) room (p_attachments data) in
  let sent (st' : Store) : Prop :=
    messages st' !! new_message_id env = Some message ∧
    room_lastMessage st' room = Some (new_message_id env) ∧
    (∀ r, room_unread st' room r = room_unread st room r) ∧
    notifications st' = notifications st in
  (∀ socket w, user_id socket = me → store w = st → names_room data room →
     sent (store (exec (on env socket (send_event room data)) w)) ∧
     emitted (on env socket (send_event room data)) w = [message_new env room message st]) ∧
  (∀ req, req_user req = me → req_body req = data → names_only data room →
     sent (sendMessage env req st).2 ∧
     (sendMessage env req st).1 =
       {| res_status := 201; res_success := true;
          res_body := BodyMessage (new_message_id env) message
                        ((λ u, (username u, avatar u)) <$> users st !! me) |}).
Proof.
  intros Hms Hme Halone Hsave Hc1 Hc2 Hm Hr. simpl. split.
  - intros socket w <- <- Hnames. unfold emitted, exec.
    destruct room as [id|id]; simpl in *.
    + destruct (conversations (store w) !! id) as [conv|] eqn:Hconv; simplify_eq/=.
      rewrite (message_private_run _ _ _ _ id conv) by done.
      unfold conversation_sent. rewrite (recipients_of_alone _ _ Halone). simpl.
      rewrite !lookup_insert_eq, drop_app_length. by simpl.
    + destruct (groups (store w) !! id) as [g|] eqn:Hg; simplify_eq/=.
      rewrite (message_group_run _ _ _ _ id g) by eauto.
      unfold group_sent. rewrite (recipients_of_alone _ _ Halone). simpl.
      rewrite !lookup_insert_eq, drop_app_length. by simpl.
  - intros req <- <- Hnames. unfold sendMessage, asyncHandler.
    destruct room as [id|id]; simpl in *.
    + destruct (conversations st !! id) as [conv|] eqn:Hconv; simplify_eq/=.
      rewrite (sendMessage_conversation_run _ _ _ id conv) by done.
      unfold conversation_sent. rewrite (recipients_of_alone _ _ Halone). simpl.
      rewrite !lookup_insert_eq. by simpl.
    + destruct (groups st !! id) as [g|] eqn:Hg; simplify_eq/=.
      rewrite (sendMessage_group_run _ _ _ id g) by eauto.
      unfold group_sent. rewrite (recipients_of_alone _ _ Halone). simpl.
      rewrite !lookup_insert_eq. by simpl.
Qed.

Lemma send_alone_in_room_witness :
  emitted (on env0 socket_a1 (send_event (InGroup "g2") hi_g2)) (boot st0) =
    [message_new env0 (InGroup "g2")
       (new_message env0 "a" (str (p_content hi_g2)) (InGroup "g2") (p_attachments hi_g2))
       st0] ∧
  (sendMessage env0 (request "a" "" hi_g2) st0).1 =
    {| res_status := 201; res_success := true;
       res_body :=
         BodyMessage (new_message_id env0)
           (new_message env0 "a" (str (p_content hi_g2)) (InGroup "g2")
              (p_attachments hi_g2))
           ((λ u, (username u, avatar u)) <$> users st0 !! "a") |}.
Proof.
  destruct (send_alone_in_room env0 (InGroup "g2") "a" ["a"] st0 hi_g2)
    as [Hsocket Hhttp];
    [reflexivity|compute_done| |by intros g [= <-]|discriminate|discriminate
    |reflexivity|reflexivity|].
  { intros r Hr. by apply list_elem_of_singleton in Hr. }
  split.
  - destruct (Hsocket socket_a1 (boot st0)) as (_ & H);
      [reflexivity|reflexivity|by split|exact H].
  - destruct (Hhttp (request "a" "" hi_g2)) as (_ & H);
      [reflexivity|reflexivity|by split|exact H].
Defined.

(** C6, counterexample. Alice is the only member of group "g2" and is
    connected on "s1" and "s2". Her send is not a no-op for the room: its
    [lastMessage], empty before, is now the new message, and [message:new]
    is emitted to the room, where her two sockets receive it. *)
Lemma send_alone_still_updates_and_delivers :
  room_members (store w_online) (InGroup "g2") = Some ["a"] ∧
  room_lastMessage (store w_online) (InGroup "g2") = None ∧
  room_lastMessage (store (exec (on env0 socket_a1 (MessageGroup hi_g2)) w_online))
    (InGroup "g2") = Some "m1" ∧
  length (emitted (on env0 socket_a1 (MessageGroup hi_g2)) w_online) = 1 ∧
  Forall (λ a, "s1" ∈ receivers (rooms w_online) a ∧ "s2" ∈ receivers (rooms w_online) a)
    (emitted (on env0 socket_a1 (MessageGroup hi_g2)) w_online).
Proof.
  split_and!; [by vm_compute..|].
  assert (emitted (on env0 socket_a1 (MessageGroup hi_g2)) w_online =
          [message_new env0 (InGroup "g2")
             (new_message env0 "a" "hi" (InGroup "g2") None) (store w_online)])
    as -> by by vm_compute.
  apply Forall_singleton. split; compute_done.
Qed.

(** ** Leaving a group *)

Lemma filter_ne_self (A B : string) :
  A ≠ B →
  filter (λ m, m ≠ A) [A; B] = [B] ∧ filter (λ m, m ≠ A) [B; A] = [B].
Proof.
  intros Hne. rewrite !filter_cons, !filter_nil.
  repeat case_decide; try done; congruence.
Qed.

Lemma find_other_two (A B : string) :
  A ≠ B → find_other A [A; B] = Some B ∧ find_other A [B; A] = Some B.
Proof.
  intros Hne. unfold find_other. simpl.
  rewrite (bool_decide_eq_true_2 (A = A)) by done.
  by rewrite (bool_decide_eq_false_2 (B = A)) by naive_solver.
Qed.

(** C7, as the code has it. In a group created by A, with admins {A} and
    members {A, B}, A leaves: the request succeeds, B is the new creator
    and the only admin, A is out of the members and of the admins, and the
    group is as active as it was; it has one member and one admin. *)
Theorem sole_admin_creator_leaves (env : Env) (req : Request) (st : Store) (g : Group)
    (A B : string) :
  groups st !! req_params_id req = Some g → req_user req = A → A ≠ B →
  creator g = A → admins g = [A] → members g = [A; B] ∨ members g = [B; A] →
  room_save_rejects env = false →
  let res := leaveGroup env req st in
  res.1 = {| res_status := 200; res_success := true;
             res_body := BodyText "You have left the group successfully" |} ∧
  ∃ g', groups res.2 !! req_params_id req = Some g' ∧
        creator g' = B ∧ admins g' = [B] ∧ members g' = [B] ∧
        isActive g' = isActive g ∧ name g' = name g ∧
        lastMessage g' = lastMessage g ∧ unreadCount g' = unreadCount g.
Proof.
  intros Hg HA Hne Hcr Had Hms Hsave.
  destruct (filter_ne_self A B Hne) as (F1 & F2).
  destruct (find_other_two A B Hne) as (O1 & O2).
  assert (includes (members g) A = true) as Hin.
  { apply bool_decide_eq_true_2. destruct Hms as [-> | ->]; set_solver. }
  assert (∃ g', leave_edits A g = Some g' ∧
            creator g' = B ∧ admins g' = [B] ∧ members g' = [B] ∧
            isActive g' = isActive g ∧ name g' = name g ∧
            lastMessage g' = lastMessage g ∧ unreadCount g' = unreadCount g)
    as (g' & Hedit & Hg').
  { assert (∀ ms : list string, 1 < length ms →
              bool_decide (length [A] = 1) && bool_decide ([A] !! 0 = Some A) &&
              bool_decide (1 < length ms) = true) as Honly.
    { intros ms Hlen. by rewrite !bool_decide_eq_true_2. }
    unfold leave_edits. rewrite Hcr, Had.
    rewrite (bool_decide_eq_true_2 (A = A)) by done.
    destruct Hms as [Hms | Hms]; rewrite Hms.
    - rewrite O1, Honly by (simpl; lia).
      simpl. rewrite Hms, Had, F1. simpl app. unfold includes.
      rewrite (bool_decide_eq_true_2 (A ∈ [A; B])) by by left.
      simpl. rewrite F1. by eexists.
    - rewrite O2, Honly by (simpl; lia).
      simpl. rewrite Hms, Had, F2. simpl app. unfold includes.
      rewrite (bool_decide_eq_true_2 (A ∈ [A; B])) by by left.
      simpl. rewrite F1. by eexists. }
  destruct Hg' as (Hc' & Ha' & Hg').
  assert (leaveGroup env req st =
            ({| res_status := 200; res_success := true;
                res_body := BodyText "You have left the group successfully" |},
             set_groups (insert (req_params_id req) g') st)) as Hrun.
  { unfold leaveGroup, asyncHandler, leaveGroup_fn, bind, Group_findById, gets.
    rewrite Hg, HA, Hin, Hedit. simpl.
    unfold Group_save. by rewrite Ha', Hsave. }
  simpl. rewrite Hrun. simpl. split; [done|].
  exists g'. by rewrite lookup_insert_eq.
Qed.

Lemma sole_admin_creator_leaves_witness :
  (leaveGroup env0 (request "a" "g1" no_data) st0).1 =
    {| res_status := 200; res_success := true;
       res_body := BodyText "You have left the group successfully" |} ∧
  ∃ g', groups (leaveGroup env0 (request "a" "g1" no_data) st0).2
          !! req_params_id (request "a" "g1" no_data) = Some g' ∧
        creator g' = "b" ∧ admins g' = ["b"] ∧ members g' = ["b"] ∧
        isActive g' = isActive group_ab ∧ name g' = name group_ab ∧
        lastMessage g' = lastMessage group_ab ∧ unreadCount g' = unreadCount group_ab.
Proof.
  apply (sole_admin_creator_leaves env0 (request "a" "g1" no_data) st0 group_ab "a" "b");
    [reflexivity|reflexivity|discriminate|reflexivity|reflexivity|by left|reflexivity].
Defined.

(** C7, counterexample. "x" created the group, made alice an admin and
    left through [leaveGroup]: the group has admins {a}, members {a, b}
    and still names "x" as creator. Now alice, its only admin, leaves with
    bob present: the save is refused by the schema's admin hook, the
    request fails with 500, and the group is as before; bob is not an
    admin. *)
Lemma sole_admin_not_creator_cannot_leave :
  (λ g, (creator g, admins g, members g)) <$> groups st_team_without_x !! "g3" =
    Some ("x", ["a"], ["a"; "b"]) ∧
  (leaveGroup env0 (request "a" "g3" no_data) st_team_without_x).1 =
    {| res_status := 500; res_success := false;
       res_body := BodyError "Group must have at least one admin" |} ∧
  (λ g, (creator g, admins g, members g))
    <$> groups (leaveGroup env0 (request "a" "g3" no_data) st_team_without_x).2 !! "g3" =
    Some ("x", ["a"], ["a"; "b"]).
Proof. split_and!; by vm_compute. Qed.

(** ** Presence ping *)

(** C9. [presence:ping] writes the [lastSeen] of the socket's user and
    nothing else: every user's [status] (and name, avatar, friends) is as
    before, other users and the other collections are untouched, the
    socket tables are untouched, and nothing is emitted. *)
Theorem presence_ping_only_lastSeen (env : Env) (socket : Socket) (w : World) :
  let w' := exec (on env socket PresencePing) w in
  outbox w' = outbox w ∧
  rooms w' = rooms w ∧ userSockets w' = userSockets w ∧
  conversations (store w') = conversations (store w) ∧
  groups (store w') = groups (store w) ∧
  messages (store w') = messages (store w) ∧
  notifications (store w') = notifications (store w) ∧
  (∀ id, status <$> users (store w') !! id = status <$> users (store w) !! id) ∧
  (∀ id, (λ u, (username u, avatar u, friends u)) <$> users (store w') !! id =
         (λ u, (username u, avatar u, friends u)) <$> users (store w) !! id) ∧
  (∀ id, id ≠ user_id socket → users (store w') !! id = users (store w) !! id) ∧
  lastSeen <$> users (store w') !! user_id socket =
    (λ _, now env) <$> users (store w) !! user_id socket.
Proof.
  simpl. unfold exec, presence_ping, try_catch, db, User_updateLastSeen, modify. simpl.
  split_and!; try done.
  - intros id. destruct (decide (user_id socket = id)) as [<-|Hne].
    + rewrite lookup_alter_eq. by destruct (users (store w) !! _).
    + by rewrite lookup_alter_ne.
  - intros id. destruct (decide (user_id socket = id)) as [<-|Hne].
    + rewrite lookup_alter_eq. by destruct (users (store w) !! _).
    + by rewrite lookup_alter_ne.
  - intros id Hne. by rewrite lookup_alter_ne.
  - rewrite lookup_alter_eq. by destruct (users (store w) !! _).
Qed.

(** ** The connection registry *)

Lemma push_all_fields l w :
  store (push_all l w) = store w ∧ rooms (push_all l w) = rooms w ∧
  userSockets (push_all l w) = userSockets w ∧ closures (push_all l w) = closures w ∧
  console (push_all l w) = console w ∧ outbox (push_all l w) = outbox w ++ l.
Proof.
  unfold push_all. revert w. induction l as [|a l IH]; intros w; simpl.
  - by rewrite app_nil_r.
  - destruct (IH (push_outbox a w)) as (-> & -> & -> & -> & -> & ->). simpl.
    by rewrite <-(assoc_L (++)).
Qed.

Lemma notify_friends_run env uid user s w :
  notify_friends env uid user s w = (Ok tt, push_all (status_broadcast env uid user s) w).
Proof.
  unfold notify_friends, status_broadcast, push_all.
  destruct user as [fs|]; simpl; [|done].
  revert w. induction fs as [|f fs IH]; intros w; simpl; [done|].
  unfold bind at 1. simpl. apply IH.
Qed.




(** State that only the connection and disconnect handlers write. *)
Section untouched.
Context {X : Type} (f : World → X).
Hypothesis f_store : ∀ g w, f (set_store g w) = f w.
Hypothesis f_outbox : ∀ a w, f (push_outbox a w) = f w.
Hypothesis f_console : ∀ l w, f (push_console l w) = f w.





End untouched.


(** ** The registry invariant *)









(** * Further properties *)

(** ** Group membership *)

Lemma asyncHandler_ok fn req st res st' :
  fn req st = (Ok res, st') → asyncHandler fn req st = (res, st').
Proof. unfold asyncHandler. by intros ->. Qed.

Lemma asyncHandler_throw fn req st e st' :
  fn req st = (Throw e, st') → asyncHandler fn req st = (errorHandler e, st').
Proof. unfold asyncHandler. by intros ->. Qed.

(** [group.save()]: either the document is written, or nothing is. *)
Lemma Group_save_cases env id g st :
  (admins g ≠ [] ∧ room_save_rejects env = false ∧
   Group_save env id g st = (Ok tt, set_groups (insert id g) st)) ∨
  (∃ msg, (admins g = [] ∨ room_save_rejects env = true) ∧
          Group_save env id g st = (Throw (OtherError msg), st)).
Proof.
  unfold Group_save. case_bool_decide as Hlen.
  - right. eexists. split; [left; by destruct (admins g)|done].
  - destruct (room_save_rejects env) eqn:Hrej.
    + right. eexists. split; [by right|done].
    + left. split_and!; [|done..]. intros Hnil. by rewrite Hnil in Hlen.
Qed.

Lemma errorHandler_other msg :
  res_status (errorHandler (OtherError msg)) = 500 ∧
  res_success (errorHandler (OtherError msg)) = false.
Proof. done. Qed.

Lemma filter_ne_subseteq (u : string) (l1 l2 : list string) :
  l1 ⊆ l2 → filter (λ x, x ≠ u) l1 ⊆ filter (λ x, x ≠ u) l2.
Proof.
  intros Hsub x [Hx Hne]%list_elem_of_filter. apply list_elem_of_filter. auto.
Qed.

Lemma filter_ne_id (u : string) (l : list string) :
  u ∉ l → filter (λ x, x ≠ u) l = l.
Proof.
  intros Hu. induction l as [|x l IH]; [done|].
  apply not_elem_of_cons in Hu as [Hne Hu].
  rewrite filter_cons, decide_True by done. by rewrite IH.
Qed.

(** [if (admins.includes(u)) admins = admins.filter(a => a !== u)] is the
    filter itself. *)
Lemma includes_filter_ne (u : string) (g : Group) :
  (if includes (admins g) u
   then group_set_admins (filter (λ x, x ≠ u) (admins g)) g else g) =
  group_set_admins (filter (λ x, x ≠ u) (admins g)) g.
Proof.
  unfold includes. case_bool_decide; [done|].
  rewrite filter_ne_id by done. by destruct g.
Qed.

(** The three edits that [leaveGroup] and [removeMember] share: the user
    is filtered out of the members and of the admins, and an empty group
    is marked inactive. *)
Lemma removal_edits u g1 :
  let g2 := group_set_members (filter (λ member, member ≠ u) (members g1)) g1 in
  let g3 := if includes (admins g2) u
            then group_set_admins (filter (λ admin, admin ≠ u) (admins g2)) g2
            else g2 in
  let g4 := if bool_decide (length (members g3) = 0) then group_set_isActive false g3
            else g3 in
  members g4 = filter (λ x, x ≠ u) (members g1) ∧
  admins g4 = filter (λ x, x ≠ u) (admins g1) ∧
  creator g4 = creator g1 ∧ name g4 = name g1 ∧ lastMessage g4 = lastMessage g1 ∧
  unreadCount g4 = unreadCount g1 ∧
  isActive g4 = (if bool_decide (filter (λ x, x ≠ u) (members g1) = [])
                 then false else isActive g1).
Proof.
  cbv zeta. rewrite includes_filter_ne. simpl.
  destruct (filter (λ x, x ≠ u) (members g1)) eqn:Hf; simpl; by rewrite ?Hf.
Qed.

(** What [leave_edits] does to the lists of a group: the leaver is
    filtered out of both, after the hand-over to the first other member
    when the leaver is the creator and the only admin. *)
Lemma leave_edits_fields me g g' :
  leave_edits me g = Some g' →
  members g' = filter (λ x, x ≠ me) (members g) ∧
  ((admins g' = filter (λ x, x ≠ me) (admins g) ∧ creator g' = creator g) ∨
   (∃ new, creator g = me ∧ admins g = [me] ∧ new ∈ members g ∧ new ≠ me ∧
           admins g' = [new] ∧ creator g' = new)).
Proof.
  unfold leave_edits.
  destruct (bool_decide (creator g = me) &&
            (bool_decide (length (admins g) = 1) && bool_decide (admins g !! 0 = Some me)
             && bool_decide (1 < length (members g)))) eqn:Hcond.
  - apply andb_true_iff in Hcond as [Hcr [[Hlen Hfirst]%andb_true_iff _]%andb_true_iff].
    apply bool_decide_eq_true_1 in Hcr, Hlen, Hfirst.
    assert (admins g = [me]) as Hadmins.
    { destruct (admins g) as [|a [|??]]; by simplify_eq/=. }
    destruct (find_other me (members g)) as [new|] eqn:Hnew; [|done].
    unfold find_other in Hnew. apply find_some in Hnew as [Hin Hother].
    apply negb_true_iff, bool_decide_eq_false_1 in Hother.
    apply list_elem_of_In in Hin.
    intros [= <-].
    destruct (removal_edits me (group_promote_owner new g)) as (Hm & Ha & Hc & _).
    split; [exact Hm|]. right. exists new. split_and!; [done..| |exact Hc].
    etrans; [exact Ha|]. simpl. rewrite Hadmins. simpl.
    rewrite !filter_cons, filter_nil.
    rewrite decide_False by (intros Hx; by apply Hx).
    by rewrite decide_True by done.
  - intros [= <-].
    destruct (removal_edits me g) as (Hm & Ha & Hc & _).
    split; [exact Hm|]. left. split; [exact Ha|exact Hc].
Qed.

Lemma leave_edits_ok me g g' :
  group_ok g → leave_edits me g = Some g' → admins g' ≠ [] → group_ok g'.
Proof.
  intros (Hm & Ha & Hsub & Hne) Hedit Hadm.
  destruct (leave_edits_fields me g g' Hedit)
    as (Hms & [[Has _]|(new & _ & _ & Hin & Hnew & Has & _)]).
  - unfold group_ok. rewrite Hms, Has in *.
    split_and!; [by apply NoDup_filter..| |done]. by apply filter_ne_subseteq.
  - unfold group_ok. rewrite Hms, Has.
    split_and!; [by apply NoDup_filter|apply NoDup_singleton| |done].
    intros x ->%list_elem_of_singleton. by apply list_elem_of_filter.
Qed.

(** Each of the five single-write controllers either throws with the
    store as it was, or saves one edited group document and answers 200. *)
Lemma leaveGroup_cases env req st :
  (∃ e, leaveGroup_fn env req st = (Throw e, st)) ∨
  (∃ g g', groups st !! req_params_id req = Some g ∧ req_user req ∈ members g ∧
           leave_edits (req_user req) g = Some g' ∧ admins g' ≠ [] ∧
           leaveGroup_fn env req st =
             (Ok (ok_text "You have left the group successfully"),
              set_groups (insert (req_params_id req) g') st)).
Proof.
  unfold leaveGroup_fn, bind, Group_findById, gets.
  destruct (groups st !! req_params_id req) as [g|] eqn:Hg; [|left; by eexists].
  unfold includes. case_bool_decide as Hin; simpl; [|left; by eexists].
  destruct (leave_edits (req_user req) g) as [g'|] eqn:Hedit; [|left; by eexists].
  destruct (Group_save_cases env (req_params_id req) g' st)
    as [(Hadm & _ & ->)|(msg & _ & ->)]; [|left; by eexists].
  right. by exists g, g'.
Qed.

Lemma removeMember_cases env userId req st :
  (∃ e, removeMember_fn env userId req st = (Throw e, st)) ∨
  (∃ g g', groups st !! req_params_id req = Some g ∧ userId ∈ members g ∧
           (req_user req ∈ admins g ∨ req_user req = userId) ∧
           (creator g = userId → req_user req = userId) ∧
           members g' = filter (λ x, x ≠ userId) (members g) ∧
           admins g' = filter (λ x, x ≠ userId) (admins g) ∧
           creator g' = creator g ∧ admins g' ≠ [] ∧
           removeMember_fn env userId req st =
             (Ok (ok_text "Member removed successfully"),
              set_groups (insert (req_params_id req) g') st)).
Proof.
  unfold removeMember_fn, bind, Group_findById, gets.
  destruct (groups st !! req_params_id req) as [g|] eqn:Hg; [|left; by eexists].
  destruct (includes (members g) userId) eqn:Hin; simpl; [|left; by eexists].
  destruct (negb (includes (admins g) (req_user req)) &&
            negb (bool_decide (req_user req = userId))) eqn:Hperm;
    [left; by eexists|].
  destruct (bool_decide (creator g = userId) &&
            negb (bool_decide (req_user req = userId))) eqn:Hcreator;
    [left; by eexists|].
  destruct (includes (admins g) (req_user req) && bool_decide (length (admins g) = 1) &&
            bool_decide (admins g !! 0 = Some userId) &&
            bool_decide (1 < length (members g))); [left; by eexists|].
  destruct (removal_edits userId g) as (Hm & Ha & Hc & _).
  match goal with |- context [Group_save env ?i ?g' st] =>
    destruct (Group_save_cases env i g' st) as [(Hadm & _ & ->)|(msg & _ & ->)];
      [|left; by eexists];
    right; exists g, g'
  end.
  split_and!; [done| | | |exact Hm|exact Ha|exact Hc|exact Hadm|done].
  - by apply bool_decide_eq_true_1 in Hin.
  - apply andb_false_iff in Hperm as [Hp|Hp]; apply negb_false_iff in Hp.
    + left. by apply bool_decide_eq_true_1 in Hp.
    + right. by apply bool_decide_eq_true_1 in Hp.
  - intros Hcr. apply andb_false_iff in Hcreator as [Hp|Hp].
    + by apply bool_decide_eq_false_1 in Hp.
    + apply negb_false_iff in Hp. by apply bool_decide_eq_true_1 in Hp.
Qed.

Lemma makeAdmin_cases env userId req st :
  (∃ e, makeAdmin_fn env userId req st = (Throw e, st)) ∨
  (∃ g, groups st !! req_params_id req = Some g ∧ (userId ∉ admins g) ∧
        req_user req ∈ admins g ∧ userId ∈ members g ∧
        makeAdmin_fn env userId req st =
          (Ok (ok_text "User promoted to admin successfully"),
           set_groups (insert (req_params_id req)
                         (group_set_admins (admins g ++ [userId]) g)) st)).
Proof.
  unfold makeAdmin_fn, bind, Group_findById, gets.
  destruct (groups st !! req_params_id req) as [g|] eqn:Hg; [|left; by eexists].
  unfold includes. simpl.
  case_bool_decide as H1; [left; by eexists|].
  case_bool_decide as H2; simpl; [|left; by eexists].
  case_bool_decide as H3; simpl; [|left; by eexists].
  match goal with |- context [Group_save env ?i ?g' st] =>
    destruct (Group_save_cases env i g' st) as [(Hadm & _ & ->)|(msg & _ & ->)];
      [|left; by eexists]
  end.
  right. by exists g.
Qed.

Lemma removeAdmin_cases env userId req st :
  (∃ e, removeAdmin_fn env userId req st = (Throw e, st)) ∨
  (∃ g, groups st !! req_params_id req = Some g ∧ req_user req ∈ admins g ∧
        creator g ≠ userId ∧ userId ∈ admins g ∧ req_user req ≠ userId ∧
        removeAdmin_fn env userId req st =
          (Ok (ok_text "Admin status removed successfully"),
           set_groups (insert (req_params_id req)
                         (group_set_admins (filter (λ x, x ≠ userId) (admins g)) g))
             st)).
Proof.
  unfold removeAdmin_fn, bind, Group_findById, gets.
  destruct (groups st !! req_params_id req) as [g|] eqn:Hg; [|left; by eexists].
  unfold includes. simpl.
  case_bool_decide as H1; simpl; [|left; by eexists].
  case_bool_decide as H2; [left; by eexists|].
  case_bool_decide as H3; simpl; [|left; by eexists].
  case_bool_decide as H4; [left; by eexists|].
  match goal with |- context [Group_save env ?i ?g' st] =>
    destruct (Group_save_cases env i g' st) as [(Hadm & _ & ->)|(msg & _ & ->)];
      [|left; by eexists]
  end.
  right. by exists g.
Qed.

Lemma deleteGroup_cases env req st :
  (∃ e, deleteGroup_fn env req st = (Throw e, st)) ∨
  (∃ g, groups st !! req_params_id req = Some g ∧ creator g = req_user req ∧
        deleteGroup_fn env req st =
          (Ok (ok_text "Group deleted successfully"),
           set_groups (insert (req_params_id req) (group_set_isActive false g)) st)).
Proof.
  unfold deleteGroup_fn, bind, Group_findById, gets.
  destruct (groups st !! req_params_id req) as [g|] eqn:Hg; [|left; by eexists].
  case_bool_decide as H1; simpl; [|left; by eexists].
  match goal with |- context [Group_save env ?i ?g' st] =>
    destruct (Group_save_cases env i g' st) as [(Hadm & _ & ->)|(msg & _ & ->)];
      [|left; by eexists]
  end.
  right. by exists g.
Qed.

Lemma groups_ok_insert st id g :
  groups_ok st → group_ok g → groups_ok (set_groups (insert id g) st).
Proof.
  intros Hst Hg id' g'. simpl. destruct (decide (id = id')) as [<-|Hne].
  - rewrite lookup_insert_eq. by intros [= <-].
  - rewrite lookup_insert_ne by done. apply Hst.
Qed.

(** Counting the listed users that exist gives the length of the list
    exactly when the list has no duplicate and every listed user exists. *)
Lemma size_list_to_set_le (l : list string) :
  size (list_to_set l : gset string) ≤ length l ∧
  (size (list_to_set l : gset string) = length l → NoDup l).
Proof.
  induction l as [|x l [IHle IHeq]]; simpl.
  - split; [done|constructor].
  - destruct (decide (x ∈ l)) as [Hin|Hnin].
    + assert ({[x]} ∪ list_to_set l = (list_to_set l : gset string)) as ->.
      { apply subseteq_union_1_L, singleton_subseteq_l.
        by apply elem_of_list_to_set. }
      split; lia.
    + rewrite size_union
        by (apply disjoint_singleton_l; by rewrite elem_of_list_to_set).
      rewrite size_singleton.
      split; [lia|]. intros Heq. constructor; [done|]. apply IHeq. lia.
Qed.

Lemma count_users_all st ids :
  count_users st ids = length ids ↔
  NoDup ids ∧ ∀ id, id ∈ ids → is_Some (users st !! id).
Proof.
  unfold count_users. destruct (size_list_to_set_le ids) as [Hle Hnd]. split.
  - intros Hcount.
    assert (size (dom (users st) ∩ list_to_set ids : gset string)
            ≤ size (list_to_set ids : gset string)) as Hsub
      by apply subseteq_size, intersection_subseteq_r.
    assert (size (list_to_set ids : gset string) = length ids) as Hsize by lia.
    split; [by apply Hnd|]. intros id Hid. apply elem_of_dom.
    assert (dom (users st) ∩ list_to_set ids = (list_to_set ids : gset string)) as Heq.
    { apply leibniz_equiv, set_subseteq_size_equiv;
        [apply intersection_subseteq_r|lia]. }
    assert (id ∈ dom (users st) ∩ (list_to_set ids : gset string)) as Hin
      by (rewrite Heq; by apply elem_of_list_to_set).
    by apply elem_of_intersection in Hin as [? _].
  - intros [Hnodup Hall].
    assert (dom (users st) ∩ list_to_set ids = (list_to_set ids : gset string)) as ->.
    { apply leibniz_equiv. apply set_equiv. intros id.
      rewrite elem_of_intersection, elem_of_dom, elem_of_list_to_set.
      split; [by intros [_ ?]|]. intros Hid. split; [by apply Hall|done]. }
    by apply size_list_to_set.
Qed.

Lemma unique_from_spec ids : ∀ seen,
  NoDup (unique_from seen ids) ∧
  ∀ x, x ∈ unique_from seen ids ↔ x ∈ ids ∧ x ∉ seen.
Proof.
  induction ids as [|id ids IH]; intros seen; simpl.
  - split; [constructor|]. intros x. rewrite elem_of_nil. tauto.
  - case_bool_decide as Hseen.
    + destruct (IH seen) as [Hnd Hmem]. split; [done|].
      intros x. rewrite Hmem, elem_of_cons. split; [tauto|].
      intros [[->|Hx] Hn]; [done|tauto].
    + destruct (IH (id :: seen)) as [Hnd Hmem]. split.
      * constructor; [|done]. rewrite Hmem, elem_of_cons. tauto.
      * intros x. rewrite elem_of_cons, Hmem, !elem_of_cons.
        destruct (decide (x = id)) as [->|Hne]; tauto.
Qed.

Lemma unique_spec ids :
  NoDup (unique ids) ∧ ∀ x, x ∈ unique ids ↔ x ∈ ids.
Proof.
  destruct (unique_from_spec ids []) as [Hnd Hmem]. split; [done|].
  intros x. unfold unique. rewrite Hmem, elem_of_nil. tauto.
Qed.


Lemma not_yet_members_spec g ids x :
  x ∈ not_yet_members g ids ↔ x ∈ ids ∧ x ∉ members g.
Proof.
  unfold not_yet_members, includes. rewrite list_elem_of_filter.
  rewrite negb_true_iff, bool_decide_eq_false. tauto.
Qed.

Lemma invite_all_keeps {X} (f : Store → X) env me username ids group_name gid :
  (∀ st g, f (set_notifications g st) = f st) →
  keeps f (invite_all env me username ids group_name gid).
Proof.
  intros Hf. apply keeps_for_of. intros r. by apply Notification_save_keeps.
Qed.

(** [addMembers] up to its notification loop. *)
Lemma addMembers_cases env username new_members req st :
  (∃ e, addMembers_fn env username new_members req st = (Throw e, st)) ∨
  (∃ ids g, new_members = Some ids ∧ groups st !! req_params_id req = Some g ∧
     req_user req ∈ admins g ∧ NoDup ids ∧ (∀ i, i ∈ ids → is_Some (users st !! i)) ∧
     not_yet_members g ids ≠ [] ∧ admins g ≠ [] ∧ room_save_rejects env = false ∧
     addMembers_fn env username new_members req st =
       addMembers_tail env (req_user req) username (req_params_id req)
         (group_set_members (members g ++ not_yet_members g ids) g)
         (not_yet_members g ids)
         (set_groups
            (insert (req_params_id req)
               (group_set_members (members g ++ not_yet_members g ids) g)) st)).
Proof.
  unfold addMembers_fn, bind, Group_findById, gets.
  destruct new_members as [ids|]; [|left; by eexists].
  case_bool_decide as Hlen; [left; by eexists|].
  destruct (groups st !! req_params_id req) as [g|] eqn:Hg; [|left; by eexists].
  destruct (includes (admins g) (req_user req)) eqn:Hadmin; simpl; [|left; by eexists].
  case_bool_decide as Hcount; simpl; [|left; by eexists].
  case_bool_decide as Hnew; [left; by eexists|].
  apply count_users_all in Hcount as [Hnd Hall].
  match goal with |- context [Group_save env ?i ?g' st] =>
    destruct (Group_save_cases env i g' st) as [(Hadm & Hrej & ->)|(msg & _ & ->)];
      [|left; by eexists]
  end.
  right. exists ids, g. split_and!; try done.
  - by apply bool_decide_eq_true_1 in Hadmin.
  - intros Hnil. by rewrite Hnil in Hnew.
Qed.

Lemma addMembers_tail_keeps {X} (f : Store → X) env me username id g' new :
  (∀ st g, f (set_notifications g st) = f st) →
  keeps f (addMembers_tail env me username id g' new).
Proof.
  intros Hf. apply keeps_bind; [by apply invite_all_keeps|]. intros _.
  by apply keeps_bind.
Qed.

Lemma createGroup_tail_keeps {X} (f : Store → X) env me username gid g :
  (∀ st g, f (set_notifications g st) = f st) →
  keeps f (createGroup_tail env me username gid g).
Proof.
  intros Hf. apply keeps_bind; [done|]. intros view.
  apply keeps_bind; [by apply invite_all_keeps|done].
Qed.

(** The document [createGroup] hands to [Group.create]. *)
Lemma group_new_hooks_creator me group_name ms :
  me ∈ ms →
  group_new_hooks {| name := group_name; creator := me; members := ms; admins := [me];
                     lastMessage := None; unreadCount := ∅; isActive := true |} =
  {| name := group_name; creator := me; members := ms; admins := [me];
     lastMessage := None; unreadCount := ∅; isActive := true |}.
Proof.
  intros Hme. unfold group_new_hooks, includes. simpl.
  rewrite (bool_decide_eq_true_2 (me ∈ [me])) by (by left). simpl.
  by rewrite bool_decide_eq_true_2.
Qed.

Lemma first_members_spec me new_members :
  NoDup (first_members me new_members) ∧ me ∈ first_members me new_members ∧
  ∀ x, x ∈ first_members me new_members ↔ x = me ∨ x ∈ default [] new_members.
Proof.
  destruct new_members as [ids|]; simpl.
  - destruct (unique_spec (me :: ids)) as [Hnd Hmem]. split_and!; [done| |].
    + apply Hmem. by left.
    + intros x. by rewrite Hmem, elem_of_cons.
  - split_and!; [apply NoDup_singleton|by left|].
    intros x. rewrite list_elem_of_singleton, elem_of_nil. tauto.
Qed.

(** [createGroup] up to its populate and notification loop. *)
Lemma createGroup_cases env gid username group_name new_members req st :
  let g0 := {| name := group_name; creator := req_user req;
               members := first_members (req_user req) new_members;
               admins := [req_user req]; lastMessage := None; unreadCount := ∅;
               isActive := true |} in
  (∃ e, createGroup_fn env gid username group_name new_members req st = (Throw e, st)) ∨
  (room_save_rejects env = false ∧
   (∀ ids, new_members = Some ids →
           NoDup ids ∧ ∀ i, i ∈ ids → is_Some (users st !! i)) ∧
   createGroup_fn env gid username group_name new_members req st =
     createGroup_tail env (req_user req) username gid g0
       (set_groups (insert gid g0) st)).
Proof.
  simpl. destruct (first_members_spec (req_user req) new_members) as (_ & Hme & _).
  unfold createGroup_fn, Group_create.
  rewrite (group_new_hooks_creator _ _ _ Hme).
  unfold bind, gets.
  assert (∀ st', (let (r, s') := Group_save env gid
                     {| name := group_name; creator := req_user req;
                        members := first_members (req_user req) new_members;
                        admins := [req_user req]; lastMessage := None;
                        unreadCount := ∅; isActive := true |} st' in
                  match r with
                  | Ok _ => (Ok tt, s') | Throw e => (Throw e, s')
                  end) = Group_save env gid
                     {| name := group_name; creator := req_user req;
                        members := first_members (req_user req) new_members;
                        admins := [req_user req]; lastMessage := None;
                        unreadCount := ∅; isActive := true |} st') as Hsame.
  { intros st'. by destruct (Group_save _ _ _ _) as [[[]|?] ?]. }
  match goal with |- context [Group_save env gid ?g'] =>
    destruct (Group_save_cases env gid g' st) as [(_ & Hrej & Hsave)|(msg & _ & Hsave)]
  end.
  - destruct new_members as [ids|]; simpl in *.
    + case_bool_decide as Hlen; simpl.
      * case_bool_decide as Hcount; simpl; [|left; by eexists].
        unfold ret. rewrite Hsave. simpl. right. split_and!; [done| |done].
        intros ? [= <-]. by apply count_users_all.
      * unfold ret. rewrite Hsave. simpl. right. split_and!; [done| |done].
        intros ? [= <-]. destruct ids; [|simpl in Hlen; lia].
        split; [constructor|]. intros i Hi. by apply elem_of_nil in Hi.
    + unfold ret. rewrite Hsave. simpl. right. by split_and!.
  - left. destruct new_members as [ids|]; simpl in *.
    + case_bool_decide as Hlen; simpl.
      * case_bool_decide as Hcount; simpl; [|by eexists].
        unfold ret. rewrite Hsave. by eexists.
      * unfold ret. rewrite Hsave. by eexists.
    + unfold ret. rewrite Hsave. by eexists.
Qed.

Lemma asyncHandlerOf_store {A} (fn : Request → M Store A) req st :
  (asyncHandlerOf fn req st).2 = (fn req st).2.
Proof. unfold asyncHandlerOf. by destruct (fn req st) as [[?|?] ?]. Qed.

Lemma groups_ok_same st st' : groups st' = groups st → groups_ok st → groups_ok st'.
Proof. unfold groups_ok. by intros ->. Qed.

(** X1. Well-formed groups stay well-formed under every group controller:
    no member or admin is ever listed twice, every admin is a member, and
    no group is left without an admin. *)
Theorem group_controllers_keep_groups_well_formed (env : Env) (req : Request)
    (st : Store) (userId username gid group_name : string)
    (new_members : option (list string)) :
  groups_ok st →
  groups_ok (leaveGroup env req st).2 ∧
  groups_ok (removeMember env userId req st).2 ∧
  groups_ok (makeAdmin env userId req st).2 ∧
  groups_ok (removeAdmin env userId req st).2 ∧
  groups_ok (deleteGroup env req st).2 ∧
  groups_ok (addMembers env username new_members req st).2 ∧
  groups_ok (createGroup env gid username group_name new_members req st).2.
Proof.
  intros Hok. split_and!.
  - unfold leaveGroup. rewrite asyncHandler_store.
    destruct (leaveGroup_cases env req st)
      as [[e ->]|(g & g' & Hg & _ & Hedit & Hadm & ->)]; [done|].
    apply groups_ok_insert; [done|]. eapply leave_edits_ok; eauto.
  - unfold removeMember. rewrite asyncHandler_store.
    destruct (removeMember_cases env userId req st)
      as [[e ->]|(g & g' & Hg & _ & _ & _ & Hm & Ha & _ & Hadm & ->)]; [done|].
    apply groups_ok_insert; [done|].
    destruct (Hok _ _ Hg) as (Hnm & Hna & Hsub & _). unfold group_ok.
    rewrite Hm, Ha in *.
    split_and!; [by apply NoDup_filter..|by apply filter_ne_subseteq|done].
  - unfold makeAdmin. rewrite asyncHandler_store.
    destruct (makeAdmin_cases env userId req st)
      as [[e ->]|(g & Hg & Hnot & _ & Hmem & ->)]; [done|].
    apply groups_ok_insert; [done|].
    destruct (Hok _ _ Hg) as (Hnm & Hna & Hsub & Hne). unfold group_ok. simpl.
    split_and!; [done| | |by destruct (admins g)].
    + apply NoDup_app. split_and!; [done| |apply NoDup_singleton].
      intros x Hx ->%list_elem_of_singleton. done.
    + intros x [Hx| ->%list_elem_of_singleton]%elem_of_app; [by apply Hsub|done].
  - unfold removeAdmin. rewrite asyncHandler_store.
    destruct (removeAdmin_cases env userId req st)
      as [[e ->]|(g & Hg & Hme & _ & _ & Hne & ->)]; [done|].
    apply groups_ok_insert; [done|].
    destruct (Hok _ _ Hg) as (Hnm & Hna & Hsub & _). unfold group_ok. simpl.
    split_and!; [done|by apply NoDup_filter| |].
    + intros x [_ Hx]%list_elem_of_filter. by apply Hsub.
    + intros Hnil.
      assert (req_user req ∈ filter (λ x, x ≠ userId) (admins g)) as Hin
        by by apply list_elem_of_filter.
      rewrite Hnil in Hin. by apply elem_of_nil in Hin.
  - unfold deleteGroup. rewrite asyncHandler_store.
    destruct (deleteGroup_cases env req st) as [[e ->]|(g & Hg & _ & ->)]; [done|].
    apply groups_ok_insert; [done|]. apply (Hok _ _ Hg).
  - unfold addMembers. rewrite asyncHandlerOf_store.
    destruct (addMembers_cases env username new_members req st)
      as [[e ->]|(ids & g & _ & Hg & _ & Hnd & _ & _ & _ & _ & ->)]; [done|].
    eapply groups_ok_same; [by apply (addMembers_tail_keeps groups)|].
    apply groups_ok_insert; [done|].
    destruct (Hok _ _ Hg) as (Hnm & Hna & Hsub & Hne). unfold group_ok. simpl.
    split_and!; [|done| |done].
    + apply NoDup_app. split_and!; [done| |by apply NoDup_filter].
      intros x Hx [_ Hnot]%not_yet_members_spec. done.
    + intros x Hx. apply elem_of_app. left. by apply Hsub.
  - unfold createGroup. rewrite asyncHandlerOf_store.
    destruct (createGroup_cases env gid username group_name new_members req st)
      as [[e ->]|(_ & _ & ->)]; [done|].
    eapply groups_ok_same; [by apply (createGroup_tail_keeps groups)|].
    apply groups_ok_insert; [done|].
    destruct (first_members_spec (req_user req) new_members) as (Hnd & Hme & _).
    unfold group_ok. simpl. split_and!; [done|apply NoDup_singleton| |done].
    by intros x ->%list_elem_of_singleton.
Qed.

Lemma st0_groups_ok : groups_ok st0.
Proof.
  intros id g Hg. unfold st0 in Hg. simpl in Hg.
  apply lookup_insert_Some in Hg as [[_ <-]|[_ Hg]].
  - split_and!; [compute_done..| |done].
    intros x Hx%list_elem_of_In. apply list_elem_of_In. simpl in *. tauto.
  - apply lookup_singleton_Some in Hg as [_ <-].
    split_and!; [compute_done..| |done].
    intros x Hx%list_elem_of_In. apply list_elem_of_In. simpl in *. tauto.
Qed.

Lemma group_controllers_keep_groups_well_formed_witness :
  groups_ok (leaveGroup env0 (on_id "a" "g1") st0).2 ∧
  groups_ok (addMembers env0 "alice" (Some ["b"]) (on_id "a" "g2") st0).2.
Proof.
  destruct (group_controllers_keep_groups_well_formed env0 (on_id "a" "g1") st0
              "b" "alice" "g9" "fun" None st0_groups_ok) as (H & _).
  destruct (group_controllers_keep_groups_well_formed env0 (on_id "a" "g2") st0
              "b" "alice" "g9" "fun" (Some ["b"]) st0_groups_ok)
    as (_ & _ & _ & _ & _ & H' & _).
  by split.
Defined.

(** X2. The five controllers that write one group document answer 200 after
    the write, or fail and leave the store as it was. *)
Theorem group_write_is_all_or_nothing (env : Env) (req : Request) (st : Store)
    (userId : string) :
  let atomic (r : Response * Store) :=
    (res_status r.1 = 200 ∧ res_success r.1 = true) ∨
    (res_success r.1 = false ∧ r.2 = st) in
  atomic (leaveGroup env req st) ∧ atomic (removeMember env userId req st) ∧
  atomic (makeAdmin env userId req st) ∧ atomic (removeAdmin env userId req st) ∧
  atomic (deleteGroup env req st).
Proof.
  simpl. split_and!.
  - destruct (leaveGroup_cases env req st) as [[e He]|(g & g' & _ & _ & _ & _ & He)].
    + right. unfold leaveGroup. rewrite (asyncHandler_throw _ _ _ _ _ He). split; [by destruct e|done].
    + left. unfold leaveGroup. by rewrite (asyncHandler_ok _ _ _ _ _ He).
  - destruct (removeMember_cases env userId req st)
      as [[e He]|(g & g' & _ & _ & _ & _ & _ & _ & _ & _ & He)].
    + right. unfold removeMember. rewrite (asyncHandler_throw _ _ _ _ _ He). split; [by destruct e|done].
    + left. unfold removeMember. by rewrite (asyncHandler_ok _ _ _ _ _ He).
  - destruct (makeAdmin_cases env userId req st) as [[e He]|(g & _ & _ & _ & _ & He)].
    + right. unfold makeAdmin. rewrite (asyncHandler_throw _ _ _ _ _ He). split; [by destruct e|done].
    + left. unfold makeAdmin. by rewrite (asyncHandler_ok _ _ _ _ _ He).
  - destruct (removeAdmin_cases env userId req st)
      as [[e He]|(g & _ & _ & _ & _ & _ & He)].
    + right. unfold removeAdmin. rewrite (asyncHandler_throw _ _ _ _ _ He). split; [by destruct e|done].
    + left. unfold removeAdmin. by rewrite (asyncHandler_ok _ _ _ _ _ He).
  - destruct (deleteGroup_cases env req st) as [[e He]|(g & _ & _ & He)].
    + right. unfold deleteGroup. rewrite (asyncHandler_throw _ _ _ _ _ He). split; [by destruct e|done].
    + left. unfold deleteGroup. by rewrite (asyncHandler_ok _ _ _ _ _ He).
Qed.

(** X3. The only member of a well-formed group cannot leave it: [leaveGroup],
    and [removeMember] on oneself, both fail on the schema's admin hook
    with status 500 and leave the store as it was; the branch that marks
    an empty group inactive never gets saved. *)
Theorem last_member_cannot_leave (env : Env) (req : Request) (st : Store) (g : Group) :
  groups st !! req_params_id req = Some g → group_ok g →
  members g = [req_user req] →
  let refused :=
    ({| res_status := 500; res_success := false;
        res_body := BodyError "Group must have at least one admin" |}, st) in
  leaveGroup env req st = refused ∧
  removeMember env (req_user req) req st = refused.
Proof.
  intros Hg (Hnm & Hna & Hsub & Hne) Hms. simpl.
  assert (admins g = [req_user req]) as Has.
  { destruct (admins g) as [|a [|b l]] eqn:Ha; [done| |].
    - assert (a ∈ members g) as Hin by (apply Hsub; by left).
      rewrite Hms in Hin. by apply list_elem_of_singleton in Hin as ->.
    - assert (a ∈ members g) as Hin by (apply Hsub; by left).
      assert (b ∈ members g) as Hin' by (apply Hsub; right; by left).
      rewrite Hms in Hin, Hin'.
      apply list_elem_of_singleton in Hin as ->.
      apply list_elem_of_singleton in Hin' as ->.
      apply NoDup_cons in Hna as [Hna _]. destruct Hna. by left. }
  assert (filter (λ x, x ≠ req_user req) [req_user req] = []) as Hfilter.
  { rewrite filter_cons, filter_nil. by rewrite decide_False by (intros H; by apply H). }
  destruct (removal_edits (req_user req) g) as (_ & Ha4 & _).
  rewrite Has, Hfilter in Ha4.
  assert (∀ g4, admins g4 = [] →
            Group_save env (req_params_id req) g4 st =
              (Throw (OtherError "Group must have at least one admin"), st)) as Hsave.
  { intros g4 Hnil. unfold Group_save. by rewrite Hnil. }
  split.
  - unfold leaveGroup.
    apply (asyncHandler_throw _ _ _ (OtherError "Group must have at least one admin")).
    unfold leaveGroup_fn, bind, Group_findById, gets. rewrite Hg.
    unfold includes at 1. rewrite bool_decide_eq_true_2 by (rewrite Hms; by left).
    simpl.
    assert (leave_edits (req_user req) g ≠ None) as Hsome.
    { unfold leave_edits. rewrite Hms.
      rewrite (bool_decide_eq_false_2 (1 < length [req_user req])) by (simpl; lia).
      by rewrite !andb_false_r. }
    destruct (leave_edits (req_user req) g) as [g'|] eqn:Hedit; [|done].
    destruct (leave_edits_fields _ _ _ Hedit)
      as (_ & [[Ha' _]|(new & _ & _ & Hin & Hnew & _)]).
    + rewrite Has, Hfilter in Ha'. by rewrite (Hsave g' Ha').
    + rewrite Hms in Hin. by apply list_elem_of_singleton in Hin.
  - unfold removeMember.
    apply (asyncHandler_throw _ _ _ (OtherError "Group must have at least one admin")).
    unfold removeMember_fn, bind, Group_findById, gets. rewrite Hg. cbv zeta.
    assert (includes (members g) (req_user req) = true) as ->
      by (apply bool_decide_eq_true_2; rewrite Hms; by left).
    rewrite (bool_decide_eq_true_2 (req_user req = req_user req)) by done.
    assert (bool_decide (1 < length (members g)) = false) as ->
      by (apply bool_decide_eq_false_2; rewrite Hms; simpl; lia).
    cbn [negb andb]. rewrite !andb_false_r.
    erewrite Hsave; [done|exact Ha4].
Qed.

Lemma last_member_cannot_leave_witness :
  leaveGroup env0 (on_id "a" "g2") st0 =
    ({| res_status := 500; res_success := false;
        res_body := BodyError "Group must have at least one admin" |}, st0) ∧
  removeMember env0 (req_user (on_id "a" "g2")) (on_id "a" "g2") st0 =
    ({| res_status := 500; res_success := false;
        res_body := BodyError "Group must have at least one admin" |}, st0).
Proof.
  apply (last_member_cannot_leave env0 (on_id "a" "g2") st0 group_solo);
    [reflexivity| |reflexivity].
  apply (st0_groups_ok "g2"). reflexivity.
Defined.

Lemma edit_keeps_dom id g g' st :
  groups st !! id = Some g →
  dom (groups (set_groups (insert id g') st)) = dom (groups st).
Proof.
  intros Hg. simpl. rewrite dom_insert_L.
  apply subseteq_union_1_L, singleton_subseteq_l, elem_of_dom. by eexists.
Qed.

(** X4. The group controllers never remove a group document and write
    nothing but groups and notifications: users, conversations and
    messages stay as they were, the five controllers that end in one
    [save] leave the notifications alone as well, and only [createGroup]
    adds a document, under its own id. *)
Theorem group_controllers_write_only_groups (env : Env) (req : Request)
    (st : Store) (userId username gid group_name : string)
    (new_members : option (list string)) :
  let rest (st' : Store) :=
    users st' = users st ∧ conversations st' = conversations st ∧
    messages st' = messages st in
  let edits (st' : Store) :=
    rest st' ∧ notifications st' = notifications st ∧
    dom (groups st') = dom (groups st) in
  edits (leaveGroup env req st).2 ∧
  edits (removeMember env userId req st).2 ∧
  edits (makeAdmin env userId req st).2 ∧
  edits (removeAdmin env userId req st).2 ∧
  edits (deleteGroup env req st).2 ∧
  (rest (addMembers env username new_members req st).2 ∧
   dom (groups (addMembers env username new_members req st).2) = dom (groups st)) ∧
  (rest (createGroup env gid username group_name new_members req st).2 ∧
   dom (groups st) ⊆ dom (groups (createGroup env gid username group_name new_members
                                    req st).2) ∧
   dom (groups (createGroup env gid username group_name new_members req st).2)
     ⊆ {[gid]} ∪ dom (groups st)).
Proof.
  cbv zeta. refine (conj _ (conj _ (conj _ (conj _ (conj _ (conj _ _)))))).
  - unfold leaveGroup. rewrite asyncHandler_store.
    destruct (leaveGroup_cases env req st) as [[e ->]|(g & g' & Hg & _ & _ & _ & ->)];
      [done|].
    split_and!; try done. by eapply edit_keeps_dom.
  - unfold removeMember. rewrite asyncHandler_store.
    destruct (removeMember_cases env userId req st)
      as [[e ->]|(g & g' & Hg & _ & _ & _ & _ & _ & _ & _ & ->)]; [done|].
    split_and!; try done. by eapply edit_keeps_dom.
  - unfold makeAdmin. rewrite asyncHandler_store.
    destruct (makeAdmin_cases env userId req st) as [[e ->]|(g & Hg & _ & _ & _ & ->)];
      [done|].
    split_and!; try done. by eapply edit_keeps_dom.
  - unfold removeAdmin. rewrite asyncHandler_store.
    destruct (removeAdmin_cases env userId req st)
      as [[e ->]|(g & Hg & _ & _ & _ & _ & ->)]; [done|].
    split_and!; try done. by eapply edit_keeps_dom.
  - unfold deleteGroup. rewrite asyncHandler_store.
    destruct (deleteGroup_cases env req st) as [[e ->]|(g & Hg & _ & ->)]; [done|].
    split_and!; try done. by eapply edit_keeps_dom.
  - unfold addMembers. rewrite asyncHandlerOf_store.
    destruct (addMembers_cases env username new_members req st)
      as [[e ->]|(ids & g & _ & Hg & _ & _ & _ & _ & _ & _ & ->)]; [done|].
    split_and!.
    + by rewrite (addMembers_tail_keeps users).
    + by rewrite (addMembers_tail_keeps conversations).
    + by rewrite (addMembers_tail_keeps messages).
    + rewrite (addMembers_tail_keeps groups) by done. by eapply edit_keeps_dom.
  - unfold createGroup. rewrite asyncHandlerOf_store.
    destruct (createGroup_cases env gid username group_name new_members req st)
      as [[e ->]|(_ & _ & ->)].
    { split_and!; try done. simpl. apply union_subseteq_r. }
    split_and!.
    + by rewrite (createGroup_tail_keeps users).
    + by rewrite (createGroup_tail_keeps conversations).
    + by rewrite (createGroup_tail_keeps messages).
    + rewrite (createGroup_tail_keeps groups) by done. simpl.
      rewrite dom_insert_L. apply union_subseteq_r.
    + rewrite (createGroup_tail_keeps groups) by done. simpl.
      by rewrite dom_insert_L.
Qed.

(** X5. A promotion can be taken back: after a [makeAdmin] that succeeded,
    [removeAdmin] by the same admin on the same user succeeds and the
    store is what it was before the promotion (the admins are in their
    old order again; timestamps are not part of the model), unless the
    promoted user is the group's creator. *)
Theorem demote_undoes_promote (env : Env) (userId : string) (req : Request)
    (st : Store) (g : Group) :
  groups st !! req_params_id req = Some g → creator g ≠ userId →
  res_success (makeAdmin env userId req st).1 = true →
  removeAdmin env userId req (makeAdmin env userId req st).2 =
    (ok_text "Admin status removed successfully", st).
Proof.
  intros Hg Hcr Hok. unfold makeAdmin in *.
  destruct (makeAdmin_cases env userId req st)
    as [[e He]|(g0 & Hg0 & Hnot & Hme & Hmem & He)].
  { rewrite (asyncHandler_throw _ _ _ _ _ He) in Hok. by destruct e. }
  rewrite (asyncHandler_ok _ _ _ _ _ He). simplify_eq.
  unfold removeAdmin. 
  assert (room_save_rejects env = false) as Henv.
  { unfold makeAdmin_fn, bind, Group_findById, gets in He. rewrite Hg in He.
    unfold includes in He. simpl in He.
    rewrite bool_decide_eq_false_2, (bool_decide_eq_true_2 (req_user req ∈ _)),
      (bool_decide_eq_true_2 (userId ∈ _)) in He by done.
    simpl in He. unfold Group_save in He. simpl in He.
    case_bool_decide; [done|]. by destruct (room_save_rejects env). }
  assert (filter (λ x, x ≠ userId) (admins g ++ [userId]) = admins g) as Hfilter.
  { rewrite filter_app, filter_cons, filter_nil.
    rewrite decide_False by (intros H; by apply H).
    rewrite app_nil_r. apply filter_ne_id. done. }
  apply asyncHandler_ok.
  unfold removeAdmin_fn, bind, Group_findById, gets. simpl.
  rewrite lookup_insert_eq. unfold includes. simpl.
  rewrite (bool_decide_eq_true_2 (req_user req ∈ _))
    by (apply elem_of_app; by left).
  rewrite (bool_decide_eq_false_2 (creator g = userId)) by done.
  rewrite (bool_decide_eq_true_2 (userId ∈ _))
    by (apply elem_of_app; right; by left).
  rewrite (bool_decide_eq_false_2 (req_user req = userId)) by (intros Heq; by rewrite Heq in Hme).
  simpl. rewrite Hfilter. unfold Group_save. simpl.
  rewrite bool_decide_eq_false_2
    by (intros Hlen; destruct (admins g); [by apply elem_of_nil in Hme|done]).
  rewrite Henv. unfold modify, set_groups. simpl.
  rewrite insert_insert_eq.
  replace (group_set_admins (admins g) (group_set_admins (admins g ++ [userId]) g))
    with g by (by destruct g).
  rewrite insert_id by done. by destruct st.
Qed.

Lemma demote_undoes_promote_witness :
  removeAdmin env0 "b" (on_id "a" "g1") (makeAdmin env0 "b" (on_id "a" "g1") st0).2 =
    (ok_text "Admin status removed successfully", st0).
Proof.
  apply (demote_undoes_promote env0 "b" (on_id "a" "g1") st0 group_ab);
    [reflexivity|discriminate|reflexivity].
Defined.

Lemma leave_edits_isActive me g b :
  leave_edits me (group_set_isActive b g) =
    (λ g', group_set_isActive (if bool_decide (filter (λ x, x ≠ me) (members g) = [])
                               then false else b) g') <$> leave_edits me g.
Proof.
  unfold leave_edits. simpl.
  destruct (bool_decide (creator g = me) &&
            (bool_decide (length (admins g) = 1) && bool_decide (admins g !! 0 = Some me)
             && bool_decide (1 < length (members g)))); simpl.
  - destruct (find_other me (members g)) as [new|]; simpl; [|done].
    unfold includes. simpl.
    destruct (filter (λ x, x ≠ me) (members g)) eqn:Hf;
      repeat (case_bool_decide; simpl in * ); by rewrite ?Hf.
  - unfold includes. simpl.
    destruct (filter (λ x, x ≠ me) (members g)) eqn:Hf;
      repeat (case_bool_decide; simpl in * ); by rewrite ?Hf.
Qed.

(** X6. A delete is soft and nothing looks at it afterwards: once
    [deleteGroup] has succeeded, the group is still there with
    [isActive] false, and the member and admin controllers answer on it
    exactly as they did before the delete. A second [deleteGroup]
    succeeds again and changes nothing. *)
Theorem deleted_group_stays_editable (env : Env) (req req' : Request)
    (userId : string) (st : Store) :
  res_success (deleteGroup env req st).1 = true →
  req_params_id req' = req_params_id req →
  let st' := (deleteGroup env req st).2 in
  (isActive <$> groups st' !! req_params_id req) = Some false ∧
  (leaveGroup env req' st').1 = (leaveGroup env req' st).1 ∧
  (removeMember env userId req' st').1 = (removeMember env userId req' st).1 ∧
  (makeAdmin env userId req' st').1 = (makeAdmin env userId req' st).1 ∧
  (removeAdmin env userId req' st').1 = (removeAdmin env userId req' st).1 ∧
  deleteGroup env req st' = (ok_text "Group deleted successfully", st').
Proof.
  intros Hok Hid. unfold deleteGroup in *.
  destruct (deleteGroup_cases env req st) as [[e He]|(g & Hg & Hcr & He)].
  { rewrite (asyncHandler_throw _ _ _ _ _ He) in Hok. by destruct e. }
  rewrite (asyncHandler_ok _ _ _ _ _ He). cbv zeta. cbn [snd].
  assert (admins g ≠ [] ∧ room_save_rejects env = false) as [Hadm Henv].
  { unfold deleteGroup_fn, bind, Group_findById, gets in He. rewrite Hg in He.
    rewrite bool_decide_eq_true_2 in He by done. simpl in He.
    unfold Group_save in He. simpl in He.
    case_bool_decide as Hlen; [done|]. split; [by intros Hnil; rewrite Hnil in Hlen|].
    by destruct (room_save_rejects env). }
  refine (conj _ (conj _ (conj _ (conj _ (conj _ _))))).
  - simpl. by rewrite lookup_insert_eq.
  - unfold leaveGroup, asyncHandler, leaveGroup_fn, bind, Group_findById, gets.
    rewrite Hid. simpl. rewrite lookup_insert_eq, Hg. unfold includes. simpl.
    case_bool_decide; simpl; [|done].
    rewrite leave_edits_isActive.
    destruct (leave_edits (req_user req') g) as [g'|]; simpl; [|done].
    unfold Group_save. simpl.
    case_bool_decide; [done|]. by destruct (room_save_rejects env).
  - unfold removeMember, asyncHandler, removeMember_fn, bind, Group_findById, gets.
    rewrite Hid. simpl. rewrite lookup_insert_eq, Hg. unfold includes. simpl.
    repeat (case_bool_decide; simpl; try done);
      unfold Group_save; simpl; repeat (case_bool_decide; simpl; try done);
      by destruct (room_save_rejects env).
  - unfold makeAdmin, asyncHandler, makeAdmin_fn, bind, Group_findById, gets.
    rewrite Hid. simpl. rewrite lookup_insert_eq, Hg. unfold includes. simpl.
    repeat (case_bool_decide; simpl; try done);
      unfold Group_save; simpl; repeat (case_bool_decide; simpl; try done);
      by destruct (room_save_rejects env).
  - unfold removeAdmin, asyncHandler, removeAdmin_fn, bind, Group_findById, gets.
    rewrite Hid. simpl. rewrite lookup_insert_eq, Hg. unfold includes. simpl.
    repeat (case_bool_decide; simpl; try done);
      unfold Group_save; simpl; repeat (case_bool_decide; simpl; try done);
      by destruct (room_save_rejects env).
  - apply asyncHandler_ok.
    unfold deleteGroup_fn, bind, Group_findById, gets. simpl.
    rewrite lookup_insert_eq. simpl.
    rewrite bool_decide_eq_true_2 by done. simpl.
    unfold Group_save. simpl.
    rewrite bool_decide_eq_false_2
      by (intros Hlen; destruct (admins g); [done|discriminate]).
    rewrite Henv. unfold modify, set_groups. simpl.
    by rewrite insert_insert_eq.
Qed.

Lemma deleted_group_stays_editable_witness :
  let st' := (deleteGroup env0 (on_id "a" "g1") st0).2 in
  (isActive <$> groups st' !! req_params_id (on_id "a" "g1")) = Some false ∧
  (leaveGroup env0 (on_id "b" "g1") st').1 = (leaveGroup env0 (on_id "b" "g1") st0).1 ∧
  (removeMember env0 "b" (on_id "b" "g1") st').1 =
    (removeMember env0 "b" (on_id "b" "g1") st0).1 ∧
  (makeAdmin env0 "b" (on_id "b" "g1") st').1 =
    (makeAdmin env0 "b" (on_id "b" "g1") st0).1 ∧
  (removeAdmin env0 "b" (on_id "b" "g1") st').1 =
    (removeAdmin env0 "b" (on_id "b" "g1") st0).1 ∧
  deleteGroup env0 (on_id "a" "g1") st' = (ok_text "Group deleted successfully", st').
Proof.
  apply (deleted_group_stays_editable env0 (on_id "a" "g1") (on_id "b" "g1") "b" st0);
    reflexivity.
Defined.

Lemma addMembers_tail_ok env me username id g' new st n view st' :
  addMembers_tail env me username id g' new st = (Ok (n, view), st') →
  n = length new ∧ gv_group view = g' ∧ gv_id view = id ∧ groups st' = groups st.
Proof.
  intros Hrun. split_and!.
  - unfold addMembers_tail, bind, populate_group, gets, ret in Hrun.
    destruct (invite_all _ _ _ _ _ _ st) as [[[]|e] s]; by simplify_eq/=.
  - unfold addMembers_tail, bind, populate_group, gets, ret in Hrun.
    destruct (invite_all _ _ _ _ _ _ st) as [[[]|e] s]; by simplify_eq/=.
  - unfold addMembers_tail, bind, populate_group, gets, ret in Hrun.
    destruct (invite_all _ _ _ _ _ _ st) as [[[]|e] s]; by simplify_eq/=.
  - pose proof (addMembers_tail_keeps groups env me username id g' new
                  (λ _ _, eq_refl) st) as Hk.
    by rewrite Hrun in Hk.
Qed.

(** X7. What a successful [addMembers] has done: the caller is an admin of
    the group, the listed ids are distinct existing users, and the ones
    that were not members yet are appended to the members in the order
    given; their number is the count in the answer, and it is not zero.
    Admins, creator and the other fields are those of before, and afterwards
    the members are the old ones and the listed ones. *)
Theorem addMembers_appends_new_members (env : Env) (username : string)
    (new_members : option (list string)) (req : Request) (st st' : Store)
    (n : nat) (view : GroupView) :
  addMembers env username new_members req st = (inr (n, view), st') →
  ∃ ids g,
    new_members = Some ids ∧ groups st !! req_params_id req = Some g ∧
    req_user req ∈ admins g ∧ NoDup ids ∧
    (∀ i, i ∈ ids → is_Some (users st !! i)) ∧
    n = length (not_yet_members g ids) ∧ 0 < n ∧
    groups st' = <[req_params_id req :=
                    group_set_members (members g ++ not_yet_members g ids) g]>
                   (groups st) ∧
    gv_group view = group_set_members (members g ++ not_yet_members g ids) g ∧
    ∀ x, x ∈ members (gv_group view) ↔ x ∈ members g ∨ x ∈ ids.
Proof.
  unfold addMembers, asyncHandlerOf. intros Hrun.
  destruct (addMembers_cases env username new_members req st)
    as [[e He]|(ids & g & -> & Hg & Hadm & Hnd & Hall & Hnew & _ & _ & He)].
  { by rewrite He in Hrun. }
  rewrite He in Hrun.
  destruct (addMembers_tail _ _ _ _ _ _ _) as [[[n' view']|e] st''] eqn:Htail;
    [|done].
  simplify_eq. apply addMembers_tail_ok in Htail as (-> & Hview & _ & Hgroups).
  exists ids, g. split_and!; try done.
  - destruct (not_yet_members g ids); [done|simpl; lia].
  - rewrite Hview. simpl. intros x. rewrite elem_of_app, not_yet_members_spec.
    destruct (decide (x ∈ members g)); tauto.
Qed.

Lemma addMembers_appends_new_members_witness :
  match addMembers env0 "alice" (Some ["b"]) (on_id "a" "g2") st0 with
  | (inr (n, view), st') =>
    ∃ ids g,
      Some ["b"] = Some ids ∧ groups st0 !! req_params_id (on_id "a" "g2") = Some g ∧
      req_user (on_id "a" "g2") ∈ admins g ∧ NoDup ids ∧
      (∀ i, i ∈ ids → is_Some (users st0 !! i)) ∧
      n = length (not_yet_members g ids) ∧ 0 < n ∧
      groups st' = <[req_params_id (on_id "a" "g2") :=
                      group_set_members (members g ++ not_yet_members g ids) g]>
                     (groups st0) ∧
      gv_group view = group_set_members (members g ++ not_yet_members g ids) g ∧
      ∀ x, x ∈ members (gv_group view) ↔ x ∈ members g ∨ x ∈ ids
  | _ => False
  end.
Proof.
  destruct (addMembers env0 "alice" (Some ["b"]) (on_id "a" "g2") st0)
    as [[r|[n view]] st'] eqn:Hrun; [by vm_compute in Hrun|].
  exact (addMembers_appends_new_members env0 "alice" (Some ["b"]) (on_id "a" "g2")
           st0 st' n view Hrun).
Defined.



(** X9. [addMembers] is not all-or-nothing: the group is saved before the
    invitations are written, so when the first invitation cannot be
    saved the answer is a 500 error although the new members are already
    in the stored group. No invitation has been stored. *)
Theorem failed_invitation_keeps_new_members (env : Env) (username : string)
    (ids : list string) (req : Request) (st : Store) (g : Group)
    (first : string) (others : list string) :
  groups st !! req_params_id req = Some g → req_user req ∈ admins g →
  NoDup ids → (∀ i, i ∈ ids → is_Some (users st !! i)) →
  not_yet_members g ids = first :: others →
  room_save_rejects env = false → notification_save_rejects env first = true →
  ∃ text,
    addMembers env username (Some ids) req st =
      (inl (api_error 500 text),
       set_groups (insert (req_params_id req)
                     (group_set_members (members g ++ first :: others) g)) st).
Proof.
  intros Hg Hadm Hnd Hall Hnew Hroom Hrej. eexists.
  unfold addMembers, asyncHandlerOf, addMembers_fn, bind, Group_findById, gets.
  assert (ids ≠ []) as Hne by (intros ->; done).
  rewrite bool_decide_eq_false_2 by (by destruct ids).
  rewrite Hg. unfold includes.
  rewrite (bool_decide_eq_true_2 (req_user req ∈ admins g)) by done.
  simpl. rewrite bool_decide_eq_true_2 by (by apply count_users_all).
  simpl. rewrite Hnew. simpl.
  unfold Group_save. simpl.
  rewrite bool_decide_eq_false_2
    by (destruct (admins g); [by apply elem_of_nil in Hadm|done]).
  rewrite Hroom. simpl.
  unfold addMembers_tail, bind, invite_all. simpl.
  unfold bind, Notification_save. simpl. by rewrite Hrej.
Qed.

Lemma failed_invitation_keeps_new_members_witness :
  ∃ text,
    addMembers env_no_notifications "alice" (Some ["b"]) (on_id "a" "g2") st0 =
      (inl (api_error 500 text),
       set_groups (insert (req_params_id (on_id "a" "g2"))
                     (group_set_members (members group_solo ++ "b" :: []) group_solo))
         st0).
Proof.
  apply (failed_invitation_keeps_new_members env_no_notifications "alice" ["b"]
           (on_id "a" "g2") st0 group_solo "b" []);
    [reflexivity| |apply NoDup_singleton| |reflexivity..].
  - apply list_elem_of_In. simpl. tauto.
  - intros i ->%list_elem_of_singleton. vm_compute. eauto.
Defined.

Lemma filter_iff_in {A} (P Q : A → Prop) `{!∀ x, Decision (P x), !∀ x, Decision (Q x)}
    (l : list A) :
  (∀ x, x ∈ l → P x ↔ Q x) → filter P l = filter Q l.
Proof.
  induction l as [|a l IH]; [done|]. intros Hiff.
  rewrite !filter_cons.
  rewrite IH by (intros x Hx; apply Hiff; by right).
  destruct (decide (P a)) as [HP|HP], (decide (Q a)) as [HQ|HQ]; try done.
  - destruct HQ. apply Hiff; [by left|done].
  - destruct HP. apply Hiff; [by left|done].
Qed.

(** On a list without repetition [[...new Set(ids)]] only drops what was
    seen before the list. *)
Lemma unique_from_NoDup ids : ∀ seen,
  NoDup ids → unique_from seen ids = filter (λ x, x ∉ seen) ids.
Proof.
  induction ids as [|id ids IH]; intros seen Hnd; [done|].
  apply NoDup_cons in Hnd as [Hnot Hnd]. simpl. rewrite filter_cons.
  case_bool_decide as Hseen.
  - rewrite decide_False by (intros Hno; by apply Hno). by apply IH.
  - rewrite decide_True by done. f_equal. rewrite IH by done.
    apply filter_iff_in. intros x Hx. rewrite not_elem_of_cons.
    split; [tauto|]. intros Hx'. split; [|done]. by intros ->.
Qed.

Lemma first_members_NoDup me ids :
  NoDup ids → first_members me (Some ids) = me :: filter (λ x, x ≠ me) ids.
Proof.
  intros Hnd. unfold first_members, unique. simpl. f_equal.
  rewrite unique_from_NoDup by done. apply list_filter_iff. intros x.
  rewrite not_elem_of_cons. split; [tauto|]. intros Hx. split; [done|].
  apply not_elem_of_nil.
Qed.

Lemma createGroup_tail_ok env me username gid g st view st' :
  createGroup_tail env me username gid g st = (Ok view, st') →
  gv_group view = g ∧ gv_id view = gid ∧ groups st' = groups st.
Proof.
  intros Hrun.
  pose proof (createGroup_tail_keeps groups env me username gid g (λ _ _, eq_refl) st)
    as Hk.
  rewrite Hrun in Hk. split_and!; [| |done].
  - unfold createGroup_tail, bind, populate_group, gets, ret in Hrun.
    destruct (invite_all _ _ _ _ _ _ st) as [[[]|e] s]; by simplify_eq/=.
  - unfold createGroup_tail, bind, populate_group, gets, ret in Hrun.
    destruct (invite_all _ _ _ _ _ _ st) as [[[]|e] s]; by simplify_eq/=.
Qed.

(** X10. What a successful [createGroup] has stored: the listed ids were
    distinct existing users, the new group is stored under its id and is
    the one in the answer, the caller is its creator, its first member and
    its only admin, and the other members are the listed ids in the order
    given, without the caller. Since a repeated id is turned down by the
    count check, the [Set] of the code only ever drops the caller's own
    id. *)
Theorem createGroup_result (env : Env) (gid username group_name : string)
    (new_members : option (list string)) (req : Request) (st st' : Store)
    (view : GroupView) :
  createGroup env gid username group_name new_members req st = (inr view, st') →
  NoDup (default [] new_members) ∧
  (∀ i, i ∈ default [] new_members → is_Some (users st !! i)) ∧
  gv_id view = gid ∧ groups st' !! gid = Some (gv_group view) ∧
  gv_group view =
    {| name := group_name; creator := req_user req;
       members := req_user req
                    :: filter (λ x, x ≠ req_user req) (default [] new_members);
       admins := [req_user req]; lastMessage := None; unreadCount := ∅;
       isActive := true |}.
Proof.
  unfold createGroup, asyncHandlerOf. intros Hrun.
  destruct (createGroup_cases env gid username group_name new_members req st)
    as [[e He]|(_ & Hids & He)].
  { by rewrite He in Hrun. }
  cbv zeta in He. rewrite He in Hrun.
  destruct (createGroup_tail _ _ _ _ _ _) as [[view'|e] st''] eqn:Htail; [|done].
  simplify_eq. apply createGroup_tail_ok in Htail as (Hview & Hid & Hgroups).
  assert (NoDup (default [] new_members) ∧
          ∀ i, i ∈ default [] new_members → is_Some (users st !! i)) as [Hnd Hall].
  { destruct new_members as [ids|]; simpl; [by apply Hids|].
    split; [apply NoDup_nil_2|]. by intros i ?%elem_of_nil. }
  split_and!; try done.
  - rewrite Hgroups, Hview. simpl. by rewrite lookup_insert_eq.
  - rewrite Hview. f_equal.
    destruct new_members as [ids|]; simpl; [by apply first_members_NoDup|done].
Qed.

Lemma createGroup_result_witness :
  match createGroup env0 "g9" "alice" "fun" (Some ["b"; "a"]) (on_id "a" "") st0 with
  | (inr view, st') =>
    NoDup (default [] (Some ["b"; "a"])) ∧
    (∀ i, i ∈ default [] (Some ["b"; "a"]) → is_Some (users st0 !! i)) ∧
    gv_id view = "g9" ∧ groups st' !! "g9" = Some (gv_group view) ∧
    gv_group view =
      {| name := "fun"; creator := req_user (on_id "a" "");
         members := req_user (on_id "a" "")
                      :: filter (λ x, x ≠ req_user (on_id "a" ""))
                           (default [] (Some ["b"; "a"]));
         admins := [req_user (on_id "a" "")]; lastMessage := None; unreadCount := ∅;
         isActive := true |}
  | _ => False
  end.
Proof.
  destruct (createGroup env0 "g9" "alice" "fun" (Some ["b"; "a"]) (on_id "a" "") st0)
    as [[r|view] st'] eqn:Hrun; [by vm_compute in Hrun|].
  exact (createGroup_result env0 "g9" "alice" "fun" (Some ["b"; "a"]) (on_id "a" "")
           st0 st' view Hrun).
Defined.

(** [deleteMessage] up to its answer. *)
Lemma deleteMessage_cases env req st :
  (∃ e, deleteMessage_fn env req st = (Throw e, st)) ∨
  (∃ m, messages st !! req_params_id req = Some m ∧ sender m = req_user req ∧
        message_hook_ok m = true ∧ message_save_rejects env = false ∧
        deleteMessage_fn env req st =
          (Ok (ok_text "Message deleted successfully"),
           set_messages (insert (req_params_id req) (message_soft_delete m)) st)).
Proof.
  unfold deleteMessage_fn, bind, gets.
  destruct (messages st !! req_params_id req) as [m|] eqn:Hm; [|left; by eexists].
  case_bool_decide as Hsender; simpl; [|left; by eexists].
  unfold Message_update. simpl.
  destruct (message_save_rejects env); [left; by eexists|].
  change (message_hook_ok (message_soft_delete m)) with (message_hook_ok m).
  destruct (message_hook_ok m) eqn:Hhook; simpl; [|left; by eexists].
  right. by exists m.
Qed.

(** X11. Only its sender changes a message through [deleteMessage], and only
    that message: any stored message that is not the same afterwards is
    the one named by the request, was sent by the caller and now is its
    soft-deleted form. No message is removed, and conversations, groups,
    users and notifications are untouched, so a deleted message stays
    the [lastMessage] of its room and no unread counter moves. *)
Theorem deleteMessage_by_sender_only (env : Env) (req : Request) (st : Store) :
  let st' := (deleteMessage env req st).2 in
  (∀ id m, messages st !! id = Some m → messages st' !! id ≠ Some m →
           id = req_params_id req ∧ sender m = req_user req ∧
           messages st' !! id = Some (message_soft_delete m)) ∧
  dom (messages st') = dom (messages st) ∧
  conversations st' = conversations st ∧ groups st' = groups st ∧
  users st' = users st ∧ notifications st' = notifications st.
Proof.
  cbv zeta. unfold deleteMessage. rewrite asyncHandler_store.
  destruct (deleteMessage_cases env req st)
    as [[e ->]|(m0 & Hm0 & Hsender & _ & _ & ->)]; [done|].
  simpl. split_and!; try done.
  - intros id m Hm Hne.
    destruct (decide (id = req_params_id req)) as [->|Hid].
    + simplify_eq. by rewrite lookup_insert_eq.
    + by rewrite lookup_insert_ne in Hne.
  - rewrite dom_insert_L.
    apply subseteq_union_1_L, singleton_subseteq_l, elem_of_dom. by eexists.
Qed.

(** X12. A delete keeps the message and who has read it: after a
    [deleteMessage] that succeeded the message is still stored under its
    id with the same sender, room, readers and creation time, marked
    deleted, with the placeholder text and no attachment, and deleting it
    again answers 200 and changes nothing. *)
Theorem deleteMessage_is_soft_and_repeatable (env : Env) (req : Request) (st : Store) :
  res_success (deleteMessage env req st).1 = true →
  let st' := (deleteMessage env req st).2 in
  (∃ m m', messages st !! req_params_id req = Some m ∧
           messages st' !! req_params_id req = Some m' ∧
           sender m' = sender m ∧ conversation m' = conversation m ∧
           group m' = group m ∧ readBy m' = readBy m ∧ createdAt m' = createdAt m ∧
           isDeleted m' = true ∧ attachments m' = [] ∧
           content m' = "This message has been deleted") ∧
  deleteMessage env req st' = (ok_text "Message deleted successfully", st').
Proof.
  intros Hok. unfold deleteMessage in *.
  destruct (deleteMessage_cases env req st)
    as [[e He]|(m & Hm & Hsender & Hhook & Henv & He)].
  { rewrite (asyncHandler_throw _ _ _ _ _ He) in Hok. by destruct e. }
  rewrite (asyncHandler_ok _ _ _ _ _ He). cbv zeta. cbn [snd]. split.
  - exists m, (message_soft_delete m). simpl. by rewrite lookup_insert_eq.
  - apply asyncHandler_ok.
    unfold deleteMessage_fn, bind, gets. simpl. rewrite lookup_insert_eq. simpl.
    rewrite bool_decide_eq_true_2 by done. simpl.
    unfold Message_update. simpl. rewrite Henv.
    change (message_hook_ok (message_soft_delete (message_soft_delete m)))
      with (message_hook_ok m).
    rewrite Hhook. simpl. unfold modify, set_messages. simpl.
    by rewrite insert_insert_eq.
Qed.

Lemma deleteMessage_is_soft_and_repeatable_witness :
  let st' := (deleteMessage env0 (on_id "a" "m1") st_hello).2 in
  (∃ m m', messages st_hello !! req_params_id (on_id "a" "m1") = Some m ∧
           messages st' !! req_params_id (on_id "a" "m1") = Some m' ∧
           sender m' = sender m ∧ conversation m' = conversation m ∧
           group m' = group m ∧ readBy m' = readBy m ∧ createdAt m' = createdAt m ∧
           isDeleted m' = true ∧ attachments m' = [] ∧
           content m' = "This message has been deleted") ∧
  deleteMessage env0 (on_id "a" "m1") st' = (ok_text "Message deleted successfully", st').
Proof.
  apply (deleteMessage_is_soft_and_repeatable env0 (on_id "a" "m1") st_hello).
  reflexivity.
Defined.







Lemma push_all_tables l w : tables (push_all l w) = tables w.
Proof.
  destruct (push_all_fields l w) as (_ & Hr & Hu & Hc & Hcon & _).
  unfold tables. by rewrite Hr, Hu, Hc, Hcon.
Qed.

(** [status:change] with a valid status, run to its end. *)
Lemma status_change_run env socket data s w :
  p_status data = Some s → s ∈ valid_statuses →
  status_change env socket data w =
    (Ok tt,
     push_outbox (SocketEmit (socket_id socket) (EvStatusUpdated s))
       (push_all
          (status_broadcast env (user_id socket)
             ((λ u, filter (λ f, is_Some (alter (user_set_status s (now env))
                                            (user_id socket) (users (store w)) !! f))
                      (friends u))
                <$> alter (user_set_status s (now env)) (user_id socket)
                      (users (store w)) !! user_id socket) s)
          (set_store (λ _, set_users (alter (user_set_status s (now env)) (user_id socket))
                             (store w)) w))).
Proof.
  intros Hs Hvalid. unfold status_change, try_catch. rewrite Hs.
  unfold includes. rewrite bool_decide_eq_true_2 by done. simpl.
  unfold bind, db, User_updateStatus, modify, populate_friends, gets. simpl.
  rewrite notify_friends_run. done.
Qed.

Lemma is_Some_alter {A} (f : A → A) (k k' : string) (m : gmap string A) :
  is_Some (alter f k m !! k') ↔ is_Some (m !! k').
Proof.
  destruct (decide (k = k')) as [->|Hne].
  - rewrite lookup_alter_eq. by rewrite fmap_is_Some.
  - by rewrite lookup_alter_ne.
Qed.

(** The fields of the world after a [status:change] with a valid status. *)
Lemma status_change_fields env socket data s w :
  p_status data = Some s → s ∈ valid_statuses →
  let w' := exec (status_change env socket data) w in
  outbox w' =
    outbox w ++
    ((λ friend, IoTo friend (EvUserStatus (user_id socket) s (now env)))
       <$> existing_friends (store w) (user_id socket))
    ++ [SocketEmit (socket_id socket) (EvStatusUpdated s)] ∧
  store w' = set_users (alter (user_set_status s (now env)) (user_id socket)) (store w) ∧
  tables w' = tables w.
Proof.
  intros Hs Hvalid. cbv zeta. unfold exec.
  rewrite (status_change_run env socket data s w Hs Hvalid). cbn [snd].
  match goal with |- context [push_all ?l0 ?W0] =>
    remember l0 as l eqn:Hl; remember W0 as W eqn:HW end.
  destruct (push_all_fields l W) as (Hst & _ & _ & _ & _ & Hout).
  pose proof (push_all_tables l W) as Htab.
  assert (l = (λ friend, IoTo friend (EvUserStatus (user_id socket) s (now env)))
                <$> existing_friends (store w) (user_id socket)) as Hl'.
  { rewrite Hl. unfold status_broadcast, existing_friends. f_equal.
    rewrite lookup_alter_eq.
    destruct (users (store w) !! user_id socket) as [u|]; simpl; [|done].
    apply list_filter_iff. intros f. apply is_Some_alter. }
  split_and!.
  - change (outbox (push_outbox ?a (push_all l W))) with (outbox (push_all l W) ++ [a]).
    rewrite Hout, <- Hl', HW. simpl. by rewrite app_assoc.
  - change (store (push_outbox ?a (push_all l W))) with (store (push_all l W)).
    rewrite Hst, HW. done.
  - change (tables (push_outbox ?a (push_all l W))) with (tables (push_all l W)).
    rewrite Htab, HW. done.
Qed.

(** X15. [status:change] with one of the four statuses: the caller's own user
    document gets the status and the time, and nothing else is written;
    each friend of the caller that exists is sent one [user:status] in
    its own room, in the order of the friends list, then the caller's
    socket gets [status:updated]. Nobody else hears of it, no [error] is
    emitted, and the rooms, the socket table and the console are not
    touched: the status the user sets is independent of the sockets the
    user has. *)
Theorem status_change_tells_friends (env : Env) (socket : Socket) (data : Payload)
    (s : string) (w : World) :
  p_status data = Some s → s ∈ valid_statuses →
  let uid := user_id socket in
  let w' := exec (status_change env socket data) w in
  emitted (status_change env socket data) w =
    ((λ friend, IoTo friend (EvUserStatus uid s (now env)))
       <$> existing_friends (store w) uid)
    ++ [SocketEmit (socket_id socket) (EvStatusUpdated s)] ∧
  store w' = set_users (alter (user_set_status s (now env)) uid) (store w) ∧
  tables w' = tables w.
Proof.
  intros Hs Hvalid. cbv zeta.
  destruct (status_change_fields env socket data s w Hs Hvalid) as (Hout & Hst & Htab).
  split_and!; [|done|done]. by apply emitted_app.
Qed.

Lemma status_change_tells_friends_witness :
  let uid := user_id socket_a1 in
  let w' := exec (status_change env0 socket_a1 (set_status "busy")) w_online in
  emitted (status_change env0 socket_a1 (set_status "busy")) w_online =
    ((λ friend, IoTo friend (EvUserStatus uid "busy" (now env0)))
       <$> existing_friends (store w_online) uid)
    ++ [SocketEmit (socket_id socket_a1) (EvStatusUpdated "busy")] ∧
  store w' = set_users (alter (user_set_status "busy" (now env0)) uid) (store w_online) ∧
  tables w' = tables w_online.
Proof.
  apply (status_change_tells_friends env0 socket_a1 (set_status "busy") "busy" w_online);
    [reflexivity|].
  apply list_elem_of_In. simpl. tauto.
Defined.

(** X16. A status that is not one of the four, or no status at all, is
    answered with one [error] 'Invalid status' on the caller's socket and
    changes nothing. *)
Theorem status_change_rejects_unknown_status (env : Env) (socket : Socket)
    (data : Payload) (w : World) :
  (∀ s, p_status data = Some s → s ∉ valid_statuses) →
  emitted (status_change env socket data) w =
    [SocketEmit (socket_id socket) (EvError "Invalid status")] ∧
  store (exec (status_change env socket data) w) = store w ∧
  tables (exec (status_change env socket data) w) = tables w.
Proof.
  intros Hbad. unfold emitted, exec, status_change, try_catch.
  destruct (p_status data) as [s|] eqn:Hs.
  - unfold includes. rewrite bool_decide_eq_false_2 by (by apply Hbad). simpl.
    by rewrite drop_app_length.
  - simpl. by rewrite drop_app_length.
Qed.

Lemma status_change_rejects_unknown_status_witness :
  emitted (status_change env0 socket_a1 (set_status "invisible")) w_online =
    [SocketEmit (socket_id socket_a1) (EvError "Invalid status")] ∧
  store (exec (status_change env0 socket_a1 (set_status "invisible")) w_online)
    = store w_online ∧
  tables (exec (status_change env0 socket_a1 (set_status "invisible")) w_online)
    = tables w_online.
Proof.
  apply (status_change_rejects_unknown_status env0 socket_a1 (set_status "invisible")
           w_online).
  intros s [= <-] Hin. apply list_elem_of_In in Hin. simpl in Hin.
  intuition discriminate.
Defined.

Lemma status_map_lookup st ids k :
  status_map st ids !! k =
    if bool_decide (k ∈ ids) then (λ u, (status u, lastSeen u)) <$> users st !! k
    else None.
Proof.
  unfold status_map. rewrite lookup_fmap.
  case_bool_decide as Hin.
  - destruct (users st !! k) as [u|] eqn:Hu; simpl.
    + by rewrite (map_lookup_filter_Some_2 _ _ k u).
    + rewrite map_lookup_filter_None_2; [done|]. by left.
  - rewrite map_lookup_filter_None_2; [done|]. right. intros u _. done.
Qed.


(** X18. What a user sets with [status:change] is what the others read: after
    a [status:change] with a valid status by a user that exists, a
    [presence:history] for that user from any socket reports that status
    with the time of the change, and a [status:get] that lists the user
    reports the same. *)
Theorem status_change_is_what_others_read (env : Env) (socket asker : Socket)
    (data q1 q2 : Payload) (s : string) (ids : list string) (w : World) :
  p_status data = Some s → s ∈ valid_statuses →
  is_Some (users (store w) !! user_id socket) → user_id socket ≠ "" →
  p_userId q1 = Some (user_id socket) →
  p_userIds q2 = Some ids → user_id socket ∈ ids →
  let w' := exec (status_change env socket data) w in
  emitted (presence_history asker q1) w' =
    [SocketEmit (socket_id asker) (EvPresenceHistory (user_id socket) s (now env))] ∧
  ∃ statusMap,
    emitted (status_get asker q2) w' =
      [SocketEmit (socket_id asker) (EvStatusList statusMap)] ∧
    statusMap !! user_id socket = Some (s, now env).
Proof.
  intros Hs Hvalid [u Hu] Hne Hq Hqs Hin. cbv zeta.
  destruct (status_change_fields env socket data s w Hs Hvalid) as (_ & Hstore & _).
  assert (users (store (exec (status_change env socket data) w)) !! user_id socket
          = Some (user_set_status s (now env) u)) as Hu'.
  { rewrite Hstore. simpl. by rewrite lookup_alter_eq, Hu. }
  split.
  - unfold emitted, presence_history, try_catch, falsy. rewrite Hq.
    rewrite bool_decide_eq_false_2 by done.
    unfold exec at 2. unfold bind, db, User_findById, gets. simpl.
    rewrite Hu'. simpl. by rewrite drop_app_length.
  - eexists. split.
    + unfold emitted, status_get, try_catch. rewrite Hqs.
      unfold exec at 2. unfold bind, db, gets. simpl. by rewrite drop_app_length.
    + rewrite status_map_lookup, bool_decide_eq_true_2 by done. by rewrite Hu'.
Qed.

Lemma status_change_is_what_others_read_witness :
  let w' := exec (status_change env0 socket_a1 (set_status "away")) w_online in
  emitted (presence_history socket_b1 (ask_user "a")) w' =
    [SocketEmit (socket_id socket_b1)
       (EvPresenceHistory (user_id socket_a1) "away" (now env0))] ∧
  ∃ statusMap,
    emitted (status_get socket_b1 (ask_users ["a"; "zz"])) w' =
      [SocketEmit (socket_id socket_b1) (EvStatusList statusMap)] ∧
    statusMap !! user_id socket_a1 = Some ("away", now env0).
Proof.
  apply (status_change_is_what_others_read env0 socket_a1 socket_b1
           (set_status "away") (ask_user "a") (ask_users ["a"; "zz"]) "away"
           ["a"; "zz"] w_online);
    [reflexivity| |vm_compute; eauto|discriminate|reflexivity|reflexivity|].
  - apply list_elem_of_In. simpl. tauto.
  - apply list_elem_of_In. simpl. tauto.
Defined.

Lemma socket_join_spec sid r rs room s :
  s ∈ room_sockets (socket_join sid r rs) room ↔
  s ∈ room_sockets rs room ∨ (s = sid ∧ room = r).
Proof.
  unfold socket_join, room_sockets.
  destruct (decide (room = r)) as [->|Hne].
  - rewrite lookup_insert_eq. simpl. rewrite elem_of_union, elem_of_singleton.
    unfold room_sockets. tauto.
  - rewrite lookup_insert_ne by done. intuition congruence.
Qed.

Lemma join_each_spec sid mk (ids : gset string) rs room s :
  s ∈ room_sockets (join_each sid mk ids rs) room ↔
  s ∈ room_sockets rs room ∨ (s = sid ∧ ∃ id, id ∈ ids ∧ room = mk id).
Proof.
  unfold join_each.
  apply (set_fold_ind_L
    (λ acc X, s ∈ room_sockets acc room ↔
              s ∈ room_sockets rs room ∨ (s = sid ∧ ∃ id, id ∈ X ∧ room = mk id))).
  - split; [by left|]. intros [?|(_ & id & Hin & _)]; [done|].
    by apply elem_of_empty in Hin.
  - intros x X acc Hx IH. rewrite socket_join_spec, IH. split.
    + intros [[?|(? & id & ? & ?)]|[? ?]].
      * by left.
      * right. split; [done|]. exists id. split; [|done].
        apply elem_of_union. by right.
      * right. split; [done|]. exists x. split; [|done].
        apply elem_of_union. left. by apply elem_of_singleton.
    + intros [?|(? & id & [Hid%elem_of_singleton|Hid]%elem_of_union & ?)].
      * left. by left.
      * right. by subst.
      * left. right. split; [done|]. by exists id.
Qed.

Lemma active_conversations_spec st uid c :
  c ∈ active_conversations_of st uid ↔
  ∃ conv, conversations st !! c = Some conv ∧ uid ∈ participants conv ∧
          c_isActive conv = true.
Proof.
  unfold active_conversations_of. rewrite elem_of_dom. unfold is_Some.
  split.
  - intros [conv [Hc [? ?]]%map_lookup_filter_Some]. by exists conv.
  - intros (conv & Hc & ? & ?). exists conv. by apply map_lookup_filter_Some.
Qed.

Lemma active_groups_spec st uid g :
  g ∈ active_groups_of st uid ↔
  ∃ grp, groups st !! g = Some grp ∧ uid ∈ members grp ∧ isActive grp = true.
Proof.
  unfold active_groups_of. rewrite elem_of_dom. unfold is_Some.
  split.
  - intros [grp [Hg [? ?]]%map_lookup_filter_Some]. by exists grp.
  - intros (grp & Hg & ? & ?). exists grp. by apply map_lookup_filter_Some.
Qed.

(** The world after the connection handler. *)
Lemma connection_fields env socket w :
  let uid := user_id socket in
  let sid := socket_id socket in
  let st1 := set_users (alter (user_set_status "online" (now env)) uid) (store w) in
  let w' := exec (connection env socket) w in
  store w' = st1 ∧
  rooms w' = join_each sid group_room (active_groups_of st1 uid)
               (join_each sid conversation_room (active_conversations_of st1 uid)
                  (socket_join sid uid (rooms w))) ∧
  outbox w' = outbox w ++
    ((λ friend, IoTo friend (EvUserStatus uid "online" (now env)))
       <$> existing_friends (store w) uid) ∧
  console w' = console w.
Proof.
  cbv zeta. unfold exec, connection, bind, modify, db, populate_friends, gets. simpl.
  rewrite notify_friends_run.
  match goal with |- context [push_all ?l0 ?W0] =>
    remember l0 as l eqn:Hl; remember W0 as W eqn:HW end.
  destruct (push_all_fields l W) as (Hst & Hr & _ & _ & Hcon & Hout).
  assert (l = (λ friend, IoTo friend (EvUserStatus (user_id socket) "online" (now env)))
                <$> existing_friends (store w) (user_id socket)) as Hl'.
  { rewrite Hl. unfold status_broadcast, existing_friends. f_equal.
    rewrite lookup_alter_eq.
    destruct (users (store w) !! user_id socket) as [u|]; simpl; [|done].
    apply list_filter_iff. intros f. apply is_Some_alter. }
  simpl. rewrite Hst, Hr, Hout, Hcon, <- Hl', HW. done.
Qed.

(** X19. What a connection subscribes to and announces: the new socket joins
    the room named after its user, the room of every active conversation
    the user takes part in and the room of every active group the user is
    a member of, and no other room; no other socket joins or leaves
    anything. A room that is not active, such as a group after
    [deleteGroup], is not joined. The user is written as online with the
    time of the connection, nothing else of the store changes, and each
    existing friend is sent one [user:status]. *)
Theorem connection_subscribes (env : Env) (socket : Socket) (w : World) :
  let uid := user_id socket in
  let sid := socket_id socket in
  let w' := exec (connection env socket) w in
  (∀ room s,
     s ∈ room_sockets (rooms w') room ↔
     s ∈ room_sockets (rooms w) room ∨
     (s = sid ∧
      (room = uid ∨
       (∃ c conv, room = conversation_room c ∧ conversations (store w) !! c = Some conv ∧
                  uid ∈ participants conv ∧ c_isActive conv = true) ∨
       (∃ g grp, room = group_room g ∧ groups (store w) !! g = Some grp ∧
                 uid ∈ members grp ∧ isActive grp = true)))) ∧
  store w' = set_users (alter (user_set_status "online" (now env)) uid) (store w) ∧
  emitted (connection env socket) w =
    (λ friend, IoTo friend (EvUserStatus uid "online" (now env)))
      <$> existing_friends (store w) uid.
Proof.
  cbv zeta.
  destruct (connection_fields env socket w) as (Hst & Hr & Hout & _).
  split_and!; [|done|by apply emitted_app].
  intros room s. rewrite Hr, !join_each_spec, socket_join_spec. split.
  - intros [[[?|[? ?]]|(? & c & [conv ?]%active_conversations_spec & ?)]
           |(? & g & [grp ?]%active_groups_spec & ?)].
    + by left.
    + right. split; [done|]. by left.
    + right. split; [done|]. right. left. by exists c, conv.
    + right. split; [done|]. right. right. by exists g, grp.
  - intros [?|(? & [?|[(c & conv & ? & ?)|(g & grp & ? & ?)]])].
    + left. left. by left.
    + left. left. by right.
    + left. right. split; [done|]. exists c. split; [|done].
      apply active_conversations_spec. by exists conv.
    + right. split; [done|]. exists g. split; [|done].
      apply active_groups_spec. by exists grp.
Qed.


Lemma Message_markRoomRead_lookup room reader st id :
  messages (Message_markRoomRead room reader st).2 !! id =
    (λ m, if in_room room m && negb (bool_decide (sender m = reader))
             && negb (includes (readBy m) reader)
          then mark_read_by reader m else m) <$> messages st !! id.
Proof. unfold Message_markRoomRead, modify. simpl. by rewrite lookup_fmap. Qed.




Lemma findOne_between_Some st a b id c :
  Conversation_findOne_between st a b = Some (id, c) →
  conversations st !! id = Some c ∧ between a b c.
Proof.
  unfold Conversation_findOne_between. intros Hhead%head_Some_elem_of.
  apply elem_of_map_to_list in Hhead. by apply map_lookup_filter_Some in Hhead.
Qed.

Lemma findOne_between_None st a b :
  Conversation_findOne_between st a b = None →
  ∀ id c, conversations st !! id = Some c → ¬ between a b c.
Proof.
  unfold Conversation_findOne_between. intros Hhead%head_None id c Hc Hb.
  apply map_to_list_empty_iff in Hhead.
  assert (filter (λ kv : string * Conversation, between a b kv.2) (conversations st)
            !! id = Some c) as Hin by (by apply map_lookup_filter_Some).
  rewrite Hhead in Hin. by rewrite lookup_empty in Hin.
Qed.

Lemma findOne_between_only st a b id c :
  conversations st !! id = Some c → between a b c →
  (∀ id' c', conversations st !! id' = Some c' → between a b c' → id' = id) →
  Conversation_findOne_between st a b = Some (id, c).
Proof.
  intros Hc Hb Honly. unfold Conversation_findOne_between.
  assert (filter (λ kv : string * Conversation, between a b kv.2) (conversations st)
          = {[ id := c ]}) as ->.
  { apply map_eq. intros k. destruct (decide (k = id)) as [->|Hk].
    - rewrite lookup_singleton_eq. by apply map_lookup_filter_Some.
    - rewrite lookup_singleton_ne by done.
      apply map_lookup_filter_None. destruct (conversations st !! k) as [c'|] eqn:Hc';
        [|by left].
      right. intros c'' [= <-] Hb'. apply Hk. by eapply Honly. }
  by rewrite map_to_list_singleton.
Qed.

Lemma two_participants (a b : string) (l : list string) :
  a ≠ b → a ∈ l → b ∈ l → length l = 2 → l ≡ₚ [a; b].
Proof.
  intros Hne Ha Hb Hlen. destruct l as [|x [|y [|??]]]; try done.
  apply list_elem_of_In in Ha, Hb. simpl in Ha, Hb.
  destruct Ha as [->|[->|[]]], Hb as [->|[->|[]]]; try done.
  apply Permutation_swap.
Qed.

(** [createConversation] up to its answer: an error with the store
    untouched, an existing conversation with the store untouched, or a
    new one. *)
Lemma createConversation_cases env cid p req st :
  let me := req_user req in
  let new := {| participants := [me; p]; c_lastMessage := None;
                c_unreadCount := {[ p := 0 ]}; c_isActive := true |} in
  (∃ e, createConversation_fn env cid p req st = (Throw e, st)) ∨
  (∃ id c, conversations st !! id = Some c ∧ between me p c ∧
           createConversation_fn env cid p req st = (Ok (200, id, c), st)) ∨
  (is_Some (users st !! p) ∧
   (∀ id c, conversations st !! id = Some c → ¬ between me p c) ∧
   room_save_rejects env = false ∧
   createConversation_fn env cid p req st =
     (Ok (201, cid, new), set_conversations (insert cid new) st)).
Proof.
  cbv zeta. unfold createConversation_fn, bind, User_findById, gets.
  destruct (users st !! p) as [u|] eqn:Hu; [|left; by eexists].
  destruct (Conversation_findOne_between st (req_user req) p) as [[id c]|] eqn:Hfind.
  - apply findOne_between_Some in Hfind as [Hc Hb]. right. left. by exists id, c.
  - unfold Conversation_create, Conversation_save. simpl.
    destruct (room_save_rejects env) eqn:Henv; [left; by eexists|].
    right. right. split_and!; [by eexists| |done|done].
    by apply findOne_between_None.
Qed.

Lemma deleteConversation_cases env req st :
  (∃ e, deleteConversation_fn env req st = (Throw e, st)) ∨
  (∃ c, conversations st !! req_params_id req = Some c ∧
        req_user req ∈ participants c ∧ room_save_rejects env = false ∧
        deleteConversation_fn env req st =
          (Ok (ok_text "Conversation deleted successfully"),
           set_conversations
             (insert (req_params_id req) (conversation_set_isActive false c)) st)).
Proof.
  unfold deleteConversation_fn, bind, Conversation_findById, gets.
  destruct (conversations st !! req_params_id req) as [c|] eqn:Hc; [|left; by eexists].
  unfold includes. case_bool_decide as Hin; simpl; [|left; by eexists].
  unfold Conversation_save.
  destruct (room_save_rejects env) eqn:Henv; [left; by eexists|].
  right. by exists c.
Qed.

(** X22. There is never a second active conversation between the same two
    users: if no two active conversations of the store have the same two
    participants, the same holds after [createConversation] (which gives
    a new conversation an id that is not in use) and after
    [deleteConversation], whatever they answer. *)
Theorem conversations_stay_one_per_pair (env : Env) (cid p : string)
    (req req' : Request) (st : Store) :
  one_conversation_per_pair st → conversations st !! cid = None →
  one_conversation_per_pair (createConversation env cid p req st).2 ∧
  one_conversation_per_pair (deleteConversation env req' st).2.
Proof.
  intros Hone Hfresh. split.
  - unfold createConversation. rewrite asyncHandlerOf_store.
    destruct (createConversation_cases env cid p req st)
      as [[e ->]|[(id & c & _ & _ & ->)|(_ & Hnone & _ & ->)]]; [done|done|].
    intros id1 id2 c1 c2 H1 H2 Ha1 Ha2 Hlen Hperm. simpl in H1, H2.
    destruct (decide (id1 = cid)) as [->|Hne1], (decide (id2 = cid)) as [->|Hne2];
      [done| | |].
    + rewrite lookup_insert_eq in H1. rewrite lookup_insert_ne in H2 by done.
      injection H1 as <-. simpl in Hperm. destruct (Hnone id2 c2 H2).
      split_and!; [| | |done].
      * rewrite <- Hperm. by left.
      * rewrite <- Hperm. right. by left.
      * by rewrite <- Hperm.
    + rewrite lookup_insert_ne in H1 by done. rewrite lookup_insert_eq in H2.
      injection H2 as <-. simpl in Hperm. destruct (Hnone id1 c1 H1).
      split_and!; [| |done|done].
      * rewrite Hperm. by left.
      * rewrite Hperm. right. by left.
    + rewrite lookup_insert_ne in H1, H2 by done. by eapply Hone.
  - unfold deleteConversation. rewrite asyncHandler_store.
    destruct (deleteConversation_cases env req' st)
      as [[e ->]|(c & Hc & _ & _ & ->)]; [done|].
    intros id1 id2 c1 c2 H1 H2 Ha1 Ha2 Hlen Hperm. simpl in H1, H2.
    destruct (decide (id1 = req_params_id req')) as [->|Hne1].
    { rewrite lookup_insert_eq in H1. by injection H1 as <-. }
    destruct (decide (id2 = req_params_id req')) as [->|Hne2].
    { rewrite lookup_insert_eq in H2. by injection H2 as <-. }
    rewrite lookup_insert_ne in H1, H2 by done. by eapply Hone.
Qed.

(** X23. Asking again gives the same conversation: once [createConversation]
    has made a conversation (status 201), a second call by the same
    user for the same participant, or by the participant for the first
    user, answers 200 with that very conversation and writes nothing. *)
Theorem createConversation_again_finds_it (env : Env) (cid cid2 p : string)
    (req req2 : Request) (st : Store) (id : string) (c : Conversation) :
  (createConversation env cid p req st).1 = inr (201, id, c) →
  is_Some (users st !! req_user req) →
  let st' := (createConversation env cid p req st).2 in
  let me := req_user req in
  id = cid ∧ participants c = [me; p] ∧ conversations st' !! cid = Some c ∧
  (req_user req2 = me →
     createConversation env cid2 p req2 st' = (inr (200, cid, c), st')) ∧
  (req_user req2 = p →
     createConversation env cid2 me req2 st' = (inr (200, cid, c), st')).
Proof.
  unfold createConversation, asyncHandlerOf. intros Hrun Hme. cbv zeta.
  destruct (createConversation_cases env cid p req st)
    as [[e He]|[(id' & c' & _ & _ & He)|([u Hu] & Hnone & Henv & He)]];
    rewrite He in Hrun |- *; [done|by simplify_eq/=|].
  injection Hrun as <- <-. simpl.
  set (new := {| participants := [req_user req; p]; c_lastMessage := None;
                 c_unreadCount := {[ p := 0 ]}; c_isActive := true |}).
  set (st' := set_conversations (insert cid new) st).
  assert (∀ a b, (a = req_user req ∧ b = p) ∨ (a = p ∧ b = req_user req) →
            Conversation_findOne_between st' a b = Some (cid, new)) as Hfind.
  { intros a b Hab. apply findOne_between_only.
    - simpl. by rewrite lookup_insert_eq.
    - unfold between. simpl.
      destruct Hab as [[-> ->]|[-> ->]];
        (split_and!; [apply list_elem_of_In; simpl; tauto..|done|done]).
    - intros id' c' Hc' (Ha & Hb & Hlen & Hact). simpl in Hc'.
      destruct (decide (id' = cid)) as [->|Hne]; [done|].
      rewrite lookup_insert_ne in Hc' by done.
      destruct (Hnone id' c' Hc').
      destruct Hab as [[-> ->]|[-> ->]]; by split_and!. }
  split_and!; [done|done|by rewrite lookup_insert_eq| |].
  - intros Hreq. unfold createConversation_fn, bind, User_findById, gets. simpl.
    rewrite Hu, Hreq. rewrite Hfind by (by left). done.
  - intros Hreq. unfold createConversation_fn, bind, User_findById, gets. simpl.
    destruct Hme as [u' ->]. rewrite Hreq. rewrite Hfind by (by right). done.
Qed.

(** X24. A deleted conversation is not reopened. When a participant has
    deleted the one active conversation two different users had,
    [createConversation] for the same two users makes a new conversation
    under a new id, with status 201; the deleted one stays in the store,
    inactive. *)
Theorem deleted_conversation_is_not_reopened (env : Env) (cid p : string)
    (req : Request) (st : Store) (c : Conversation) :
  let me := req_user req in
  let id := req_params_id req in
  conversations st !! id = Some c → between me p c → me ≠ p →
  one_conversation_per_pair st → is_Some (users st !! p) →
  conversations st !! cid = None → room_save_rejects env = false →
  let st1 := (deleteConversation env req st).2 in
  let new := {| participants := [me; p]; c_lastMessage := None;
                c_unreadCount := {[ p := 0 ]}; c_isActive := true |} in
  (deleteConversation env req st).1 = ok_text "Conversation deleted successfully" ∧
  createConversation env cid p req st1 =
    (inr (201, cid, new), set_conversations (insert cid new) st1) ∧
  conversations (set_conversations (insert cid new) st1) !! id =
    Some (conversation_set_isActive false c).
Proof.
  cbv zeta. intros Hc (Hme & Hp & Hlen & Hact) Hne Hone [u Hu] Hfresh Henv.
  assert (deleteConversation env req st =
          (ok_text "Conversation deleted successfully",
           set_conversations
             (insert (req_params_id req) (conversation_set_isActive false c)) st))
    as Hdel.
  { unfold deleteConversation. apply asyncHandler_ok.
    unfold deleteConversation_fn, bind, Conversation_findById, gets. rewrite Hc.
    unfold includes. rewrite bool_decide_eq_true_2 by done. simpl.
    unfold Conversation_save. by rewrite Henv. }
  rewrite Hdel. simpl.
  assert (cid ≠ req_params_id req) as Hcid by (intros ->; by rewrite Hc in Hfresh).
  split_and!; [done| |].
  - unfold createConversation, asyncHandlerOf, createConversation_fn, bind,
      User_findById, gets. simpl. rewrite Hu.
    destruct (Conversation_findOne_between _ (req_user req) p) as [[id' c']|] eqn:Hfind.
    + apply findOne_between_Some in Hfind as [Hc' (Hme' & Hp' & Hlen' & Hact')].
      simpl in Hc'.
      destruct (decide (id' = req_params_id req)) as [->|Hid'].
      * rewrite lookup_insert_eq in Hc'. by injection Hc' as <-.
      * rewrite lookup_insert_ne in Hc' by done.
        destruct Hid'. eapply (Hone id' (req_params_id req) c' c); try done.
        rewrite (two_participants (req_user req) p (participants c')) by done.
        by rewrite (two_participants (req_user req) p (participants c)).
    + unfold Conversation_create, Conversation_save. simpl. by rewrite Henv.
  - rewrite lookup_insert_ne by done. by rewrite lookup_insert_eq.
Qed.

Lemma st0_one_conversation_per_pair : one_conversation_per_pair st0.
Proof.
  intros id1 id2 c1 c2 H1 H2 _ _ _ _. unfold st0 in H1, H2. simpl in H1, H2.
  apply lookup_singleton_Some in H1 as [<- _].
  by apply lookup_singleton_Some in H2 as [<- _].
Qed.

Lemma conversations_stay_one_per_pair_witness :
  one_conversation_per_pair (createConversation env0 "c2" "b" (on_id "a" "") st0).2 ∧
  one_conversation_per_pair (deleteConversation env0 (on_id "a" "c1") st0).2.
Proof.
  apply (conversations_stay_one_per_pair env0 "c2" "b" (on_id "a" "") (on_id "a" "c1")
           st0 st0_one_conversation_per_pair).
  reflexivity.
Defined.

Lemma createConversation_again_finds_it_witness :
  let st' := (createConversation env0 "c2" "b" (on_id "a" "") st_strangers).2 in
  let me := req_user (on_id "a" "") in
  "c2" = "c2" ∧ participants conv_new_ab = [me; "b"] ∧
  conversations st' !! "c2" = Some conv_new_ab ∧
  (req_user (on_id "b" "") = me →
     createConversation env0 "c3" "b" (on_id "b" "") st'
       = (inr (200, "c2", conv_new_ab), st')) ∧
  (req_user (on_id "b" "") = "b" →
     createConversation env0 "c3" me (on_id "b" "") st'
       = (inr (200, "c2", conv_new_ab), st')).
Proof.
  apply (createConversation_again_finds_it env0 "c2" "c3" "b" (on_id "a" "")
           (on_id "b" "") st_strangers "c2" conv_new_ab).
  - by vm_compute.
  - vm_compute. eauto.
Defined.

Lemma deleted_conversation_is_not_reopened_witness :
  let st1 := (deleteConversation env0 (on_id "a" "c1") st0).2 in
  (deleteConversation env0 (on_id "a" "c1") st0).1
    = ok_text "Conversation deleted successfully" ∧
  createConversation env0 "c2" "b" (on_id "a" "c1") st1 =
    (inr (201, "c2", conv_new_ab), set_conversations (insert "c2" conv_new_ab) st1) ∧
  conversations (set_conversations (insert "c2" conv_new_ab) st1) !! "c1" =
    Some (conversation_set_isActive false conv_ab).
Proof.
  apply (deleted_conversation_is_not_reopened env0 "c2" "b" (on_id "a" "c1") st0 conv_ab).
  - reflexivity.
  - unfold between. split_and!; [apply list_elem_of_In; simpl; tauto..|done|done].
  - discriminate.
  - apply st0_one_conversation_per_pair.
  - vm_compute. eauto.
  - reflexivity.
  - reflexivity.
Defined.



(** X26. The HTTP route and the socket event store the same status: for a
    valid status, [updateStatus] leaves the store exactly as
    [status:change] by a socket of the same user does, and answers with
    that status when the user exists. A missing or unknown status is
    answered with 400 'Invalid status' and nothing is written. *)
Theorem updateStatus_agrees_with_status_change (env : Env) (socket : Socket)
    (data : Payload) (req : Request) (s : string) (w : World) :
  user_id socket = req_user req → p_status data = Some s → s ∈ valid_statuses →
  (updateStatus env (Some s) req (store w)).2
    = store (exec (status_change env socket data) w) ∧
  (is_Some (users (store w) !! req_user req) →
     (updateStatus env (Some s) req (store w)).1 = inr s) ∧
  (∀ s', s' ∉ valid_statuses →
     updateStatus env (Some s') req (store w)
       = (inl (api_error 400 "Invalid status"), store w)) ∧
  updateStatus env None req (store w) = (inl (api_error 400 "Invalid status"), store w).
Proof.
  intros Huser Hs Hvalid.
  assert ((updateStatus env (Some s) req (store w)).2
            = store (exec (status_change env socket data) w) ∧
          (is_Some (users (store w) !! req_user req) →
             (updateStatus env (Some s) req (store w)).1 = inr s)) as [H1 H2].
  { destruct (status_change_fields env socket data s w Hs Hvalid) as (_ & -> & _).
    rewrite Huser.
    unfold updateStatus, asyncHandlerOf, updateStatus_fn, includes.
    rewrite bool_decide_eq_true_2 by done. simpl.
    unfold bind, User_updateStatus, modify, User_findById, gets. simpl.
    rewrite lookup_alter_eq.
    destruct (users (store w) !! req_user req) as [u|]; simpl; [done|].
    split; [done|]. by intros [? ?]. }
  split_and!; [done|done| |done].
  intros s' Hinvalid.
  unfold updateStatus, asyncHandlerOf, updateStatus_fn, includes.
  by rewrite bool_decide_eq_false_2.
Qed.

Lemma updateStatus_agrees_with_status_change_witness :
  (updateStatus env0 (Some "busy") (on_id "a" "") (store w_online)).2
    = store (exec (status_change env0 socket_a1 (set_status "busy")) w_online) ∧
  (is_Some (users (store w_online) !! req_user (on_id "a" "")) →
     (updateStatus env0 (Some "busy") (on_id "a" "") (store w_online)).1 = inr "busy") ∧
  (∀ s', s' ∉ valid_statuses →
     updateStatus env0 (Some s') (on_id "a" "") (store w_online)
       = (inl (api_error 400 "Invalid status"), store w_online)) ∧
  updateStatus env0 None (on_id "a" "") (store w_online)
    = (inl (api_error 400 "Invalid status"), store w_online).
Proof.
  apply (updateStatus_agrees_with_status_change env0 socket_a1 (set_status "busy")
           (on_id "a" "") "busy" w_online); [reflexivity|reflexivity|].
  apply list_elem_of_In. simpl. tauto.
Defined.

Lemma string_app_cons x (s1 s2 : string) : String x s1 +:+ s2 = String x (s1 +:+ s2).
Proof. reflexivity. Qed.

Lemma string_app_nil_l (s : string) : "" +:+ s = s.
Proof. reflexivity. Qed.

Lemma string_app_assoc (s1 s2 s3 : string) : (s1 +:+ s2) +:+ s3 = s1 +:+ s2 +:+ s3.
Proof.
  induction s1 as [|x s1 IH]; [done|]. rewrite !string_app_cons. by f_equal.
Qed.

Lemma replace_all_app c r s1 s2 :
  replace_all c r (s1 +:+ s2) = replace_all c r s1 +:+ replace_all c r s2.
Proof.
  induction s1 as [|x s1 IH]; [done|].
  rewrite string_app_cons. simpl. rewrite IH.
  case_bool_decide; [by rewrite string_app_assoc|done].
Qed.

Lemma replace_all_one c r x :
  replace_all c r (String x EmptyString) =
    if bool_decide (x = c) then r else String x EmptyString.
Proof.
  simpl. case_bool_decide; [|done].
  induction r as [|y r IH]; [done|]. rewrite string_app_cons. by f_equal.
Qed.

Lemma sanitizeText_cons x rest :
  sanitizeText (String x rest) = escape x +:+ sanitizeText rest.
Proof.
  unfold sanitizeText.
  change (String x rest) with (String x EmptyString +:+ rest).
  rewrite !replace_all_app. f_equal.
  unfold escape. rewrite replace_all_one.
  case_bool_decide as H1; [done|].
  rewrite replace_all_one. case_bool_decide as H2; [done|].
  rewrite replace_all_one. case_bool_decide as H3; [done|].
  rewrite replace_all_one. case_bool_decide as H4; [done|].
  rewrite replace_all_one. by case_bool_decide.
Qed.

Lemma occurs_app c s1 s2 : occurs c (s1 +:+ s2) = occurs c s1 || occurs c s2.
Proof.
  induction s1 as [|x s1 IH]; [done|].
  rewrite string_app_cons. simpl. by rewrite IH, orb_assoc.
Qed.

Lemma sanitizeText_escape_each text : sanitizeText text = escape_each text.
Proof.
  induction text as [|x rest IH]; [done|]. by rewrite sanitizeText_cons, IH.
Qed.

Lemma escape_each_safe text :
  occurs (chr "<") (escape_each text) = false ∧
  occurs (chr ">") (escape_each text) = false ∧
  occurs (chr dquote) (escape_each text) = false ∧
  occurs (chr "'") (escape_each text) = false.
Proof.
  induction text as [|x rest IH]; [done|]. destruct IH as (IH1 & IH2 & IH3 & IH4).
  cbn [escape_each]. rewrite !occurs_app, IH1, IH2, IH3, IH4, !orb_false_r.
  unfold escape.
  case_bool_decide; [by vm_compute|]. case_bool_decide; [by vm_compute|].
  case_bool_decide; [by vm_compute|]. case_bool_decide; [by vm_compute|].
  case_bool_decide; [by vm_compute|].
  cbn [occurs]. by rewrite !bool_decide_eq_false_2, !orb_false_r by done.
Qed.

Lemma escape_each_inj a : ∀ b, escape_each a = escape_each b → a = b.
Proof.
  induction a as [|x a IH]; intros [|y b] H; [done| | |].
  - exfalso. cbn [escape_each] in H. unfold escape in H.
    repeat case_bool_decide; by vm_compute in H.
  - exfalso. cbn [escape_each] in H. unfold escape in H.
    repeat case_bool_decide; by vm_compute in H.
  - cbn [escape_each] in H. unfold escape in H.
    repeat case_bool_decide; subst; vm_compute in H; try discriminate;
      simplify_eq; try done; f_equal; by apply IH.
Qed.

(** X27. [sanitizeText] escapes every character once, whatever the order of
    its five replacements suggests: the result is the text with each of
    the five characters replaced by its entity and every other character
    kept, so an ampersand written by a later replacement is never escaped
    again. None of the characters [<], [>], the double quote and the
    apostrophe is left in the result, and nothing is lost: two texts with
    the same sanitized form are the same text. *)
Theorem sanitizeText_escapes_each_character_once (text : string) :
  sanitizeText text = escape_each text ∧
  occurs (chr "<") (sanitizeText text) = false ∧
  occurs (chr ">") (sanitizeText text) = false ∧
  occurs (chr dquote) (sanitizeText text) = false ∧
  occurs (chr "'") (sanitizeText text) = false ∧
  ∀ other, sanitizeText text = sanitizeText other → text = other.
Proof.
  split_and!; try (rewrite sanitizeText_escape_each; apply escape_each_safe).
  - apply sanitizeText_escape_each.
  - intros other. rewrite !sanitizeText_escape_each. apply escape_each_inj.
Qed.

Lemma string_length_app (a b : string) :
  String.length (a +:+ b) = String.length a + String.length b.
Proof.
  induction a as [|x a IH]; [done|]. rewrite string_app_cons. simpl. by rewrite IH.
Qed.

Lemma substring0_length n : ∀ s,
  n ≤ String.length s → String.length (String.substring 0 n s) = n.
Proof.
  induction n as [|n IH]; intros [|x s] Hlen; simpl in *; try done; try lia.
  rewrite IH; [done|lia].
Qed.

Lemma substring0_app n : ∀ a b,
  n ≤ String.length a → String.substring 0 n (a +:+ b) = String.substring 0 n a.
Proof.
  induction n as [|n IH]; intros a b Hlen; [destruct a; [by destruct b|done]|].
  destruct a as [|x a]; simpl in Hlen; [lia|].
  rewrite string_app_cons. simpl. rewrite IH; [done|lia].
Qed.

Lemma substring0_all s : String.substring 0 (String.length s) s = s.
Proof. induction s as [|x s IH]; simpl; [done|]. by rewrite IH. Qed.

(** X28. [truncateText] keeps a text that fits and otherwise keeps its first
    [maxLength] characters and appends three dots, so the result has at
    most [maxLength + 3] characters: a text that is one or two characters
    too long comes out longer than it went in. The first [maxLength]
    characters are never changed, and truncating the result again changes
    nothing. *)
Theorem truncateText_keeps_prefix (text : string) (maxLength : nat) :
  let result := truncateText text maxLength in
  (String.length text ≤ maxLength → result = text) ∧
  (maxLength < String.length text →
     result = String.substring 0 maxLength text +:+ "..." ∧
     String.length result = maxLength + 3) ∧
  String.length result ≤ maxLength + 3 ∧
  String.substring 0 maxLength result = String.substring 0 maxLength text ∧
  truncateText result maxLength = result.
Proof.
  cbv zeta. destruct (decide (String.length text ≤ maxLength)) as [Hfit|Hfit].
  - assert (truncateText text maxLength = text) as ->
      by (unfold truncateText; by rewrite bool_decide_eq_true_2).
    split_and!; [done|lia|lia|done|].
    unfold truncateText. by rewrite bool_decide_eq_true_2.
  - assert (truncateText text maxLength = String.substring 0 maxLength text +:+ "...")
      as -> by (unfold truncateText; by rewrite bool_decide_eq_false_2).
    assert (maxLength ≤ String.length text) as Hle by lia.
    assert (String.length (String.substring 0 maxLength text +:+ "...") = maxLength + 3)
      as Hlen.
    { rewrite string_length_app, substring0_length by done. done. }
    assert (String.substring 0 maxLength (String.substring 0 maxLength text +:+ "...")
            = String.substring 0 maxLength text) as Hsub.
    { rewrite substring0_app by (rewrite substring0_length; done).
      rewrite <- (substring0_length maxLength text Hle) at 1.
      apply substring0_all. }
    split_and!; [lia|done|lia|done|].
    unfold truncateText. rewrite bool_decide_eq_false_2 by lia. by rewrite Hsub.
Qed.

Lemma unit_count (seconds len : Z) :
  (0 < len)%Z →
  ((seconds / len) * len ≤ seconds < (seconds / len + 1) * len)%Z.
Proof.
  intros Hlen. pose proof (Z.div_mod seconds len ltac:(lia)) as Hdm.
  pose proof (Z.mod_pos_bound seconds len Hlen) as Hb. lia.
Qed.

Lemma unit_too_long (seconds len : Z) :
  (0 < len)%Z → ¬ (1 < seconds / len)%Z → (seconds / len)%Z ≠ 1%Z → (seconds < len)%Z.
Proof. intros Hlen H1 H2. pose proof (unit_count seconds len Hlen). nia. Qed.

Lemma render_many n unit tail :
  (1 < n)%Z → tail = " " +:+ unit +:+ "s ago" → pretty n +:+ tail = render (Ago n unit).
Proof. intros Hn ->. unfold render. by rewrite bool_decide_eq_false_2 by lia. Qed.

Ltac smaller_than_all :=
  let u := fresh "u" in let Hu := fresh "Hu" in
  intros u Hu; apply list_elem_of_In in Hu; simpl in Hu;
  repeat (destruct Hu as [<-|Hu]; [simpl; lia|]); destruct Hu.

(** X29. The label of [timeAgo] is the elapsed time rounded down to the
    largest unit that fits at least once: it reads [n] units where
    [n * unit <= seconds < (n + 1) * unit] and [seconds] is less than
    every larger unit, in the singular for 1. Seconds are only counted
    from 10 on; below that, and for a date in the future, the label is
    'just now'. *)
Theorem timeAgo_rounds_down (seconds : Z) :
  ∃ l, timeAgo_of seconds = render l ∧
    match l with
    | JustNow => (seconds < 10)%Z
    | Ago n unit =>
      ∃ before len after, units = before ++ (unit, len) :: after ∧
        (1 ≤ n)%Z ∧ (n * len ≤ seconds < (n + 1) * len)%Z ∧
        (∀ u, u ∈ before → (seconds < u.2)%Z) ∧
        (unit = "second" → (10 ≤ seconds)%Z)
    end.
Proof.
  unfold timeAgo_of. cbv zeta.
  pose proof (unit_count seconds 31536000 ltac:(lia)) as Cy.
  pose proof (unit_count seconds 2592000 ltac:(lia)) as Cmo.
  pose proof (unit_count seconds 86400 ltac:(lia)) as Cd.
  pose proof (unit_count seconds 3600 ltac:(lia)) as Ch.
  pose proof (unit_count seconds 60 ltac:(lia)) as Cmi.
  case_bool_decide as Hy2.
  { exists (Ago (seconds / 31536000) "year"). split; [by apply render_many|].
    exists [], 31536000%Z, (tail units).
    split_and!; [done|lia|lia|lia|smaller_than_all|done]. }
  case_bool_decide as Hy1.
  { exists (Ago 1 "year"). split; [done|].
    exists [], 31536000%Z, (tail units).
    split_and!; [done|lia|lia|lia|smaller_than_all|done]. }
  pose proof (unit_too_long seconds 31536000 ltac:(lia) Hy2 Hy1) as Ly.
  case_bool_decide as Hmo2.
  { exists (Ago (seconds / 2592000) "month"). split; [by apply render_many|].
    exists (take 1 units), 2592000%Z, (drop 2 units).
    split_and!; [done|lia|lia|lia|smaller_than_all|done]. }
  case_bool_decide as Hmo1.
  { exists (Ago 1 "month"). split; [done|].
    exists (take 1 units), 2592000%Z, (drop 2 units).
    split_and!; [done|lia|lia|lia|smaller_than_all|done]. }
  pose proof (unit_too_long seconds 2592000 ltac:(lia) Hmo2 Hmo1) as Lmo.
  case_bool_decide as Hd2.
  { exists (Ago (seconds / 86400) "day"). split; [by apply render_many|].
    exists (take 2 units), 86400%Z, (drop 3 units).
    split_and!; [done|lia|lia|lia|smaller_than_all|done]. }
  case_bool_decide as Hd1.
  { exists (Ago 1 "day"). split; [done|].
    exists (take 2 units), 86400%Z, (drop 3 units).
    split_and!; [done|lia|lia|lia|smaller_than_all|done]. }
  pose proof (unit_too_long seconds 86400 ltac:(lia) Hd2 Hd1) as Ld.
  case_bool_decide as Hh2.
  { exists (Ago (seconds / 3600) "hour"). split; [by apply render_many|].
    exists (take 3 units), 3600%Z, (drop 4 units).
    split_and!; [done|lia|lia|lia|smaller_than_all|done]. }
  case_bool_decide as Hh1.
  { exists (Ago 1 "hour"). split; [done|].
    exists (take 3 units), 3600%Z, (drop 4 units).
    split_and!; [done|lia|lia|lia|smaller_than_all|done]. }
  pose proof (unit_too_long seconds 3600 ltac:(lia) Hh2 Hh1) as Lh.
  case_bool_decide as Hmi2.
  { exists (Ago (seconds / 60) "minute"). split; [by apply render_many|].
    exists (take 4 units), 60%Z, (drop 5 units).
    split_and!; [done|lia|lia|lia|smaller_than_all|done]. }
  case_bool_decide as Hmi1.
  { exists (Ago 1 "minute"). split; [done|].
    exists (take 4 units), 60%Z, (drop 5 units).
    split_and!; [done|lia|lia|lia|smaller_than_all|done]. }
  pose proof (unit_too_long seconds 60 ltac:(lia) Hmi2 Hmi1) as Lmi.
  case_bool_decide as Hs.
  { by exists JustNow. }
  exists (Ago seconds "second"). split; [apply render_many; [lia|done]|].
  exists (take 5 units), 1%Z, [].
  split_and!; [done|lia|lia|lia|smaller_than_all|lia].
Qed.

Lemma getGroup_cases env req st :
  (∃ e, getGroup_fn env req st = (Throw e, st)) ∨
  (∃ g, groups st !! req_params_id req = Some g ∧ req_user req ∈ members g ∧
        getGroup_fn env req st =
          (Ok (group_reset_unread (req_user req) g),
           set_groups (insert (req_params_id req)
                         (group_reset_unread (req_user req) g)) st)).
Proof.
  unfold getGroup_fn, bind, Group_findById, gets.
  destruct (groups st !! req_params_id req) as [g|] eqn:Hg; [|left; by eexists].
  unfold includes. case_bool_decide as Hin; simpl; [|left; by eexists].
  case_bool_decide; [left; by eexists|].
  unfold Group_save. simpl. case_bool_decide; [left; by eexists|].
  destruct (room_save_rejects env); [left; by eexists|].
  right. exists g. split_and!; [done| |done].
  unfold populated in Hin. by apply list_elem_of_filter in Hin as [_ ?].
Qed.

Lemma getConversation_cases env req st :
  (∃ e, getConversation_fn env req st = (Throw e, st)) ∨
  (∃ c, conversations st !! req_params_id req = Some c ∧
        req_user req ∈ participants c ∧
        getConversation_fn env req st =
          (Ok (conversation_reset_unread (req_user req) c),
           set_conversations (insert (req_params_id req)
                                (conversation_reset_unread (req_user req) c)) st)).
Proof.
  unfold getConversation_fn, bind, Conversation_findById, gets.
  destruct (conversations st !! req_params_id req) as [c|] eqn:Hc; [|left; by eexists].
  unfold includes. case_bool_decide as Hin; simpl; [|left; by eexists].
  unfold Conversation_save.
  destruct (room_save_rejects env); [left; by eexists|].
  right. exists c. split_and!; [done| |done].
  unfold populated in Hin. by apply list_elem_of_filter in Hin as [_ ?].
Qed.

(** X30. Opening one room resets the caller's counter, for members only,
    and marks nothing read. [getGroup] and [getConversation] either fail
    and leave the store as it was (a caller who is not in the room gets
    403), or the caller is in the room and the only change is that the
    caller's unread counter of that room is 0: the other counters, the
    members and the last message of every room are as before, and so are
    all messages, whose [readBy] is not touched. *)
Theorem opening_a_room_resets_own_counter (env : Env) (req : Request) (st : Store) :
  let me := req_user req in
  let opened (room : RoomRef) (st' : Store) :=
    (∃ ms, room_members st room = Some ms ∧ me ∈ ms) ∧
    room_unreadCount st' room = <[me := 0]> <$> room_unreadCount st room ∧
    (∀ room' u, room' ≠ room → room_unread st' room' u = room_unread st room' u) ∧
    (∀ r, room_members st' r = room_members st r ∧
          room_lastMessage st' r = room_lastMessage st r) ∧
    messages st' = messages st ∧ users st' = users st ∧
    notifications st' = notifications st in
  (∀ doc, (getGroup env req st).1 = inr doc →
     opened (InGroup (req_params_id req)) (getGroup env req st).2) ∧
  (∀ resp, (getGroup env req st).1 = inl resp → (getGroup env req st).2 = st) ∧
  (∀ doc, (getConversation env req st).1 = inr doc →
     opened (InConversation (req_params_id req)) (getConversation env req st).2) ∧
  (∀ resp, (getConversation env req st).1 = inl resp →
     (getConversation env req st).2 = st) ∧
  (∀ g, groups st !! req_params_id req = Some g → me ∉ members g →
     getGroup env req st =
       (inl (api_error 403 "You are not a member of this group"), st)) ∧
  (∀ c, conversations st !! req_params_id req = Some c → me ∉ participants c →
     getConversation env req st =
       (inl (api_error 403 "Not authorized to view this conversation"), st)).
Proof.
  cbv zeta.
  refine (conj _ (conj _ (conj _ (conj _ (conj _ _))))).
  - unfold getGroup, asyncHandlerOf.
    destruct (getGroup_cases env req st) as [[e ->]|(g & Hg & Hin & ->)]; [done|].
    intros _ _. simpl. rewrite Hg. simpl. split_and!; try done.
    + by exists (members g).
    + by rewrite lookup_insert_eq.
    + intros [id|id] u Hne; simpl; [done|].
      rewrite lookup_insert_ne; [done|]. congruence.
    + intros [id|id]; simpl; [done|].
      destruct (decide (id = req_params_id req)) as [->|Hid].
      * by rewrite lookup_insert_eq, Hg.
      * by rewrite lookup_insert_ne.
  - unfold getGroup, asyncHandlerOf.
    by destruct (getGroup_cases env req st) as [[e ->]|(g & Hg & Hin & ->)].
  - unfold getConversation, asyncHandlerOf.
    destruct (getConversation_cases env req st) as [[e ->]|(c & Hc & Hin & ->)];
      [done|].
    intros _ _. simpl. rewrite Hc. simpl. split_and!; try done.
    + by exists (participants c).
    + by rewrite lookup_insert_eq.
    + intros [id|id] u Hne; simpl; [|done].
      rewrite lookup_insert_ne; [done|]. congruence.
    + intros [id|id]; simpl; [|done].
      destruct (decide (id = req_params_id req)) as [->|Hid].
      * by rewrite lookup_insert_eq, Hc.
      * by rewrite lookup_insert_ne.
  - unfold getConversation, asyncHandlerOf.
    by destruct (getConversation_cases env req st) as [[e ->]|(c & Hc & Hin & ->)].
  - intros g Hg Hnot.
    unfold getGroup, asyncHandlerOf, getGroup_fn, bind, Group_findById, gets.
    rewrite Hg. unfold includes. rewrite bool_decide_eq_false_2; [done|].
    unfold populated. by intros [_ ?]%list_elem_of_filter.
  - intros c Hc Hnot.
    unfold getConversation, asyncHandlerOf, getConversation_fn, bind,
      Conversation_findById, gets.
    rewrite Hc. unfold includes. rewrite bool_decide_eq_false_2; [done|].
    unfold populated. by intros [_ ?]%list_elem_of_filter.
Qed.
